(** * AccessWash web portal: tenant-scoped session and API-access core

    A shallow embedding of
      - [lib/utils/api-client.ts]    (class [ApiClient], [createApiClient]),
      - the auth store               ([useAuthStore]),
      - [middleware.ts]              ([middleware]),
      - the tenant hook              ([useTenant]),
    together with the properties of the specification that concern them.

    The program is TypeScript running on a JavaScript engine.  Values that
    come from the network or from [JSON.parse] are untyped at run time, so
    they are modelled by a small universe of JavaScript values with the
    engine's truthiness, string conversion and property access.  The browser
    (cookie jar, [window.location]), the network and the log of effects form
    an explicit world that every operation threads through an exception and
    state monad. *)

From Stdlib Require Import ZArith String Ascii List Bool Lia DecimalString.
From stdpp Require Import base option gmap strings list.

Import ListNotations.
Local Set Warnings "-register-all".
Local Open Scope string_scope.
Local Open Scope Z_scope.

(** ** JavaScript values *)

(** The values a response body, a cookie payload or a store field can hold.
    Numbers are the integers (a JSON body of this API carries strings,
    booleans and counters): [JNum n] is the Number value for [n], the double
    nearest to it, which is [n] itself up to 2^53.  The program never
    calculates with or compares the numbers of a body; it tests their
    truthiness and converts them to strings.  An object is the list of its
    own enumerable properties in insertion order; no value is a function. *)
Inductive jsval : Type :=
| JUndefined
| JNull
| JBool (b : bool)
| JNum (n : Z)
| JStr (s : string)
| JArr (items : list jsval)
| JObj (fields : list (string * jsval)).

(** [ToBoolean]: what [if (v)], [!!v], [a && b] and [a || b] test. *)
Definition truthy (v : jsval) : bool :=
  match v with
  | JUndefined | JNull => false
  | JBool b => b
  | JNum n => negb (n =? 0)
  | JStr s => negb (String.eqb s "")
  | JArr _ | JObj _ => true
  end.

(** [a || b] on values. *)
Definition js_or (a b : jsval) : jsval := if truthy a then a else b.

Definition string_of_Z (n : Z) : string := NilZero.string_of_int (Z.to_int n).

(** *** [Number::toString]

    The double nearest to a natural number, ties to the even significand;
    [None] where it overflows to [Infinity]. *)
Definition nearest_double (n : Z) : option Z :=
  let bits := Z.log2 n + 1 in
  if bits <=? 53 then Some n
  else
    let e := bits - 53 in
    let q := Z.shiftr n e in
    let r := n - Z.shiftl q e in
    let half := 2 ^ (e - 1) in
    let m := if (half <? r) || ((r =? half) && Z.odd q) then q + 1 else q in
    let d := m * 2 ^ e in
    if 2 ^ 1024 <=? d then None else Some d.

(** Whether the integer [c] rounds to the double [d], for [d] from 2^53 on:
    [c] lies within half a gap of [d], the ends included when the significand
    of [d] is even; the gap below a power of two is half the gap above. *)
Definition rounds_to (d c : Z) : bool :=
  let e := Z.log2 d - 52 in
  let m := Z.shiftr d e in
  let up := 2 ^ (e - 1) in
  let down := if m =? 2 ^ 52 then 2 ^ (e - 2) else 2 ^ (e - 1) in
  if Z.even m then (d - down <=? c) && (c <=? d + up)
  else (d - down <? c) && (c <? d + up).

(** The number with the fewest significant digits that rounds to [d], and
    among those the nearest to [d]: the multiples of [p] next to [d] are
    tried for [p] a power of ten, from the largest down. *)
Fixpoint shortest (fuel : nat) (p d : Z) : Z :=
  let c1 := (d / p) * p in
  let c2 := c1 + p in
  match rounds_to d c1, rounds_to d c2 with
  | true, true =>
      if d - c1 <? c2 - d then c1
      else if c2 - d <? d - c1 then c2
      else if Z.even (c1 / p) then c1 else c2
  | true, false => c1
  | false, true => c2
  | false, false =>
      match fuel with
      | O => d
      | S fuel' => shortest fuel' (p / 10) d
      end
  end.

Fixpoint strip_zeros (s : string) : string :=
  match s with
  | EmptyString => EmptyString
  | String c rest =>
      match strip_zeros rest with
      | EmptyString => if Ascii.eqb c "0" then EmptyString else String c EmptyString
      | kept => String c kept
      end
  end.

(** Up to 21 digits are written out; from there on the exponent form
    [d.ddde+n] is used. *)
Definition format_number (c : Z) : string :=
  let text := string_of_Z c in
  let n := String.length text in
  if (n <=? 21)%nat then text
  else match strip_zeros text with
       | EmptyString => text
       | String a EmptyString => String a ("e+" +:+ string_of_Z (Z.of_nat (n - 1)))
       | String a rest => String a ("." +:+ rest +:+ "e+" +:+ string_of_Z (Z.of_nat (n - 1)))
       end.

(** Whether the Number value for [n] is finite. *)
Definition finite (n : Z) : bool :=
  match nearest_double (Z.abs n) with
  | Some _ => true
  | None => false
  end.

Definition Number_toString (n : Z) : string :=
  let text (n : Z) :=
    match nearest_double n with
    | None => "Infinity"
    | Some d =>
        if d <=? 2 ^ 53 then format_number d
        else let digits := String.length (string_of_Z d) in
             format_number (shortest digits (10 ^ Z.of_nat digits) d)
    end in
  if n <? 0 then "-" +:+ text (- n) else text n.

Fixpoint join (sep : string) (l : list string) : string :=
  match l with
  | [] => ""
  | [x] => x
  | x :: rest => x +:+ sep +:+ join sep rest
  end.

(** Own property lookup of an object; a later duplicate overrides an earlier
    one, as assignment does. *)
Fixpoint obj_find (fields : list (string * jsval)) (k : string) : option jsval :=
  match fields with
  | [] => None
  | (k', v) :: rest =>
      match obj_find rest k with
      | Some later => Some later
      | None => if String.eqb k' k then Some v else None
      end
  end.

Definition obj_get (fields : list (string * jsval)) (k : string) : jsval :=
  match obj_find fields k with
  | Some v => v
  | None => JUndefined
  end.

(** [ToString]: what [new Error(v)], template literals and js-cookie's
    [encodeURIComponent(value)] apply to a value.  [None] is the [TypeError]
    of a value that has no primitive: an object converts through its
    [toString] and [valueOf], and one with an own property [toString] hides
    [Object.prototype.toString] behind a value that cannot be called, while
    the [valueOf] it is left with, its own or the inherited one, yields no
    primitive either.  An array joins the conversions of its elements, so
    it fails where one of them does. *)
Fixpoint ToString (v : jsval) : option string :=
  match v with
  | JUndefined => Some "undefined"
  | JNull => Some "null"
  | JBool true => Some "true"
  | JBool false => Some "false"
  | JNum n => Some (Number_toString n)
  | JStr s => Some s
  | JArr items =>
      match (fix elements (l : list jsval) : option (list string) :=
               match l with
               | [] => Some []
               | x :: rest =>
                   match (match x with
                          | JUndefined | JNull => Some ""
                          | _ => ToString x
                          end), elements rest with
                   | Some text, Some texts => Some (text :: texts)
                   | _, _ => None
                   end
               end) items with
      | Some texts => Some (join "," texts)
      | None => None
      end
  | JObj fields =>
      match obj_find fields "toString" with
      | Some _ => None
      | None => Some "[object Object]"
      end
  end.

(** [v.k] for the property names this program reads ([success], [data],
    [tokens], [access_token], [customer], [message], [results]); none of
    them is a property of a primitive wrapper or of [Array.prototype].
    [None] is the [TypeError] of reading a property of [undefined] or
    [null]. *)
Definition get_prop (v : jsval) (k : string) : option jsval :=
  match v with
  | JUndefined | JNull => None
  | JObj fields => Some (obj_get fields k)
  | _ => Some JUndefined
  end.

(** [v?.k]. *)
Definition get_prop_opt (v : jsval) (k : string) : jsval :=
  match get_prop v k with
  | Some x => x
  | None => JUndefined
  end.

(** ** Strings: [includes] and [split] *)

Fixpoint starts_with (p s : string) : bool :=
  match p, s with
  | EmptyString, _ => true
  | String a p', String b s' => Ascii.eqb a b && starts_with p' s'
  | String _ _, EmptyString => false
  end.

(** [hay.includes(needle)]. *)
Fixpoint includes (hay needle : string) : bool :=
  starts_with needle hay ||
  match hay with
  | EmptyString => false
  | String _ rest => includes rest needle
  end.

(** [s.split(sep)] for a one-character separator: the pieces between the
    separators, always at least one. *)
Fixpoint split (sep : ascii) (s : string) : list string :=
  match s with
  | EmptyString => [""]
  | String c rest =>
      if Ascii.eqb c sep then "" :: split sep rest
      else match split sep rest with
           | [] => [String c ""]
           | piece :: pieces => String c piece :: pieces
           end
  end.

(** [arr[i]] on an array of strings: [None] is [undefined]. *)
Definition at_index (l : list string) (i : nat) : option string := nth_error l i.

(** ** JSON text

    [JSON.parse] and [JSON.stringify] belong to the engine.  The client is
    written against them as an interface, and so is the model: every general
    theorem below holds for whatever codec the engine provides.  [None] from
    [JSON_parse] is the [SyntaxError] it throws; [None] from [JSON_stringify]
    is the [undefined] it returns for [undefined]. *)
Class JsonCodec : Type := {
  JSON_parse : string -> option jsval;
  JSON_stringify : jsval -> option string
}.

(** A reference codec for the JSON texts of this API (objects, arrays,
    strings with the short escapes and [\u00XX], integers, literals), used to
    run the client on concrete cookies and response bodies. *)
Module ModelJSON.

Definition is_ws (c : ascii) : bool :=
  Ascii.eqb c " " || Ascii.eqb c "010" || Ascii.eqb c "013" || Ascii.eqb c "009".

Fixpoint skip_ws (s : string) : string :=
  match s with
  | String c r => if is_ws c then skip_ws r else s
  | EmptyString => s
  end.

Fixpoint strip_prefix (p s : string) : option string :=
  match p, s with
  | EmptyString, _ => Some s
  | String a p', String b s' => if Ascii.eqb a b then strip_prefix p' s' else None
  | String _ _, EmptyString => None
  end.

Definition digit_of (c : ascii) : option Z :=
  let n := nat_of_ascii c in
  if (48 <=? n)%nat && (n <=? 57)%nat then Some (Z.of_nat (n - 48)) else None.

Definition hex_of (c : ascii) : option nat :=
  let n := nat_of_ascii c in
  if (48 <=? n)%nat && (n <=? 57)%nat then Some (n - 48)%nat
  else if (97 <=? n)%nat && (n <=? 102)%nat then Some (n - 87)%nat
  else if (65 <=? n)%nat && (n <=? 70)%nat then Some (n - 55)%nat
  else None.

Definition hex_digit (n : nat) : ascii :=
  if (n <? 10)%nat then ascii_of_nat (48 + n) else ascii_of_nat (87 + n).

Fixpoint parse_digits (acc : Z) (s : string) : Z * string :=
  match s with
  | String c r =>
      match digit_of c with
      | Some d => parse_digits (10 * acc + d) r
      | None => (acc, s)
      end
  | EmptyString => (acc, s)
  end.

Definition ends_number (s : string) : bool :=
  match s with
  | String c _ => negb (Ascii.eqb c "." || Ascii.eqb c "e" || Ascii.eqb c "E")
  | EmptyString => true
  end.

(** An optional minus sign, then 0 or a digit string without leading zero;
  a fraction or an exponent is outside the model. *)
Definition parse_unsigned (s : string) : option (Z * string) :=
  match s with
  | String c r =>
      match digit_of c with
      | Some 0 =>
          match r with
          | String c' _ =>
              match digit_of c' with
              | Some _ => None
              | None => if ends_number r then Some (0, r) else None
              end
          | EmptyString => Some (0, r)
          end
      | Some d =>
          let '(n, r') := parse_digits d r in
          if ends_number r' then Some (n, r') else None
      | None => None
      end
  | EmptyString => None
  end.

Definition parse_number (s : string) : option (Z * string) :=
  match s with
  | String c r =>
      if Ascii.eqb c "-"
      then match parse_unsigned r with
           | Some (n, r') => Some (- n, r')
           | None => None
           end
      else parse_unsigned s
  | EmptyString => None
  end.

Definition unescape (c : ascii) : option ascii :=
  if Ascii.eqb c "034" then Some "034"%char
  else if Ascii.eqb c "\" then Some "\"%char
  else if Ascii.eqb c "/" then Some "/"%char
  else if Ascii.eqb c "b" then Some "008"%char
  else if Ascii.eqb c "f" then Some "012"%char
  else if Ascii.eqb c "n" then Some "010"%char
  else if Ascii.eqb c "r" then Some "013"%char
  else if Ascii.eqb c "t" then Some "009"%char
  else None.

Definition cons_char (c : ascii) (r : option (string * string)) : option (string * string) :=
  match r with
  | Some (str, rest) => Some (String c str, rest)
  | None => None
  end.

(** The characters after an opening quote, up to the closing one. *)
Fixpoint parse_string_body (s : string) : option (string * string) :=
  match s with
  | EmptyString => None
  | String c r =>
      if Ascii.eqb c "034" then Some ("", r)
      else if Ascii.eqb c "\" then
        match r with
        | String e r1 =>
            match unescape e with
            | Some x => cons_char x (parse_string_body r1)
            | None =>
                match r1 with
                | String h1 (String h2 (String h3 (String h4 r2))) =>
                    if Ascii.eqb e "u" && Ascii.eqb h1 "0" && Ascii.eqb h2 "0"
                    then match hex_of h3, hex_of h4 with
                         | Some a, Some b =>
                             cons_char (ascii_of_nat (16 * a + b)) (parse_string_body r2)
                         | _, _ => None
                         end
                    else None
                | _ => None
                end
            end
        | EmptyString => None
        end
      else if (nat_of_ascii c <? 32)%nat then None
      else cons_char c (parse_string_body r)
  end.

Definition first_char_is (c : ascii) (s : string) : option string :=
  match s with
  | String c' r => if Ascii.eqb c c' then Some r else None
  | EmptyString => None
  end.

Fixpoint parse_value (fuel : nat) (s : string) : option (jsval * string) :=
  match fuel with
  | O => None
  | S fuel' =>
      let s := skip_ws s in
      match strip_prefix "null" s, strip_prefix "true" s, strip_prefix "false" s with
      | Some r, _, _ => Some (JNull, r)
      | _, Some r, _ => Some (JBool true, r)
      | _, _, Some r => Some (JBool false, r)
      | None, None, None =>
          match first_char_is "034" s, first_char_is "[" s, first_char_is "{" s with
          | Some r, _, _ =>
              match parse_string_body r with
              | Some (str, r') => Some (JStr str, r')
              | None => None
              end
          | _, Some r, _ =>
              match first_char_is "]" (skip_ws r) with
              | Some r' => Some (JArr [], r')
              | None =>
                  match parse_elements fuel' r with
                  | Some (items, r') => Some (JArr items, r')
                  | None => None
                  end
              end
          | _, _, Some r =>
              match first_char_is "}" (skip_ws r) with
              | Some r' => Some (JObj [], r')
              | None =>
                  match parse_members fuel' r with
                  | Some (fields, r') => Some (JObj fields, r')
                  | None => None
                  end
              end
          | None, None, None =>
              match parse_number s with
              | Some (n, r) => Some (JNum n, r)
              | None => None
              end
          end
      end
  end
with parse_elements (fuel : nat) (s : string) : option (list jsval * string) :=
  match fuel with
  | O => None
  | S fuel' =>
      match parse_value fuel' s with
      | Some (v, r) =>
          let r := skip_ws r in
          match first_char_is "," r, first_char_is "]" r with
          | Some r', _ =>
              match parse_elements fuel' r' with
              | Some (vs, r'') => Some (v :: vs, r'')
              | None => None
              end
          | _, Some r' => Some ([v], r')
          | None, None => None
          end
      | None => None
      end
  end
with parse_members (fuel : nat) (s : string) : option (list (string * jsval) * string) :=
  match fuel with
  | O => None
  | S fuel' =>
      match first_char_is "034" (skip_ws s) with
      | Some r =>
          match parse_string_body r with
          | Some (k, r1) =>
              match first_char_is ":" (skip_ws r1) with
              | Some r2 =>
                  match parse_value fuel' r2 with
                  | Some (v, r3) =>
                      let r3 := skip_ws r3 in
                      match first_char_is "," r3, first_char_is "}" r3 with
                      | Some r4, _ =>
                          match parse_members fuel' r4 with
                          | Some (fs, r5) => Some ((k, v) :: fs, r5)
                          | None => None
                          end
                      | _, Some r4 => Some ([(k, v)], r4)
                      | None, None => None
                      end
                  | None => None
                  end
              | None => None
              end
          | None => None
          end
      | None => None
      end
  end.

Definition parse (s : string) : option jsval :=
  match parse_value (2 * String.length s + 2) s with
  | Some (v, r) =>
      match skip_ws r with
      | EmptyString => Some v
      | String _ _ => None
      end
  | None => None
  end.

(** The one-character string holding a double quote (code 34). *)
Definition dquote : string := String "034" "".

Definition escape_char (c : ascii) : string :=
  if Ascii.eqb c "034" then String "\" dquote
  else if Ascii.eqb c "\" then "\\"
  else if Ascii.eqb c "008" then "\b"
  else if Ascii.eqb c "012" then "\f"
  else if Ascii.eqb c "010" then "\n"
  else if Ascii.eqb c "013" then "\r"
  else if Ascii.eqb c "009" then "\t"
  else if (nat_of_ascii c <? 32)%nat
       then "\u00" +:+ String (hex_digit (nat_of_ascii c / 16)) (String (hex_digit (nat_of_ascii c mod 16)) "")
       else String c "".

Fixpoint escape (s : string) : string :=
  match s with
  | EmptyString => ""
  | String c r => escape_char c +:+ escape r
  end.

Definition quote (s : string) : string := dquote +:+ escape s +:+ dquote.

Fixpoint stringify (v : jsval) : option string :=
  match v with
  | JUndefined => None
  | JNull => Some "null"
  | JBool true => Some "true"
  | JBool false => Some "false"
  | JNum n => Some (if finite n then Number_toString n else "null")
  | JStr s => Some (quote s)
  | JArr items =>
      Some ("[" +:+ join "," (List.map (fun x => match stringify x with
                                                 | Some t => t
                                                 | None => "null"
                                                 end) items) +:+ "]")
  | JObj fields =>
      Some ("{" +:+ join "," (List.flat_map (fun kv => match stringify (snd kv) with
                                                       | Some t => [quote (fst kv) +:+ ":" +:+ t]
                                                       | None => []
                                                       end) fields) +:+ "}")
  end.

Definition codec : JsonCodec := {| JSON_parse := parse; JSON_stringify := stringify |}.

End ModelJSON.

(** ** Exceptions and state *)

Record http_response : Type := {
  resp_status : Z;
  resp_data : jsval
}.

(** The error objects that travel through [catch]: axios' error (with the
    response when one arrived), the engine's [TypeError], and the plain
    [Error] the client builds itself. *)
Inductive js_error : Type :=
| AxiosError (message : string) (response : option http_response)
| TypeError (message : string)
| Error (message : string).

(** [error.message]. *)
Definition error_message (e : js_error) : string :=
  match e with
  | AxiosError m _ => m
  | TypeError m => m
  | Error m => m
  end.

(** [error.response]. *)
Definition error_response (e : js_error) : option http_response :=
  match e with
  | AxiosError _ r => r
  | _ => None
  end.

Inductive completion (A : Type) : Type :=
| Normal (a : A)
| Throw (e : js_error).
Arguments Normal {A} a.
Arguments Throw {A} e.

(** A computation over a state [S] that returns or throws. *)
Definition M (S A : Type) : Type := S -> completion A * S.

Definition ret {S A} (a : A) : M S A := fun s => (Normal a, s).

Definition throw {S A} (e : js_error) : M S A := fun s => (Throw e, s).

Definition bind {S A B} (m : M S A) (k : A -> M S B) : M S B :=
  fun s =>
    match m s with
    | (Normal a, s') => k a s'
    | (Throw e, s') => (Throw e, s')
    end.

Notation "'let*' x := m 'in' k" := (bind m (fun x => k))
  (at level 10, x name, m at level 100, k at level 200, only parsing).

(** [try { m } catch (e) { h e }]. *)
Definition try_catch {S A} (m : M S A) (h : js_error -> M S A) : M S A :=
  fun s =>
    match m s with
    | (Normal a, s') => (Normal a, s')
    | (Throw e, s') => h e s'
    end.

(** [try { m } finally { f }]: [f] runs in either case; the completion of
    [m] stands unless [f] itself throws. *)
Definition try_finally {S A} (m : M S A) (f : M S unit) : M S A :=
  fun s =>
    let '(c, s') := m s in
    match f s' with
    | (Normal _, s'') => (c, s'')
    | (Throw e, s'') => (Throw e, s'')
    end.

(** The engine's message for reading property [k] of [undefined] or [null]. *)
Definition cannot_read (v : jsval) (k : string) : string :=
  "Cannot read properties of " +:+ (match v with JNull => "null" | _ => "undefined" end)
  +:+ " (reading '" +:+ k +:+ "')".

(** [v.k] as a computation. *)
Definition member {S} (v : jsval) (k : string) : M S jsval :=
  match get_prop v k with
  | Some x => ret x
  | None => throw (TypeError (cannot_read v k))
  end.

(** The engine's message for a value that has no primitive. *)
Definition cannot_convert : string := "Cannot convert object to primitive value".

(** [ToString] as a step of a computation: it raises where it fails. *)
Definition to_string {S} (v : jsval) : M S string :=
  match ToString v with
  | Some text => ret text
  | None => throw (TypeError cannot_convert)
  end.

(** [new Error(message)]: the message is converted to a string, unless it
    is [undefined]; the error then has the empty message of
    [Error.prototype]. *)
Definition new_Error {S} (message : jsval) : M S js_error :=
  match message with
  | JUndefined => ret (Error "")
  | _ => let* text := to_string message in
         ret (Error text)
  end.

(** ** The world: browser, environment, network, and the log of effects *)

(** The attributes [Cookies.set] is given. *)
Record cookie_attributes : Type := {
  attr_expires : Z;
  attr_secure : bool;
  attr_sameSite : string
}.

Record cookie : Type := {
  cookie_value : string;
  cookie_attrs : cookie_attributes
}.

(** What exists only in a browser: [window.location] and [document.cookie],
    the latter as a map from cookie names to cookies. *)
Record browser_window : Type := {
  location_hostname : string;
  document_cookie : gmap string cookie
}.

Record request : Type := {
  req_method : string;
  req_url : string;
  req_data : jsval;
  req_headers : list (string * string)
}.

(** What the network does with one request: a response with a status and a
    body arrives after some milliseconds, or the connection fails. *)
Inductive outcome : Type :=
| Reply (elapsed_ms : Z) (status : Z) (body : jsval)
| NetworkError.

Inductive event : Type :=
| CookieRead (name : string)
| CookieWrite (name : string) (c : cookie)
| CookieRemove (name : string)
| HttpRequest (r : request)
| Navigate (url : string).

(** [window] is [None] where [typeof window === 'undefined'] (server-side
    rendering).  [network] scripts the outcomes of the requests still to be
    made, in order; once it has run out no answer ever arrives.  [trace] logs
    the effects, most recent first. *)
Record world : Type := {
  window : option browser_window;
  NODE_ENV : string;
  network : list outcome;
  trace : list event
}.

Definition emit (e : event) (w : world) : world :=
  {| window := window w; NODE_ENV := NODE_ENV w; network := network w; trace := e :: trace w |}.

Definition set_cookies (jar : gmap string cookie) (w : world) : world :=
  {| window := match window w with
               | Some win => Some {| location_hostname := location_hostname win; document_cookie := jar |}
               | None => None
               end;
     NODE_ENV := NODE_ENV w; network := network w; trace := trace w |}.

Definition set_network (n : list outcome) (w : world) : world :=
  {| window := window w; NODE_ENV := NODE_ENV w; network := n; trace := trace w |}.

(** [typeof window !== 'undefined']. *)
Definition has_window (w : world) : bool :=
  match window w with
  | Some _ => true
  | None => false
  end.

(** The cookie jar as a script can observe it; empty outside a browser. *)
Definition cookies (w : world) : gmap string cookie :=
  match window w with
  | Some win => document_cookie win
  | None => ∅
  end.

(** *** js-cookie

    [Cookies.get], [Cookies.set] and [Cookies.remove] of js-cookie 3 return
    at once when there is no [document].  A value is written through
    [encodeURIComponent], which converts it to a string (and raises, before
    anything is written, when it cannot), and read back decoded.  The
    characters of a string here have codes below 256, so no string holds a
    lone surrogate, the one thing [encodeURIComponent] refuses in a string. *)
Definition Cookies_get (name : string) : M world (option string) :=
  fun w =>
    match window w with
    | None => (Normal None, w)
    | Some win => (Normal (cookie_value <$> document_cookie win !! name), emit (CookieRead name) w)
    end.

Definition Cookies_set (name : string) (value : jsval) (attrs : cookie_attributes) : M world unit :=
  fun w =>
    match window w with
    | None => (Normal tt, w)
    | Some win =>
        match ToString value with
        | Some text =>
            let c := {| cookie_value := text; cookie_attrs := attrs |} in
            (Normal tt,
             emit (CookieWrite name c) (set_cookies (<[name := c]> (document_cookie win)) w))
        | None => (Throw (TypeError cannot_convert), w)
        end
    end.

Definition Cookies_remove (name : string) : M world unit :=
  fun w =>
    match window w with
    | None => (Normal tt, w)
    | Some win =>
        (Normal tt, emit (CookieRemove name) (set_cookies (delete name (document_cookie win)) w))
    end.

(** [window.location.href = url]. *)
Definition navigate (url : string) : M world unit :=
  fun w => (Normal tt, emit (Navigate url) w).

(** [typeof window !== 'undefined'] and [process.env.NODE_ENV] as reads. *)
Definition window_defined : M world bool := fun w => (Normal (has_window w), w).

Definition process_env_NODE_ENV : M world string := fun w => (Normal (NODE_ENV w), w).

(** The environment as a whole, for the constructor that inspects it. *)
Definition get_world : M world world := fun w => (Normal w, w).

(** ** lib/utils/api-client.ts *)

Record LoginCredentials : Type := {
  username : string;
  password : string
}.

Record RegisterData : Type := {
  reg_email : string;
  reg_phone_number : option string;
  reg_password : string;
  reg_password_confirm : string;
  reg_first_name : string;
  reg_last_name : string;
  reg_property_address : string;
  reg_language : option string
}.

Definition optional_field (k : string) (v : option string) : list (string * jsval) :=
  match v with
  | Some s => [(k, JStr s)]
  | None => []
  end.

Definition json_of_LoginCredentials (c : LoginCredentials) : jsval :=
  JObj [("username", JStr (username c)); ("password", JStr (password c))].

Definition json_of_RegisterData (d : RegisterData) : jsval :=
  JObj ([("email", JStr (reg_email d))]
        ++ optional_field "phone_number" (reg_phone_number d)
        ++ [("password", JStr (reg_password d));
            ("password_confirm", JStr (reg_password_confirm d));
            ("first_name", JStr (reg_first_name d));
            ("last_name", JStr (reg_last_name d));
            ("property_address", JStr (reg_property_address d))]
        ++ optional_field "language" (reg_language d)).

(** The private fields of the class, with the configuration handed to
    [axios.create]. *)
Record ApiClient : Type := {
  tenant : string;
  baseURL : string;
  timeout : Z
}.

Module Client.

(** The two cookie names of a tenant. *)
Definition token_key (tenant : string) : string := "accesswash_token_" +:+ tenant.
Definition customer_key (tenant : string) : string := "accesswash_customer_" +:+ tenant.

(** [{ expires: 7, secure: process.env.NODE_ENV === 'production', sameSite: 'strict' }]. *)
Definition session_attributes (node_env : string) : cookie_attributes :=
  {| attr_expires := 7;
     attr_secure := String.eqb node_env "production";
     attr_sameSite := "strict" |}.

Definition getBaseURL (tenant : string) (w : world) : string :=
  match window w with
  | Some win =>
      let hostname := location_hostname win in
      if includes hostname "localhost" || includes hostname "127.0.0.1"
      then "http://" +:+ tenant +:+ ".accesswash.org:8000/api"
      else "https://" +:+ tenant +:+ ".accesswash.org/api"
  | None =>
      if String.eqb (NODE_ENV w) "development"
      then "http://" +:+ tenant +:+ ".accesswash.org:8000/api"
      else "https://" +:+ tenant +:+ ".accesswash.org/api"
  end.

Definition getAuthToken (this : ApiClient) : M world (option string) :=
  let* browser := window_defined in
  if negb browser then ret None
  else Cookies_get (token_key (tenant this)).

Definition setAuthToken (this : ApiClient) (token : jsval) : M world unit :=
  let* browser := window_defined in
  if negb browser then ret tt
  else let* node_env := process_env_NODE_ENV in
       Cookies_set (token_key (tenant this)) token (session_attributes node_env).

Definition clearAuthData (this : ApiClient) : M world unit :=
  let* browser := window_defined in
  if negb browser then ret tt
  else let* _ := Cookies_remove (token_key (tenant this)) in
       Cookies_remove (customer_key (tenant this)).

(** Truthiness of what [Cookies.get] returns: a string or [undefined]. *)
Definition truthy_text (text : option string) : bool :=
  match text with
  | Some t => truthy (JStr t)
  | None => false
  end.

(** The headers of [axios.create]. *)
Definition default_headers : list (string * string) :=
  [("Content-Type", "application/json")].

(** Request interceptor: attach the bearer token when there is one. *)
Definition request_interceptor (this : ApiClient) (config : request) : M world request :=
  let* token := getAuthToken this in
  if truthy_text token
  then ret {| req_method := req_method config; req_url := req_url config;
              req_data := req_data config;
              req_headers := (req_headers config
                              ++ [("Authorization", "Bearer " +:+ default "" token)])%list |}
  else ret config.

(** [error.response?.status === 401]. *)
Definition is_unauthorized (error : js_error) : bool :=
  match error_response error with
  | Some r => resp_status r =? 401
  | None => false
  end.

(** Response interceptor, rejection side. *)
Definition response_interceptor {A} (this : ApiClient) (error : js_error) : M world A :=
  let* _ := (if is_unauthorized error
             then let* _ := clearAuthData this in
                  let* browser := window_defined in
                  if browser
                  then navigate ("/" +:+ tenant this +:+ "/portal/auth/login")
                  else ret tt
             else ret tt) in
  throw error.

(** axios' default [validateStatus]. *)
Definition validateStatus (status : Z) : bool := (200 <=? status) && (status <? 300).

Definition timeout_message (ms : Z) : string :=
  "timeout of " +:+ Number_toString ms +:+ "ms exceeded".

(** How the promise of one request settles, from what the network does with
    it ([None]: no answer ever arrives): a response that comes too late or
    not at all is a timeout, a status outside 2xx is rejected with the
    response attached. *)
Definition settle (this : ApiClient) (o : option outcome) : completion http_response :=
  match o with
  | None => Throw (AxiosError (timeout_message (timeout this)) None)
  | Some NetworkError => Throw (AxiosError "Network Error" None)
  | Some (Reply elapsed status body) =>
      let response := {| resp_status := status; resp_data := body |} in
      if timeout this <? elapsed
      then Throw (AxiosError (timeout_message (timeout this)) None)
      else if validateStatus status
      then Normal response
      else Throw (AxiosError ("Request failed with status code " +:+ Number_toString status)
                             (Some response))
  end.

(** The transport: sends the request and consumes the next outcome of the
    network. *)
Definition dispatch (this : ApiClient) (config : request) : M world http_response :=
  fun w =>
    (settle this (head (network w)),
     set_network (tail (network w)) (emit (HttpRequest config) w)).

(** [this.client.request]: interceptors around the transport. *)
Definition client_request (this : ApiClient) (method path : string) (data : jsval)
  : M world http_response :=
  let* config := request_interceptor this
              {| req_method := method; req_url := baseURL this +:+ path;
                 req_data := data; req_headers := default_headers |} in
  try_catch (dispatch this config) (response_interceptor this).

Definition client_get (this : ApiClient) (path : string) : M world http_response :=
  client_request this "get" path JUndefined.

Definition client_post (this : ApiClient) (path : string) (data : jsval) : M world http_response :=
  client_request this "post" path data.

Definition client_put (this : ApiClient) (path : string) (data : jsval) : M world http_response :=
  client_request this "put" path data.

(** [error.response?.data?.message]. *)
Definition backend_message (error : js_error) : jsval :=
  match error_response error with
  | Some r => get_prop_opt (resp_data r) "message"
  | None => JUndefined
  end.

(** The body of every [catch] of the class:
    [throw new Error(error.response?.data?.message || fallback)].  Building
    the error converts the message to a string; where that raises, the
    [TypeError] leaves the [catch] in place of the error. *)
Definition normalized {A} (error : js_error) (fallback : string) : M world A :=
  let* e := new_Error (js_or (backend_message error) (JStr fallback)) in
  throw e.

Definition js_of_text (t : option string) : jsval :=
  match t with
  | Some s => JStr s
  | None => JUndefined
  end.

Section Operations.
Context `{!JsonCodec}.

(** The block shared, letter for letter, by [login] and [register]. *)
Definition persist_session (this : ApiClient) (data : jsval) : M world unit :=
  let* success := member data "success" in
  let* condition := (if truthy success then member data "tokens" else ret success) in
  if truthy condition
  then let* tokens := member data "tokens" in
       let* access_token := member tokens "access_token" in
       let* _ := setAuthToken this access_token in
       let* customer := member data "customer" in
       let* node_env := process_env_NODE_ENV in
       Cookies_set (customer_key (tenant this)) (js_of_text (JSON_stringify customer))
                   (session_attributes node_env)
  else ret tt.

Definition login (this : ApiClient) (credentials : LoginCredentials) : M world jsval :=
  try_catch
    (let* response := client_post this "/portal/auth/login/" (json_of_LoginCredentials credentials) in
     let* _ := persist_session this (resp_data response) in
     ret (resp_data response))
    (fun error => normalized error "Login failed").

Definition register (this : ApiClient) (data : RegisterData) : M world jsval :=
  try_catch
    (let* response := client_post this "/portal/auth/register/" (json_of_RegisterData data) in
     let* _ := persist_session this (resp_data response) in
     ret (resp_data response))
    (fun error => normalized error "Registration failed").

Definition logout (this : ApiClient) : M world unit :=
  try_finally
    (try_catch
       (let* _ := client_post this "/portal/auth/logout/" JUndefined in ret tt)
       (fun _ => ret tt))
    (clearAuthData this).

Definition forgotPassword (this : ApiClient) (email : string) : M world jsval :=
  try_catch
    (let* response := client_post this "/portal/auth/forgot-password/" (JObj [("email", JStr email)]) in
     ret (resp_data response))
    (fun error => normalized error "Failed to send reset email").

Definition getDashboard (this : ApiClient) : M world jsval :=
  try_catch
    (let* response := client_get this "/portal/dashboard/" in
     ret (resp_data response))
    (fun error => normalized error "Failed to load dashboard").

Definition getProfile (this : ApiClient) : M world jsval :=
  try_catch
    (let* response := client_get this "/portal/profile/" in
     ret (resp_data response))
    (fun error => normalized error "Failed to load profile").

Definition updateProfile (this : ApiClient) (data : jsval) : M world jsval :=
  try_catch
    (let* response := client_put this "/portal/profile/" data in
     let* success := member (resp_data response) "success" in
     let* _ := (if truthy success
                then let* returned := member (resp_data response) "data" in
                     let* node_env := process_env_NODE_ENV in
                     Cookies_set (customer_key (tenant this)) (js_of_text (JSON_stringify returned))
                                 (session_attributes node_env)
                else ret tt) in
     ret (resp_data response))
    (fun error => normalized error "Failed to update profile").

Definition getServiceRequests (this : ApiClient) : M world jsval :=
  try_catch
    (let* response := client_get this "/support/requests/" in
     let* results := member (resp_data response) "results" in
     ret (js_or results (resp_data response)))
    (fun error => normalized error "Failed to load service requests").

Definition getServiceRequest (this : ApiClient) (id : string) : M world jsval :=
  try_catch
    (let* response := client_get this ("/support/requests/" +:+ id +:+ "/") in
     ret (resp_data response))
    (fun error => normalized error "Failed to load service request").

Definition createServiceRequest (this : ApiClient) (data : jsval) : M world jsval :=
  try_catch
    (let* response := client_post this "/support/requests/" data in
     ret (resp_data response))
    (fun error => normalized error "Failed to create service request").

Definition addComment (this : ApiClient) (requestId comment : string) : M world jsval :=
  try_catch
    (let* response := client_post this ("/support/requests/" +:+ requestId +:+ "/comments/")
                   (JObj [("comment", JStr comment)]) in
     ret (resp_data response))
    (fun error => normalized error "Failed to add comment").

(** [JNull] is the [null] of the source. *)
Definition getCurrentCustomer (this : ApiClient) : M world jsval :=
  let* browser := window_defined in
  if negb browser then ret JNull
  else let* customerData := Cookies_get (customer_key (tenant this)) in
       if negb (truthy_text customerData) then ret JNull
       else match JSON_parse (default "" customerData) with
            | Some parsed => ret parsed
            | None => ret JNull
            end.

(** [!!this.getAuthToken() && !!this.getCurrentCustomer()]; the right
    operand is evaluated only when the left one is true. *)
Definition isAuthenticated (this : ApiClient) : M world bool :=
  let* token := getAuthToken this in
  if truthy_text token
  then let* customer := getCurrentCustomer this in
       ret (truthy customer)
  else ret false.

End Operations.

(** [new ApiClient(tenant)]. *)
Definition new_client (tenant : string) (w : world) : ApiClient :=
  {| tenant := tenant; baseURL := getBaseURL tenant w; timeout := 10000 |}.

Definition createApiClient (tenant : string) : M world ApiClient :=
  let* w := get_world in
  ret (new_client tenant w).

End Client.

(** ** The auth store ([useAuthStore]) *)

Record AuthState : Type := {
  customer : jsval;
  loading : bool;
  error : option string;
  isAuthenticated : bool
}.

Module Store.

(** The store's state next to the world its actions run in. *)
Definition app : Type := (AuthState * world)%type.

(** The initial state of [create(...)]. *)
Definition initial : AuthState :=
  {| customer := JNull; loading := false; error := None; isAuthenticated := false |}.

(** zustand's [set]: merge a partial state. *)
Definition set (f : AuthState -> AuthState) : M app unit :=
  fun '(s, w) => (Normal tt, (f s, w)).

(** An [await] on a client operation. *)
Definition await {A} (m : M world A) : M app A :=
  fun '(s, w) => let '(c, w') := m w in (c, (s, w')).

Section Actions.
Context `{!JsonCodec}.

Definition login (credentials : LoginCredentials) (tenant : string) : M app unit :=
  let* _ := set (fun s => {| customer := customer s; loading := true; error := None;
                             isAuthenticated := isAuthenticated s |}) in
  try_catch
    (let* api := await (Client.createApiClient tenant) in
     let* response := await (Client.login api credentials) in
     let* success := member response "success" in
     if truthy success
     then let* data := member response "data" in
          let* c := member data "customer" in
          set (fun s => {| customer := c; isAuthenticated := true; loading := false;
                           error := error s |})
     else let* message := member response "message" in
          let* e := new_Error (js_or message (JStr "Login failed")) in
          throw e)
    (fun e =>
       let* _ := set (fun s => {| error := Some (error_message e); loading := false;
                                  isAuthenticated := false; customer := JNull |}) in
       throw e).

Definition register (data : RegisterData) (tenant : string) : M app unit :=
  let* _ := set (fun s => {| customer := customer s; loading := true; error := None;
                             isAuthenticated := isAuthenticated s |}) in
  try_catch
    (let* api := await (Client.createApiClient tenant) in
     let* response := await (Client.register api data) in
     let* success := member response "success" in
     if truthy success
     then let* data := member response "data" in
          let* c := member data "customer" in
          set (fun s => {| customer := c; isAuthenticated := true; loading := false;
                           error := error s |})
     else let* message := member response "message" in
          let* e := new_Error (js_or message (JStr "Registration failed")) in
          throw e)
    (fun e =>
       let* _ := set (fun s => {| error := Some (error_message e); loading := false;
                                  isAuthenticated := false; customer := JNull |}) in
       throw e).

Definition logout (tenant : string) : M app unit :=
  let* _ := set (fun s => {| customer := customer s; loading := true; error := error s;
                             isAuthenticated := isAuthenticated s |}) in
  try_finally
    (try_catch
       (let* api := await (Client.createApiClient tenant) in
        await (Client.logout api))
       (fun _ => ret tt))
    (set (fun _ => {| customer := JNull; isAuthenticated := false; loading := false;
                      error := None |})).

Definition forgotPassword (email : string) (tenant : string) : M app unit :=
  let* _ := set (fun s => {| customer := customer s; loading := true; error := None;
                             isAuthenticated := isAuthenticated s |}) in
  try_catch
    (let* api := await (Client.createApiClient tenant) in
     let* _ := await (Client.forgotPassword api email) in
     set (fun s => {| customer := customer s; loading := false; error := error s;
                      isAuthenticated := isAuthenticated s |}))
    (fun e =>
       let* _ := set (fun s => {| customer := customer s; loading := false;
                                  error := Some (error_message e);
                                  isAuthenticated := isAuthenticated s |}) in
       throw e).

Definition loadCustomerFromStorage (tenant : string) : M app unit :=
  try_catch
    (let* api := await (Client.createApiClient tenant) in
     let* c := await (Client.getCurrentCustomer api) in
     let* authenticated := await (Client.isAuthenticated api) in
     set (fun s => {| customer := c; isAuthenticated := authenticated; loading := false;
                      error := error s |}))
    (fun _ =>
       set (fun s => {| customer := JNull; isAuthenticated := false; loading := false;
                        error := error s |})).

End Actions.

Definition clearError : M app unit :=
  set (fun s => {| customer := customer s; loading := loading s; error := None;
                   isAuthenticated := isAuthenticated s |}).

End Store.

(** ** middleware.ts *)

Record NextRequest : Type := {
  header_host : option string;
  nextUrl_pathname : string
}.

Record NextResponse : Type := {
  response_headers : list (string * string)
}.

(** The tenant the filter computes from the host and the path. *)
Definition middleware_tenant (request : NextRequest) : string :=
  let hostname := default "" (header_host request) in
  if includes hostname "accesswash.org"
  then default "" (at_index (split "." hostname) 0)
  else if includes hostname "localhost" || includes hostname "127.0.0.1"
  then let pathSegments := split "/" (nextUrl_pathname request) in
       match at_index pathSegments 1 with
       | Some segment =>
           if negb (String.eqb segment "") && negb (String.eqb segment "api")
           then segment
           else "demo"
       | None => "demo"
       end
  else "demo".

Definition middleware (request : NextRequest) : NextResponse :=
  {| response_headers := [("x-tenant", middleware_tenant request)] |}.

(** ** The tenant hook ([useTenant]) *)

(** A dynamic route parameter: one segment, or the segments of a catch-all
    route. *)
Inductive route_param : Type :=
| ParamString (s : string)
| ParamArray (l : list string).

(** [params?.tenant && typeof params.tenant === 'string']. *)
Definition tenant_param (params : option (list (string * route_param))) : option string :=
  match params with
  | Some entries =>
      match List.find (fun kv => String.eqb (fst kv) "tenant") entries with
      | Some (_, ParamString s) => if String.eqb s "" then None else Some s
      | _ => None
      end
  | None => None
  end.

(** The memoised tenant of [useTenant]. *)
Definition useTenant (params : option (list (string * route_param))) (pathname : string) : string :=
  match tenant_param params with
  | Some t => t
  | None =>
      let segments := split "/" pathname in
      match at_index segments 1 with
      | Some segment => if String.eqb segment "" then "demo" else segment
      | None => "demo"
      end
  end.

(** No entry of the route parameters is called [tenant]. *)
Definition without_tenant (entries : list (string * route_param)) : Prop :=
  Forall (fun kv => fst kv <> "tenant") entries.

(** The route parameters give the resolver no tenant: there are no
    parameters, none of them is called [tenant], or the one called [tenant]
    is the empty string or the array of a catch-all route. *)
Inductive no_tenant_param : option (list (string * route_param)) -> Prop :=
| no_params : no_tenant_param None
| no_entry entries : without_tenant entries -> no_tenant_param (Some entries)
| empty_entry before after :
    without_tenant before ->
    no_tenant_param (Some (before ++ ("tenant", ParamString "") :: after)%list)
| array_entry before l after :
    without_tenant before ->
    no_tenant_param (Some (before ++ ("tenant", ParamArray l) :: after)%list).

(** ** Quantifying over the operations of the client *)

(** The public network operations that hand the response data back. *)
Inductive call : Type :=
| Login (credentials : LoginCredentials)
| Register (data : RegisterData)
| ForgotPassword (email : string)
| GetDashboard
| GetProfile
| UpdateProfile (data : jsval)
| GetServiceRequests
| GetServiceRequest (id : string)
| CreateServiceRequest (data : jsval)
| AddComment (requestId comment : string).

Definition invoke `{!JsonCodec} (this : ApiClient) (c : call) : M world jsval :=
  match c with
  | Login credentials => Client.login this credentials
  | Register data => Client.register this data
  | ForgotPassword email => Client.forgotPassword this email
  | GetDashboard => Client.getDashboard this
  | GetProfile => Client.getProfile this
  | UpdateProfile data => Client.updateProfile this data
  | GetServiceRequests => Client.getServiceRequests this
  | GetServiceRequest id => Client.getServiceRequest this id
  | CreateServiceRequest data => Client.createServiceRequest this data
  | AddComment requestId comment => Client.addComment this requestId comment
  end.

(** The default string of each operation's [catch]. *)
Definition fallback (c : call) : string :=
  match c with
  | Login _ => "Login failed"
  | Register _ => "Registration failed"
  | ForgotPassword _ => "Failed to send reset email"
  | GetDashboard => "Failed to load dashboard"
  | GetProfile => "Failed to load profile"
  | UpdateProfile _ => "Failed to update profile"
  | GetServiceRequests => "Failed to load service requests"
  | GetServiceRequest _ => "Failed to load service request"
  | CreateServiceRequest _ => "Failed to create service request"
  | AddComment _ _ => "Failed to add comment"
  end.

(** Every method of the class, private ones included. *)
Inductive method : Type :=
| Network (c : call)
| Logout
| GetAuthToken
| SetAuthToken (token : jsval)
| ClearAuthData
| GetCurrentCustomer
| IsAuthenticated.

(** The world a method leaves behind. *)
Definition effect `{!JsonCodec} (this : ApiClient) (m : method) (w : world) : world :=
  match m with
  | Network c => snd (invoke this c w)
  | Logout => snd (Client.logout this w)
  | GetAuthToken => snd (Client.getAuthToken this w)
  | SetAuthToken token => snd (Client.setAuthToken this token w)
  | ClearAuthData => snd (Client.clearAuthData this w)
  | GetCurrentCustomer => snd (Client.getCurrentCustomer this w)
  | IsAuthenticated => snd (Client.isAuthenticated this w)
  end.

(** The cookie an event touches, if any. *)
Definition touched (e : event) : option string :=
  match e with
  | CookieRead name | CookieWrite name _ | CookieRemove name => Some name
  | HttpRequest _ | Navigate _ => None
  end.

(** The cookies removed and the pages navigated to in a piece of trace. *)
Definition removals (events : list event) : list string :=
  flat_map (fun e => match e with CookieRemove name => [name] | _ => [] end) events.

Definition navigations (events : list event) : list string :=
  flat_map (fun e => match e with Navigate url => [url] | _ => [] end) events.

(** What a run adds to the trace. *)
Definition extends (w w' : world) (new : list event) : Prop :=
  trace w' = (new ++ trace w)%list.

(** Both cookies of a tenant are gone. *)
Definition signed_out (tenant : string) (w : world) : Prop :=
  cookies w !! Client.token_key tenant = None /\
  cookies w !! Client.customer_key tenant = None.

(** A request that does not come back with a 2xx response in time. *)
Definition fails (this : ApiClient) (o : option outcome) : Prop :=
  match o with
  | None | Some NetworkError => True
  | Some (Reply elapsed status _) => timeout this < elapsed \/ Client.validateStatus status = false
  end.

(** The [message] of the body of a response that did arrive in time. *)
Definition reply_message (this : ApiClient) (o : option outcome) : jsval :=
  match o with
  | Some (Reply elapsed _ body) =>
      if timeout this <? elapsed then JUndefined else get_prop_opt body "message"
  | _ => JUndefined
  end.

(** A 401 response that arrived in time. *)
Definition unauthorized (this : ApiClient) (o : option outcome) : bool :=
  match o with
  | Some (Reply elapsed status _) => negb (timeout this <? elapsed) && (status =? 401)
  | _ => false
  end.

(** A cookie name that belongs to tenant [t]. *)
Definition own (t k : string) : Prop :=
  k = Client.token_key t \/ k = Client.customer_key t.

(** An event that touches no cookie but the tenant's own. *)
Definition touches_own (t : string) (e : event) : Prop :=
  match touched e with
  | Some k => own t k
  | None => True
  end.

(** An event that neither removes a cookie nor leaves the page. *)
Definition quiet (e : event) : Prop :=
  match e with
  | CookieRemove _ | Navigate _ => False
  | _ => True
  end.

(** A run from [w] to [w'] of a client of tenant [t]: every cookie that is
    not the tenant's own is as it was, and every event the run added to the
    trace satisfies [P]. *)
Definition confined (t : string) (P : event -> Prop) (w w' : world) : Prop :=
  (forall k, ~ own t k -> cookies w' !! k = cookies w !! k) /\
  exists new, extends w w' new /\ Forall P new.

Definition respects {A} (t : string) (P : event -> Prop) (m : M world A) : Prop :=
  forall w, confined t P w (snd (m w)).

(** Two worlds a client of tenant [t] should not be able to tell apart: the
    same in everything but the cookies that are not the tenant's own. *)
Definition alike (t : string) (w1 w2 : world) : Prop :=
  location_hostname <$> window w1 = location_hostname <$> window w2 /\
  NODE_ENV w1 = NODE_ENV w2 /\
  network w1 = network w2 /\
  trace w1 = trace w2 /\
  forall k, own t k -> cookies w1 !! k = cookies w2 !! k.

(** A computation that behaves the same in worlds that are alike. *)
Definition indifferent {A} (t : string) (m : M world A) : Prop :=
  forall w1 w2,
    alike t w1 w2 -> fst (m w1) = fst (m w2) /\ alike t (snd (m w1)) (snd (m w2)).

Definition as_value {A} (f : A -> jsval) (c : completion A) : completion jsval :=
  match c with
  | Normal a => Normal (f a)
  | Throw e => Throw e
  end.

(** What a method hands back to its caller. *)
Definition result `{!JsonCodec} (this : ApiClient) (m : method) (w : world)
  : completion jsval :=
  match m with
  | Network c => fst (invoke this c w)
  | Logout => as_value (fun _ => JUndefined) (fst (Client.logout this w))
  | GetAuthToken => as_value Client.js_of_text (fst (Client.getAuthToken this w))
  | SetAuthToken token =>
      as_value (fun _ => JUndefined) (fst (Client.setAuthToken this token w))
  | ClearAuthData => as_value (fun _ => JUndefined) (fst (Client.clearAuthData this w))
  | GetCurrentCustomer => fst (Client.getCurrentCustomer this w)
  | IsAuthenticated => as_value JBool (fst (Client.isAuthenticated this w))
  end.

(** The request as it leaves the request interceptor. *)
Definition outgoing (this : ApiClient) (method path : string) (data : jsval) (w : world)
  : request :=
  let token := cookie_value <$> cookies w !! Client.token_key (tenant this) in
  {| req_method := method;
     req_url := baseURL this +:+ path;
     req_data := data;
     req_headers :=
       if Client.truthy_text token
       then (Client.default_headers
             ++ [("Authorization", "Bearer " +:+ default "" token)])%list
       else Client.default_headers |}.

(** The world in closed form once the request [config] has been settled;
    [rejected] says that it came back with a 401. *)
Definition answered (this : ApiClient) (rejected : bool) (config : request) (w : world)
  : world :=
  {| window :=
       match window w with
       | Some win =>
           Some {| location_hostname := location_hostname win;
                   document_cookie :=
                     if rejected
                     then delete (Client.customer_key (tenant this))
                            (delete (Client.token_key (tenant this)) (document_cookie win))
                     else document_cookie win |}
       | None => None
       end;
     NODE_ENV := NODE_ENV w;
     network := tail (network w);
     trace :=
       ((if has_window w
         then (if rejected
               then [Navigate ("/" +:+ tenant this +:+ "/portal/auth/login");
                     CookieRemove (Client.customer_key (tenant this));
                     CookieRemove (Client.token_key (tenant this))]
               else [])
              ++ [HttpRequest config; CookieRead (Client.token_key (tenant this))]
         else [HttpRequest config])
        ++ trace w)%list |}.

(** The string a cookie holds for what [JSON.stringify] returned: its text,
    or the conversion of the [undefined] it returns for [undefined]. *)
Definition stored_text (text : option string) : string := default "undefined" text.

(** The error that leaves a [catch] of the class, or the store's
    [throw new Error(message || fallback)], for the message found: the
    [Error] with the message as a string, or the [TypeError] of a message
    that has no string. *)
Definition rejection (message : jsval) (fallback : string) : js_error :=
  match ToString (js_or message (JStr fallback)) with
  | Some text => Error text
  | None => TypeError cannot_convert
  end.

(** What a [catch] of the class throws for the error it caught. *)
Definition caught (error : js_error) (fallback : string) : js_error :=
  rejection (Client.backend_message error) fallback.

(** Whether what an operation handed back reports success. *)
Definition reports_success (c : completion jsval) : bool :=
  match c with
  | Normal body => truthy (get_prop_opt body "success")
  | Throw _ => false
  end.

(** The store state [unauthenticated(error)]. *)
Definition unauthenticated (message : option string) : AuthState :=
  {| customer := JNull; loading := false; error := message; isAuthenticated := false |}.

(** The method, the path and the body of the request a call makes. *)
Definition request_of (c : call) : string * string * jsval :=
  match c with
  | Login credentials => ("post", "/portal/auth/login/", json_of_LoginCredentials credentials)
  | Register data => ("post", "/portal/auth/register/", json_of_RegisterData data)
  | ForgotPassword email =>
      ("post", "/portal/auth/forgot-password/", JObj [("email", JStr email)])
  | GetDashboard => ("get", "/portal/dashboard/", JUndefined)
  | GetProfile => ("get", "/portal/profile/", JUndefined)
  | UpdateProfile data => ("put", "/portal/profile/", data)
  | GetServiceRequests => ("get", "/support/requests/", JUndefined)
  | GetServiceRequest id => ("get", "/support/requests/" +:+ id +:+ "/", JUndefined)
  | CreateServiceRequest data => ("post", "/support/requests/", data)
  | AddComment requestId comment =>
      ("post", "/support/requests/" +:+ requestId +:+ "/comments/",
       JObj [("comment", JStr comment)])
  end.

Definition sent (this : ApiClient) (c : call) (w : world) : request :=
  let '(method, path, data) := request_of c in outgoing this method path data w.

(** What a call does after a response has arrived. *)
Definition continuation `{!JsonCodec} (this : ApiClient) (c : call) (r : http_response) : M world jsval :=
  match c with
  | Login _ | Register _ =>
      let* _ := Client.persist_session this (resp_data r) in ret (resp_data r)
  | UpdateProfile _ =>
      let* success := member (resp_data r) "success" in
      let* _ := (if truthy success
                 then let* returned := member (resp_data r) "data" in
                      let* node_env := process_env_NODE_ENV in
                      Cookies_set (Client.customer_key (tenant this))
                                  (Client.js_of_text (JSON_stringify returned))
                                  (Client.session_attributes node_env)
                 else ret tt) in
      ret (resp_data r)
  | GetServiceRequests =>
      let* results := member (resp_data r) "results" in
      ret (js_or results (resp_data r))
  | _ => ret (resp_data r)
  end.

(** A body in the documented response envelope
    [{ success, data?, message?, errors? }]: an object with no other
    property. *)
Definition documented_envelope (body : jsval) : Prop :=
  exists fields,
    body = JObj fields /\
    Forall (fun kv => In (fst kv) ["success"; "data"; "message"; "errors"]) fields.

(** ** Sample data *)

Module Sample.

Definition customer : jsval :=
  JObj [("id", JStr "c-7"); ("email", JStr "amina@example.org");
        ("full_name", JStr "Amina Odhiambo"); ("account_number", JStr "ACC-0007");
        ("language", JStr "en"); ("email_verified", JBool true)].

(** One member of a JSON object text. *)
Definition member_text (k v : string) : string := ModelJSON.quote k +:+ ":" +:+ v.

(** The JSON text of [customer], as a cookie holds it. *)
Definition customer_text : string :=
  "{" +:+ join "," [member_text "id" (ModelJSON.quote "c-7");
                    member_text "email" (ModelJSON.quote "amina@example.org");
                    member_text "full_name" (ModelJSON.quote "Amina Odhiambo");
                    member_text "account_number" (ModelJSON.quote "ACC-0007");
                    member_text "language" (ModelJSON.quote "en");
                    member_text "email_verified" "true"] +:+ "}".

Definition tokens : jsval :=
  JObj [("access_token", JStr "eyJhbGciOi.demo.token"); ("refresh_token", JStr "r-1")].

(** The documented envelope of a successful login:
    [{ success: true, data: { customer, tokens } }]. *)
Definition login_envelope : jsval :=
  JObj [("success", JBool true);
        ("data", JObj [("customer", customer); ("tokens", tokens)])].

(** A successful login reply with [customer] and [tokens] at the top level. *)
Definition login_flat : jsval :=
  JObj [("success", JBool true); ("customer", customer); ("tokens", tokens)].

Definition credentials : LoginCredentials :=
  {| username := "amina@example.org"; password := "correct horse" |}.

Definition attributes : cookie_attributes :=
  {| attr_expires := 7; attr_secure := false; attr_sameSite := "strict" |}.

Definition stored (value : string) : cookie :=
  {| cookie_value := value; cookie_attrs := attributes |}.

(** A browser tab on a development host with the given cookies. *)
Definition browser (jar : list (string * cookie)) (net : list outcome) : world :=
  {| window := Some {| location_hostname := "localhost"; document_cookie := list_to_map jar |};
     NODE_ENV := "development";
     network := net;
     trace := [] |}.

(** A server-side render. *)
Definition server (net : list outcome) : world :=
  {| window := None; NODE_ENV := "development"; network := net; trace := [] |}.

Definition demo_client : ApiClient :=
  {| tenant := "demo"; baseURL := "http://demo.accesswash.org:8000/api"; timeout := 10000 |}.

(** A signed-in [demo] session next to a signed-in [acme] session. *)
Definition two_sessions : list (string * cookie) :=
  [("accesswash_token_demo", stored "tok-demo");
   ("accesswash_customer_demo", stored customer_text);
   ("accesswash_token_acme", stored "tok-acme");
   ("accesswash_customer_acme", stored ("{" +:+ member_text "id" (ModelJSON.quote "c-9") +:+ "}"))].

End Sample.

(** ** The customer auth hook ([useCustomerAuth]) *)

Module Hook.

Section Hook.
Context `{!JsonCodec}.
Variable params : option (list (string * route_param)).
Variable pathname : string.

(** The body of the effect that runs on mount:
    [if (tenant) loadCustomerFromStorage(tenant)]. *)
Definition mount : M Store.app unit :=
  let tenant := useTenant params pathname in
  if truthy (JStr tenant) then Store.loadCustomerFromStorage tenant else ret tt.

(** The actions the hook hands out, wrapped with the resolved tenant. *)
Definition login (credentials : LoginCredentials) : M Store.app unit :=
  Store.login credentials (useTenant params pathname).

Definition register (data : RegisterData) : M Store.app unit :=
  Store.register data (useTenant params pathname).

Definition logout : M Store.app unit :=
  Store.logout (useTenant params pathname).

Definition forgotPassword (email : string) : M Store.app unit :=
  Store.forgotPassword email (useTenant params pathname).

End Hook.

End Hook.

(** ** Vocabulary for the further properties *)

(** The development and the production base URL of a tenant. *)
Definition development_url (tenant : string) : string :=
  "http://" +:+ tenant +:+ ".accesswash.org:8000/api".

Definition production_url (tenant : string) : string :=
  "https://" +:+ tenant +:+ ".accesswash.org/api".

(** The requests sent in a piece of trace. *)
Definition requests (events : list event) : list request :=
  flat_map (fun e => match e with HttpRequest r => [r] | _ => [] end) events.

(** An event that is no request. *)
Definition offline (e : event) : Prop :=
  match e with
  | HttpRequest _ => False
  | _ => True
  end.

(** A cookie write carries the session attributes of the environment [env];
    any other event passes. *)
Definition stamped (env : string) (e : event) : Prop :=
  match e with
  | CookieWrite _ c => cookie_attrs c = Client.session_attributes env
  | _ => True
  end.

(** A computation that, started where [NODE_ENV] is [env], keeps it and
    stamps every cookie it writes. *)
Definition stamping {A} (env : string) (m : M world A) : Prop :=
  forall w,
    NODE_ENV w = env ->
    NODE_ENV (snd (m w)) = env /\
    exists new, extends w (snd (m w)) new /\ Forall (stamped env) new.

(** The calls that may write the session cookies. *)
Definition persists (c : call) : bool :=
  match c with
  | Login _ | Register _ | UpdateProfile _ => true
  | _ => false
  end.

(** The jar after the block of [login] and [register] that persists the
    session has run on the body of a response: both cookies are written when
    the body has a truthy [success] and truthy [tokens] and the access token
    has a string, and none is otherwise. *)
Definition persisted `{!JsonCodec} (this : ApiClient) (body : jsval) (env : string)
    (jar : gmap string cookie) : gmap string cookie :=
  if truthy (get_prop_opt body "success") && truthy (get_prop_opt body "tokens")
  then match ToString (get_prop_opt (get_prop_opt body "tokens") "access_token") with
       | Some token =>
           <[Client.customer_key (tenant this) :=
               {| cookie_value := stored_text (JSON_stringify (get_prop_opt body "customer"));
                  cookie_attrs := Client.session_attributes env |}]>
             (<[Client.token_key (tenant this) :=
                  {| cookie_value := token;
                     cookie_attrs := Client.session_attributes env |}]> jar)
       | None => jar
       end
  else jar.

(** A host of local development, as the edge filter tests it. *)
Definition local_host (hostname : string) : bool :=
  includes hostname "localhost" || includes hostname "127.0.0.1".

(** [s] has no character [c]. *)
Fixpoint lacks (c : ascii) (s : string) : bool :=
  match s with
  | EmptyString => true
  | String c' rest => negb (Ascii.eqb c' c) && lacks c rest
  end.

(** * Properties *)

(** ** Cookie names *)

Lemma token_key_inj t1 t2 : Client.token_key t1 = Client.token_key t2 -> t1 = t2.
Proof. unfold Client.token_key. simpl. intros H. by simplify_eq. Qed.

Lemma customer_key_inj t1 t2 : Client.customer_key t1 = Client.customer_key t2 -> t1 = t2.
Proof. unfold Client.customer_key. simpl. intros H. by simplify_eq. Qed.

Lemma token_customer_key_ne t1 t2 : Client.token_key t1 <> Client.customer_key t2.
Proof. unfold Client.token_key, Client.customer_key. simpl. intros H. discriminate H. Qed.

Lemma own_token t : own t (Client.token_key t).
Proof. by left. Qed.

Lemma own_customer t : own t (Client.customer_key t).
Proof. by right. Qed.

Lemma own_disjoint t1 t2 k : t1 <> t2 -> own t1 k -> ~ own t2 k.
Proof.
  intros Hne [-> | ->] [H | H].
  - by apply token_key_inj in H.
  - by apply token_customer_key_ne in H.
  - symmetry in H. by apply token_customer_key_ne in H.
  - by apply customer_key_inj in H.
Qed.

(** ** Confinement is a preorder that every combinator preserves *)

Section Confined.
Variable t : string.
Variable P : event -> Prop.

Lemma confined_refl w : confined t P w w.
Proof. split; [done |]. exists []. split; [done | constructor]. Qed.

Lemma confined_trans w1 w2 w3 :
  confined t P w1 w2 -> confined t P w2 w3 -> confined t P w1 w3.
Proof.
  intros [F1 (n1 & E1 & T1)] [F2 (n2 & E2 & T2)]. split.
  - intros k Hk. by rewrite F2, F1.
  - exists (n2 ++ n1)%list. split.
    + unfold extends in *. by rewrite E2, E1, app_assoc.
    + by apply Forall_app.
Qed.

Lemma confined_event e w :
  P e -> cookies (emit e w) = cookies w -> confined t P w (emit e w).
Proof.
  intros He Hc. split; [by rewrite Hc |].
  exists [e]. split; [done |]. by repeat constructor.
Qed.

Lemma respects_ret {A} (a : A) : respects t P (ret a).
Proof. intros w. apply confined_refl. Qed.

Lemma respects_throw {A} e : respects t P (@throw world A e).
Proof. intros w. apply confined_refl. Qed.

Lemma respects_window_defined : respects t P window_defined.
Proof. intros w. apply confined_refl. Qed.

Lemma respects_NODE_ENV : respects t P process_env_NODE_ENV.
Proof. intros w. apply confined_refl. Qed.

Lemma respects_member v k : respects t P (@member world v k).
Proof. intros w. unfold member. destruct (get_prop v k); apply confined_refl. Qed.

Lemma respects_new_Error v : respects t P (@new_Error world v).
Proof.
  intros w. unfold new_Error, to_string, bind.
  destruct v; try apply confined_refl; destruct (ToString _); apply confined_refl.
Qed.

Lemma respects_bind {A B} (m : M world A) (k : A -> M world B) :
  respects t P m -> (forall a, respects t P (k a)) -> respects t P (bind m k).
Proof.
  intros Hm Hk w. unfold bind. specialize (Hm w).
  destruct (m w) as [[a | e] w']; simpl in *; [| done].
  eapply confined_trans; [exact Hm | apply Hk].
Qed.

Lemma respects_try_catch {A} (m : M world A) (h : js_error -> M world A) :
  respects t P m -> (forall e, respects t P (h e)) -> respects t P (try_catch m h).
Proof.
  intros Hm Hh w. unfold try_catch. specialize (Hm w).
  destruct (m w) as [[a | e] w']; simpl in *; [done |].
  eapply confined_trans; [exact Hm | apply Hh].
Qed.

Lemma respects_try_finally {A} (m : M world A) (f : M world unit) :
  respects t P m -> respects t P f -> respects t P (try_finally m f).
Proof.
  intros Hm Hf w. unfold try_finally. specialize (Hm w).
  destruct (m w) as [c w']. specialize (Hf w').
  destruct (f w') as [[[] | e] w'']; simpl in *; by eapply confined_trans.
Qed.

Lemma respects_Cookies_get k : P (CookieRead k) -> respects t P (Cookies_get k).
Proof.
  intros HP w. unfold Cookies_get. destruct (window w) as [win |] eqn:Hw; simpl.
  - by apply confined_event.
  - apply confined_refl.
Qed.

Lemma respects_Cookies_set k v a :
  own t k -> (forall c, P (CookieWrite k c)) -> respects t P (Cookies_set k v a).
Proof.
  intros Hk HP w. unfold Cookies_set. destruct (window w) as [win |] eqn:Hw; simpl.
  - destruct (ToString v) as [text |]; simpl; [| apply confined_refl]. split.
    + intros k' Hk'. unfold cookies. simpl. rewrite Hw. simpl.
      apply lookup_insert_ne. by intros <-.
    + eexists [_]. split; [done |]. by repeat constructor.
  - apply confined_refl.
Qed.

Lemma respects_Cookies_remove k :
  own t k -> P (CookieRemove k) -> respects t P (Cookies_remove k).
Proof.
  intros Hk HP w. unfold Cookies_remove. destruct (window w) as [win |] eqn:Hw; simpl.
  - split.
    + intros k' Hk'. unfold cookies. simpl. rewrite Hw. simpl.
      apply lookup_delete_ne. by intros <-.
    + exists [CookieRemove k]. split; [done |]. by repeat constructor.
  - apply confined_refl.
Qed.

Lemma respects_navigate url : P (Navigate url) -> respects t P (navigate url).
Proof. intros HP w. by apply confined_event. Qed.

Lemma respects_dispatch this config :
  P (HttpRequest config) -> respects t P (Client.dispatch this config).
Proof.
  intros HP w. split; [done |]. exists [HttpRequest config]. split; [done |].
  by repeat constructor.
Qed.

End Confined.

Create HintDb confine discriminated.
#[local] Hint Resolve own_token own_customer : confine.
#[local] Hint Resolve respects_ret respects_throw respects_member respects_new_Error
  respects_window_defined respects_NODE_ENV : confine.
#[local] Hint Extern 1 (touches_own _ _) => (unfold touches_own; simpl; auto with confine) : confine.
#[local] Hint Extern 1 (quiet _) => exact I : confine.

(** Walks down a monadic program, one combinator at a time. *)
Ltac confine :=
  repeat first
    [ progress auto with confine
    | match goal with
      | |- respects _ _ (bind _ _) => apply respects_bind; [| intros ?]
      | |- respects _ _ (try_catch _ _) => apply respects_try_catch; [| intros ?]
      | |- respects _ _ (try_finally _ _) => apply respects_try_finally
      | |- respects _ _ (Cookies_get _) => apply respects_Cookies_get
      | |- respects _ _ (Cookies_set _ _ _) => apply respects_Cookies_set; [| intros ?]
      | |- respects _ _ (Cookies_remove _) => apply respects_Cookies_remove
      | |- respects _ _ (navigate _) => apply respects_navigate
      | |- respects _ _ (Client.dispatch _ _) => apply respects_dispatch
      | |- respects _ _ (if ?b then _ else _) => destruct b
      | |- respects _ _ (match ?x with _ => _ end) => destruct x
      end ].

(** Every method of a client stays inside the cookies of its tenant. *)
Section Confinement.
Context `{!JsonCodec}.
Variable this : ApiClient.

Abbreviation inside := (respects (tenant this) (touches_own (tenant this))).

Lemma inside_getAuthToken : inside (Client.getAuthToken this).
Proof. unfold Client.getAuthToken. confine. Qed.

Lemma inside_setAuthToken token : inside (Client.setAuthToken this token).
Proof. unfold Client.setAuthToken. confine. Qed.

Lemma inside_clearAuthData : inside (Client.clearAuthData this).
Proof. unfold Client.clearAuthData. confine. Qed.

Hint Resolve inside_getAuthToken inside_setAuthToken inside_clearAuthData : confine.

Lemma inside_client_request method path data :
  inside (Client.client_request this method path data).
Proof.
  unfold Client.client_request, Client.request_interceptor, Client.response_interceptor.
  confine.
Qed.

Hint Resolve inside_client_request : confine.

Lemma inside_persist_session data : inside (Client.persist_session this data).
Proof. unfold Client.persist_session. confine. Qed.

Lemma inside_getCurrentCustomer : inside (Client.getCurrentCustomer this).
Proof. unfold Client.getCurrentCustomer. confine. Qed.

Hint Resolve inside_persist_session inside_getCurrentCustomer : confine.

Lemma inside_invoke c : inside (invoke this c).
Proof.
  destruct c; simpl;
    unfold Client.login, Client.register, Client.forgotPassword, Client.getDashboard,
      Client.getProfile, Client.updateProfile, Client.getServiceRequests,
      Client.getServiceRequest, Client.createServiceRequest, Client.addComment,
      Client.client_get, Client.client_post, Client.client_put, Client.normalized;
    confine.
Qed.

Lemma inside_logout : inside (Client.logout this).
Proof. unfold Client.logout, Client.client_post. confine. Qed.

Lemma inside_isAuthenticated : inside (Client.isAuthenticated this).
Proof. unfold Client.isAuthenticated. confine. Qed.

Lemma effect_confined m w :
  confined (tenant this) (touches_own (tenant this)) w (effect this m w).
Proof.
  destruct m; simpl.
  - apply inside_invoke.
  - apply inside_logout.
  - apply inside_getAuthToken.
  - apply inside_setAuthToken.
  - apply inside_clearAuthData.
  - apply inside_getCurrentCustomer.
  - apply inside_isAuthenticated.
Qed.

End Confinement.

(** ** What a client returns does not depend on other tenants' cookies *)

Section Alike.
Variable t : string.

Lemma alike_refl w : alike t w w.
Proof. by repeat split. Qed.

Lemma alike_has_window w1 w2 : alike t w1 w2 -> has_window w1 = has_window w2.
Proof.
  intros (Hh & _). unfold has_window.
  by destruct (window w1), (window w2).
Qed.

Lemma alike_emit e w1 w2 : alike t w1 w2 -> alike t (emit e w1) (emit e w2).
Proof.
  intros (Hh & He & Hn & Ht & Hc). repeat split; simpl; try done. by rewrite Ht.
Qed.

Lemma indifferent_ret {A} (a : A) : indifferent t (ret a).
Proof. by intros w1 w2 H. Qed.

Lemma indifferent_throw {A} e : indifferent t (@throw world A e).
Proof. by intros w1 w2 H. Qed.

Lemma indifferent_member v k : indifferent t (@member world v k).
Proof. intros w1 w2 H. unfold member. by destruct (get_prop v k). Qed.

Lemma indifferent_new_Error v : indifferent t (@new_Error world v).
Proof.
  intros w1 w2 H. unfold new_Error, to_string, bind.
  destruct v; try done; by destruct (ToString _).
Qed.

Lemma indifferent_window_defined : indifferent t window_defined.
Proof.
  intros w1 w2 H. split; [| done]. simpl. f_equal. by apply alike_has_window.
Qed.

Lemma indifferent_NODE_ENV : indifferent t process_env_NODE_ENV.
Proof. intros w1 w2 H. split; [| done]. simpl. f_equal. apply H. Qed.

Lemma indifferent_bind {A B} (m : M world A) (k : A -> M world B) :
  indifferent t m -> (forall a, indifferent t (k a)) -> indifferent t (bind m k).
Proof.
  intros Hm Hk w1 w2 H. unfold bind. destruct (Hm w1 w2 H) as [Hr Hw].
  destruct (m w1) as [[a1 | e1] w1'], (m w2) as [[a2 | e2] w2']; simpl in *;
    simplify_eq; [by apply Hk | done].
Qed.

Lemma indifferent_try_catch {A} (m : M world A) (h : js_error -> M world A) :
  indifferent t m -> (forall e, indifferent t (h e)) -> indifferent t (try_catch m h).
Proof.
  intros Hm Hh w1 w2 H. unfold try_catch. destruct (Hm w1 w2 H) as [Hr Hw].
  destruct (m w1) as [[a1 | e1] w1'], (m w2) as [[a2 | e2] w2']; simpl in *;
    simplify_eq; [done | by apply Hh].
Qed.

Lemma indifferent_try_finally {A} (m : M world A) (f : M world unit) :
  indifferent t m -> indifferent t f -> indifferent t (try_finally m f).
Proof.
  intros Hm Hf w1 w2 H. unfold try_finally. destruct (Hm w1 w2 H) as [Hr Hw].
  destruct (m w1) as [c1 w1'], (m w2) as [c2 w2']; simpl in *. subst c2.
  destruct (Hf w1' w2' Hw) as [Hr' Hw'].
  destruct (f w1') as [[[] | e1] w1''], (f w2') as [[[] | e2] w2'']; simpl in *;
    by simplify_eq.
Qed.

Lemma indifferent_Cookies_get k : own t k -> indifferent t (Cookies_get k).
Proof.
  intros Hk w1 w2 H. pose proof H as (Hh & He & Hn & Ht & Hc).
  specialize (Hc k Hk). unfold Cookies_get, cookies in *.
  destruct (window w1) as [win1 |] eqn:E1, (window w2) as [win2 |] eqn:E2;
    simpl in *; try done.
  split; [by rewrite Hc | by apply alike_emit].
Qed.

Lemma alike_set_cookies f w1 w2 :
  alike t w1 w2 ->
  (forall jar1 jar2 k,
      own t k -> jar1 !! k = jar2 !! k -> f jar1 !! k = f jar2 !! k) ->
  alike t (set_cookies (f (cookies w1)) w1) (set_cookies (f (cookies w2)) w2).
Proof.
  intros (Hh & He & Hn & Ht & Hc) Hf. unfold set_cookies, cookies in *.
  destruct (window w1) as [win1 |] eqn:E1, (window w2) as [win2 |] eqn:E2;
    simpl in *; try done.
  repeat split; simpl; try done.
  intros k Hk. by apply Hf, Hc.
Qed.

Lemma indifferent_Cookies_set k v a : indifferent t (Cookies_set k v a).
Proof.
  intros w1 w2 H. pose proof (alike_has_window _ _ H) as Hw.
  unfold Cookies_set. destruct (ToString v) as [text |].
  - pose proof (alike_set_cookies
                  (fun jar => <[k := {| cookie_value := text; cookie_attrs := a |}]> jar)
                  w1 w2 H) as Hset.
    unfold has_window, cookies in *.
    destruct (window w1) as [win1 |] eqn:E1, (window w2) as [win2 |] eqn:E2;
      simpl in *; try done.
    split; [done |]. apply alike_emit, Hset.
    intros jar1 jar2 k' _ Hk'. rewrite !lookup_insert. by case_decide.
  - unfold has_window in Hw.
    by destruct (window w1) as [win1 |] eqn:E1, (window w2) as [win2 |] eqn:E2.
Qed.

Lemma indifferent_Cookies_remove k : indifferent t (Cookies_remove k).
Proof.
  intros w1 w2 H. pose proof (alike_has_window _ _ H) as Hw.
  pose proof (alike_set_cookies (fun jar => delete k jar) w1 w2 H) as Hset.
  unfold Cookies_remove, has_window, cookies in *.
  destruct (window w1) as [win1 |] eqn:E1, (window w2) as [win2 |] eqn:E2;
    simpl in *; try done.
  split; [done |]. apply alike_emit, Hset.
  intros jar1 jar2 k' _ Hk'. rewrite !lookup_delete. by case_decide.
Qed.

Lemma indifferent_navigate url : indifferent t (navigate url).
Proof. intros w1 w2 H. split; [done |]. by apply alike_emit. Qed.

Lemma indifferent_dispatch this config : indifferent t (Client.dispatch this config).
Proof.
  intros w1 w2 H. pose proof H as (Hh & He & Hn & Ht & Hc).
  unfold Client.dispatch. simpl. rewrite Hn. split; [done |].
  repeat split; simpl; try done. by rewrite Ht.
Qed.

End Alike.

#[local] Hint Resolve indifferent_ret indifferent_throw indifferent_member
  indifferent_new_Error indifferent_window_defined indifferent_NODE_ENV indifferent_Cookies_set
  indifferent_Cookies_remove indifferent_navigate indifferent_dispatch : confine.

Ltac indifference :=
  repeat first
    [ progress auto with confine
    | match goal with
      | |- indifferent _ (bind _ _) => apply indifferent_bind; [| intros ?]
      | |- indifferent _ (try_catch _ _) => apply indifferent_try_catch; [| intros ?]
      | |- indifferent _ (try_finally _ _) => apply indifferent_try_finally
      | |- indifferent _ (Cookies_get _) => apply indifferent_Cookies_get
      | |- indifferent _ (if ?b then _ else _) => destruct b
      | |- indifferent _ (match ?x with _ => _ end) => destruct x
      end ].

Section Indifference.
Context `{!JsonCodec}.
Variable this : ApiClient.

Abbreviation blind := (indifferent (tenant this)).

Lemma blind_getAuthToken : blind (Client.getAuthToken this).
Proof. unfold Client.getAuthToken. indifference. Qed.

Lemma blind_setAuthToken token : blind (Client.setAuthToken this token).
Proof. unfold Client.setAuthToken. indifference. Qed.

Lemma blind_clearAuthData : blind (Client.clearAuthData this).
Proof. unfold Client.clearAuthData. indifference. Qed.

Hint Resolve blind_getAuthToken blind_setAuthToken blind_clearAuthData : confine.

Lemma blind_client_request method path data :
  blind (Client.client_request this method path data).
Proof.
  unfold Client.client_request, Client.request_interceptor, Client.response_interceptor.
  indifference.
Qed.

Hint Resolve blind_client_request : confine.

Lemma blind_persist_session data : blind (Client.persist_session this data).
Proof. unfold Client.persist_session. indifference. Qed.

Lemma blind_getCurrentCustomer : blind (Client.getCurrentCustomer this).
Proof. unfold Client.getCurrentCustomer. indifference. Qed.

Hint Resolve blind_persist_session blind_getCurrentCustomer : confine.

Lemma blind_invoke c : blind (invoke this c).
Proof.
  destruct c; simpl;
    unfold Client.login, Client.register, Client.forgotPassword, Client.getDashboard,
      Client.getProfile, Client.updateProfile, Client.getServiceRequests,
      Client.getServiceRequest, Client.createServiceRequest, Client.addComment,
      Client.client_get, Client.client_post, Client.client_put, Client.normalized;
    indifference.
Qed.

Lemma blind_logout : blind (Client.logout this).
Proof. unfold Client.logout, Client.client_post. indifference. Qed.

Lemma blind_isAuthenticated : blind (Client.isAuthenticated this).
Proof. unfold Client.isAuthenticated. indifference. Qed.

Lemma result_alike m w1 w2 :
  alike (tenant this) w1 w2 ->
  result this m w1 = result this m w2 /\
  alike (tenant this) (effect this m w1) (effect this m w2).
Proof.
  intros Ha. destruct m; simpl.
  - by apply blind_invoke.
  - destruct (blind_logout w1 w2 Ha) as [-> Hw]. done.
  - destruct (blind_getAuthToken w1 w2 Ha) as [-> Hw]. done.
  - destruct (blind_setAuthToken token w1 w2 Ha) as [-> Hw]. done.
  - destruct (blind_clearAuthData w1 w2 Ha) as [-> Hw]. done.
  - by apply blind_getCurrentCustomer.
  - destruct (blind_isAuthenticated w1 w2 Ha) as [-> Hw]. done.
Qed.

(** Replacing the cookies that are not the tenant's own gives a world that
    is alike. *)
Lemma alike_other_cookies jar' w :
  (forall k, own (tenant this) k -> jar' !! k = cookies w !! k) ->
  alike (tenant this) (set_cookies jar' w) w.
Proof.
  intros Hjar. unfold alike, set_cookies, cookies in *.
  destruct (window w) as [win |]; simpl; repeat split; try done.
Qed.

End Indifference.

(** C1.  Storage key isolation.  The cookie names of a tenant determine the
    tenant ([accesswash_token_T] and [accesswash_customer_T] are equal only
    for equal tenants, and a token name is never a customer name), and for
    distinct tenants [T1] and [T2] no method of a client constructed for [T2]
    reads, writes or removes a cookie of [T1]: both cookies of [T1] are after
    the call what they were before it, no cookie event the call adds to the
    trace names one of them, and the call returns the same whatever the
    cookies of [T1] hold. *)
Theorem tenant_cookie_isolation `{!JsonCodec} :
  (forall a b, Client.token_key a = Client.token_key b <-> a = b) /\
  (forall a b, Client.customer_key a = Client.customer_key b <-> a = b) /\
  (forall a b, Client.token_key a <> Client.customer_key b) /\
  (forall T1 T2 this m w,
      T1 <> T2 -> tenant this = T2 ->
      cookies (effect this m w) !! Client.token_key T1 = cookies w !! Client.token_key T1 /\
      cookies (effect this m w) !! Client.customer_key T1 = cookies w !! Client.customer_key T1 /\
      exists new,
        extends w (effect this m w) new /\
        Forall (fun e => touched e <> Some (Client.token_key T1) /\
                         touched e <> Some (Client.customer_key T1)) new) /\
  (forall T1 T2 this m w jar',
      T1 <> T2 -> tenant this = T2 ->
      (forall k, ~ own T1 k -> jar' !! k = cookies w !! k) ->
      result this m (set_cookies jar' w) = result this m w).
Proof.
  split; [| split; [| split; [| split]]].
  - intros a b. split; [apply token_key_inj | by intros ->].
  - intros a b. split; [apply customer_key_inj | by intros ->].
  - apply token_customer_key_ne.
  - intros T1 T2 this m w Hne <-.
    destruct (effect_confined this m w) as [Hframe (new & Hext & Hnew)].
    assert (Hother : forall k, own T1 k -> ~ own (tenant this) k)
      by (intros k; by apply own_disjoint).
    split; [| split].
    + apply Hframe, Hother, own_token.
    + apply Hframe, Hother, own_customer.
    + exists new. split; [done |].
      eapply Forall_impl; [exact Hnew |].
      intros e He. unfold touches_own in He.
      split; intros Hk; rewrite Hk in He.
      * by apply (Hother _ (own_token T1)).
      * by apply (Hother _ (own_customer T1)).
  - intros T1 T2 this m w jar' Hne <- Hjar.
    apply result_alike, alike_other_cookies.
    intros k Hk. apply Hjar. by apply (own_disjoint (tenant this) T1).
Qed.

(** C1 at a logout of [demo] next to a signed-in [acme]. *)
Lemma tenant_cookie_isolation_witness :
  let w := Sample.browser Sample.two_sessions [Reply 40 401 JNull] in
  let w' := effect (H := ModelJSON.codec) Sample.demo_client Logout w in
  cookies w' !! Client.token_key "acme" = cookies w !! Client.token_key "acme" /\
  cookies w' !! Client.customer_key "acme" = cookies w !! Client.customer_key "acme" /\
  exists new,
    extends w w' new /\
    Forall (fun e => touched e <> Some (Client.token_key "acme") /\
                     touched e <> Some (Client.customer_key "acme")) new.
Proof.
  intros w w'.
  apply (proj1 (proj2 (proj2 (proj2 (tenant_cookie_isolation (H := ModelJSON.codec)))))
           "acme" "demo" Sample.demo_client Logout w).
  - discriminate.
  - reflexivity.
Defined.

(** ** Closed forms of the request pipeline *)

(** What [JSON.stringify] returned always has a string. *)
Lemma ToString_js_of_text text : ToString (Client.js_of_text text) = Some (stored_text text).
Proof. by destruct text. Qed.

Lemma unauthorized_settle this o :
  match Client.settle this o with
  | Normal _ => unauthorized this o = false
  | Throw e => Client.is_unauthorized e = unauthorized this o
  end.
Proof.
  destruct o as [[elapsed status body |] |]; simpl; try done.
  destruct (timeout this <? elapsed); simpl; [done |].
  unfold Client.validateStatus.
  destruct (200 <=? status) eqn:Hlo, (status <? 300) eqn:Hhi; simpl; try done.
  destruct (status =? 401) eqn:H401; [lia | done].
Qed.

(** A request always settles as the transport does; on the way the client
    reads its token, sends, and on a 401 (in a browser) clears its session
    and navigates to the login page. *)
Lemma client_request_eq this method path data w :
  Client.client_request this method path data w =
    (Client.settle this (head (network w)),
     answered this (unauthorized this (head (network w))) (outgoing this method path data w) w).
Proof.
  pose proof (unauthorized_settle this (head (network w))) as Hu.
  destruct w as [[[h jar] |] env net tr];
    unfold Client.client_request, Client.request_interceptor, Client.getAuthToken,
      Client.dispatch, Client.response_interceptor, Client.clearAuthData,
      answered, outgoing, cookies, bind, try_catch, window_defined, Cookies_get; simpl in *.
  - destruct (Client.truthy_text (cookie_value <$> jar !! Client.token_key (tenant this)));
      simpl;
      destruct (Client.settle this (head net)) as [r | e]; simpl; rewrite Hu; try done;
      destruct (unauthorized this (head net)); done.
  - destruct (Client.settle this (head net)) as [r | e]; simpl; [done |].
    destruct (Client.is_unauthorized e); done.
Qed.

(** Building an error from [message || fallback]: the message is never
    [undefined]. *)
Lemma new_Error_or {S} message fallback (s : S) :
  new_Error (js_or message (JStr fallback)) s =
    (match ToString (js_or message (JStr fallback)) with
     | Some text => Normal (Error text)
     | None => Throw (TypeError cannot_convert)
     end, s).
Proof.
  unfold js_or. destruct (truthy message) eqn:Ht; [| done].
  destruct message; try done; unfold new_Error; cbv iota;
    unfold to_string, bind, ret, throw; by destruct (ToString _).
Qed.

(** What the [catch] of an operation does with the error it caught. *)
Lemma normalized_eq {A} e fallback w :
  @Client.normalized A e fallback w = (Throw (caught e fallback), w).
Proof.
  unfold Client.normalized, caught, rejection, bind. rewrite new_Error_or.
  by destruct (ToString _).
Qed.

(** The shape every operation has: a request, a continuation, and a [catch]
    that normalizes. *)
Lemma guarded_eq {A} this method path data (k : http_response -> M world A) fallback w :
  try_catch (bind (Client.client_request this method path data) k)
            (fun e => Client.normalized e fallback) w =
    let w1 := answered this (unauthorized this (head (network w)))
                       (outgoing this method path data w) w in
    match Client.settle this (head (network w)) with
    | Normal r =>
        match k r w1 with
        | (Normal a, w2) => (Normal a, w2)
        | (Throw e, w2) => (Throw (caught e fallback), w2)
        end
    | Throw e => (Throw (caught e fallback), w1)
    end.
Proof.
  unfold try_catch, bind. rewrite client_request_eq. simpl.
  destruct (Client.settle this (head (network w))); [| apply normalized_eq].
  destruct (k _ _) as [[x | e] w2]; [done | apply normalized_eq].
Qed.

Section Calls.
Context `{!JsonCodec}.

Lemma invoke_eq this c w :
  invoke this c w =
    let w1 := answered this (unauthorized this (head (network w))) (sent this c w) w in
    match Client.settle this (head (network w)) with
    | Normal r =>
        match continuation this c r w1 with
        | (Normal a, w2) => (Normal a, w2)
        | (Throw e, w2) => (Throw (caught e (fallback c)), w2)
        end
    | Throw e => (Throw (caught e (fallback c)), w1)
    end.
Proof.
  destruct c;
    unfold invoke, Client.login, Client.register, Client.forgotPassword, Client.getDashboard,
      Client.getProfile, Client.updateProfile, Client.getServiceRequests,
      Client.getServiceRequest, Client.createServiceRequest, Client.addComment,
      Client.client_get, Client.client_post, Client.client_put, sent;
    rewrite guarded_eq; reflexivity.
Qed.

End Calls.

(** ** Outside a browser *)

Ltac unfold_client :=
  unfold continuation, Client.isAuthenticated, Client.persist_session,
    Client.response_interceptor, Client.setAuthToken, Client.getAuthToken,
    Client.clearAuthData, Client.getCurrentCustomer, Cookies_get, Cookies_set,
    Cookies_remove, navigate, member, bind, ret, throw, try_catch, try_finally,
    window_defined, process_env_NODE_ENV in *.

(** Splits on the tests a computation is stuck on. *)
Ltac split_cases :=
  simpl in *; try done; repeat (case_match; simpl in *; simplify_eq; try done).

Section Server.
Context `{!JsonCodec}.

Lemma continuation_server this c r w :
  window w = None -> snd (continuation this c r w) = w.
Proof.
  intros Hw. destruct w as [win env net tr]. simpl in Hw. subst win.
  destruct c; unfold_client; simpl; split_cases.
Qed.

Lemma clearAuthData_returns this w : fst (Client.clearAuthData this w) = Normal tt.
Proof. destruct w as [[win |] env net tr]; by unfold_client. Qed.

Lemma clearAuthData_signs_out this w :
  signed_out (tenant this) (snd (Client.clearAuthData this w)).
Proof.
  destruct w as [[[h jar] |] env net tr]; unfold_client; unfold signed_out, cookies; simpl.
  - split.
    + rewrite lookup_delete_ne by (intros E; symmetry in E; by apply token_customer_key_ne in E).
      apply lookup_delete_eq.
    + apply lookup_delete_eq.
  - done.
Qed.

Lemma logout_eq this w :
  Client.logout this w =
    let w1 := answered this (unauthorized this (head (network w)))
                       (outgoing this "post" "/portal/auth/logout/" JUndefined w) w in
    (Normal tt, snd (Client.clearAuthData this w1)).
Proof.
  unfold Client.logout, Client.client_post, try_finally, try_catch, bind.
  rewrite client_request_eq. simpl.
  set (w1 := answered _ _ _ _).
  pose proof (clearAuthData_returns this w1) as Hc.
  destruct (Client.settle this (head (network w))); simpl;
    destruct (Client.clearAuthData this w1) as [[[] | err] w2]; simpl in *; by simplify_eq.
Qed.

End Server.

(** Without a window a method only sends its request, if it makes one. *)
Lemma server_methods `{!JsonCodec} (this : ApiClient) (w : world) (m : method) :
  window w = None ->
  window (effect this m w) = None /\
  exists new, extends w (effect this m w) new /\
              Forall (fun e => exists r, e = HttpRequest r) new.
Proof.
  intros Hw. destruct w as [win env net tr]. simpl in Hw. subst win.
  destruct m; simpl; try (split; [| exists []; split; [| constructor]];
                          unfold_client; simpl; by split_cases).
  - rewrite invoke_eq. simpl.
    assert (Hk : forall r w1, window w1 = None ->
                 snd (match continuation this c r w1 with
                      | (Normal a, w2) => (Normal a, w2)
                      | (Throw e, w2) => (Throw (caught e (fallback c)), w2)
                      end) = w1).
    { intros r w1 Hw1. pose proof (continuation_server this c r w1 Hw1) as Hk.
      destruct (continuation this c r w1) as [[a | e] w2]; simpl in *; by subst. }
    destruct (Client.settle this (head net)) as [r | e]; simpl; rewrite ?Hk by done;
      (split; [done |]); eexists [_]; (split; [done |]); by repeat econstructor.
  - rewrite logout_eq. split; [done |].
    eexists [_]. split; [done |]. by repeat econstructor.
Qed.

(** C10.  Outside a browser (no [window]), for every tenant: [getAuthToken]
    and [getCurrentCustomer] return null, [isAuthenticated] returns false,
    [setAuthToken] and [clearAuthData] write nothing, and the 401 interceptor
    neither clears nor navigates, all of them leaving the world as it is.
    More generally every method of the client adds nothing to the trace but
    the request it sends: no cookie is read, written or removed and no
    navigation happens. *)
Theorem server_side_noops `{!JsonCodec} (this : ApiClient) (w : world) :
  window w = None ->
  Client.getAuthToken this w = (Normal None, w) /\
  Client.getCurrentCustomer this w = (Normal JNull, w) /\
  Client.isAuthenticated this w = (Normal false, w) /\
  (forall token, Client.setAuthToken this token w = (Normal tt, w)) /\
  Client.clearAuthData this w = (Normal tt, w) /\
  (forall error, @Client.response_interceptor unit this error w = (Throw error, w)) /\
  (forall m, window (effect this m w) = None /\
             exists new, extends w (effect this m w) new /\
                         Forall (fun e => exists r, e = HttpRequest r) new).
Proof.
  intros Hw.
  assert (Hguard : has_window w = false) by (unfold has_window; by rewrite Hw).
  split; [| split; [| split; [| split; [| split; [| split]]]]].
  - unfold Client.getAuthToken, bind, window_defined, ret. by rewrite Hguard.
  - unfold Client.getCurrentCustomer, bind, window_defined, ret. by rewrite Hguard.
  - unfold Client.isAuthenticated, Client.getAuthToken, bind, window_defined, ret.
    by rewrite Hguard.
  - intros token. unfold Client.setAuthToken, bind, window_defined, ret. by rewrite Hguard.
  - unfold Client.clearAuthData, bind, window_defined, ret. by rewrite Hguard.
  - intros error.
    unfold Client.response_interceptor, Client.clearAuthData, bind, window_defined, ret, throw.
    destruct (Client.is_unauthorized error); simpl; [| done].
    rewrite Hguard. simpl. by rewrite Hguard.
  - intros m. by apply server_methods.
Qed.

(** The theorem at a server-side render that receives a 401. *)
Lemma server_side_noops_witness :
  Client.isAuthenticated (H := ModelJSON.codec) Sample.demo_client
    (Sample.server [Reply 40 401 JNull])
  = (Normal false, Sample.server [Reply 40 401 JNull]).
Proof.
  exact (proj1 (proj2 (proj2
           (server_side_noops (H := ModelJSON.codec) Sample.demo_client
              (Sample.server [Reply 40 401 JNull]) eq_refl)))).
Defined.

(** ** Logout *)

Lemma store_logout_eq tenant s w :
  Store.logout tenant (s, w) =
    (Normal tt, (unauthenticated None, snd (Client.logout (Client.new_client tenant w) w))).
Proof.
  unfold Store.logout, Store.set, Store.await, Client.createApiClient,
    try_finally, try_catch, bind, get_world, ret.
  simpl. rewrite logout_eq. done.
Qed.

Lemma logout_signs_out this w : signed_out (tenant this) (snd (Client.logout this w)).
Proof. rewrite logout_eq. apply clearAuthData_signs_out. Qed.

(** C7.  Logout is idempotent.  For every tenant, every store state and every
    world (browser or not, whatever the network does with the two logout
    requests), two calls of the store's [logout] in succession both return
    without raising, and after each of them the store is in
    [unauthenticated(none)] (customer null, not authenticated, not loading,
    no error) and neither cookie of the tenant exists. *)
Theorem logout_twice (tenant : string) (s : AuthState) (w : world) :
  let '(r1, (s1, w1)) := Store.logout tenant (s, w) in
  let '(r2, (s2, w2)) := Store.logout tenant (s1, w1) in
  (r1 = Normal tt /\ s1 = unauthenticated None /\ signed_out tenant w1) /\
  (r2 = Normal tt /\ s2 = unauthenticated None /\ signed_out tenant w2).
Proof.
  rewrite store_logout_eq. rewrite store_logout_eq.
  split; (split; [reflexivity | split; [reflexivity |]]);
    apply (logout_signs_out (Client.new_client tenant _)).
Qed.

(** ** Reading the session *)

Section Session.
Context `{!JsonCodec}.

(** What [getCurrentCustomer] returns, from the customer cookie. *)
Lemma getCurrentCustomer_value this w :
  fst (Client.getCurrentCustomer this w) =
    Normal match cookies w !! Client.customer_key (tenant this) with
           | Some c =>
               if String.eqb (cookie_value c) "" then JNull
               else default JNull (JSON_parse (cookie_value c))
           | None => JNull
           end.
Proof.
  destruct w as [[[h jar] |] env net tr]; unfold_client; unfold cookies; simpl; [| done].
  destruct (jar !! Client.customer_key (tenant this)) as [c |]; simpl; [| done].
  destruct (String.eqb (cookie_value c) ""); simpl; [done |].
  by destruct (JSON_parse (cookie_value c)).
Qed.

Lemma isAuthenticated_value this w :
  fst (Client.isAuthenticated this w) =
    Normal (Client.truthy_text (cookie_value <$> cookies w !! Client.token_key (tenant this))
            && match fst (Client.getCurrentCustomer this w) with
               | Normal c => truthy c
               | Throw _ => false
               end).
Proof.
  rewrite getCurrentCustomer_value.
  destruct w as [[[h jar] |] env net tr]; unfold_client; unfold cookies; simpl; [| done].
  destruct (jar !! Client.token_key (tenant this)) as [tok |]; simpl; [| done].
  destruct (String.eqb (cookie_value tok) ""); simpl; [done |].
  destruct (jar !! Client.customer_key (tenant this)) as [c |]; simpl; [| done].
  destruct (String.eqb (cookie_value c) ""); simpl; [done |].
  by destruct (JSON_parse (cookie_value c)).
Qed.

End Session.

(** C2, as amended.  For every tenant and every state of the cookie store,
    [isAuthenticated()] never raises, and it returns true if and only if the
    token cookie is present with a non-empty value and [getCurrentCustomer()]
    returns a truthy value, which it does exactly when the customer cookie is
    present, non-empty and parses to a value other than [null], [false], [0]
    and the empty string; in every other case it returns false. *)
Theorem isAuthenticated_iff `{!JsonCodec} (this : ApiClient) (w : world) :
  (exists b, fst (Client.isAuthenticated this w) = Normal b) /\
  (fst (Client.isAuthenticated this w) = Normal true <->
     (exists tok, cookies w !! Client.token_key (tenant this) = Some tok /\
                  cookie_value tok <> "") /\
     (exists c, fst (Client.getCurrentCustomer this w) = Normal c /\ truthy c = true)) /\
  ((exists c, fst (Client.getCurrentCustomer this w) = Normal c /\ truthy c = true) <->
     (exists text parsed,
         cookies w !! Client.customer_key (tenant this) = Some text /\
         cookie_value text <> "" /\
         JSON_parse (cookie_value text) = Some parsed /\
         truthy parsed = true)).
Proof.
  rewrite isAuthenticated_value, getCurrentCustomer_value.
  split; [by eexists |]. split.
  - split.
    + intros [= Hb]. apply andb_prop in Hb as [Htok Hc]. split; [| by eexists].
      destruct (cookies w !! Client.token_key (tenant this)) as [tok |]; [| done].
      exists tok. split; [done |]. simpl in Htok. intros E. rewrite E in Htok. discriminate Htok.
    + intros [(tok & -> & Hne) (c & [= <-] & Hc)]. simpl.
      apply String.eqb_neq in Hne. by rewrite Hne, Hc.
  - split.
    + intros (c & [= <-] & Hc).
      destruct (cookies w !! Client.customer_key (tenant this)) as [text |]; [| done].
      destruct (String.eqb (cookie_value text) "") eqn:E; [done |].
      destruct (JSON_parse (cookie_value text)) as [parsed |] eqn:Hp; [| done].
      exists text, parsed. by apply String.eqb_neq in E.
    + intros (text & parsed & -> & Hne & Hp & Ht).
      apply String.eqb_neq in Hne. rewrite Hne, Hp. by eexists.
Qed.

(** C2 as stated fails: a token cookie with an empty value is present, and
    [getCurrentCustomer()] returns the customer of a present and parseable
    customer cookie, yet [isAuthenticated()] is false. *)
Lemma isAuthenticated_empty_token :
  let this := Sample.demo_client in
  let w := Sample.browser [("accesswash_token_demo", Sample.stored "");
                           ("accesswash_customer_demo", Sample.stored Sample.customer_text)] [] in
  ~ (fst (Client.isAuthenticated (H := ModelJSON.codec) this w) = Normal true <->
       is_Some (cookies w !! Client.token_key (tenant this)) /\
       is_Some (cookies w !! Client.customer_key (tenant this)) /\
       fst (Client.getCurrentCustomer (H := ModelJSON.codec) this w) = Normal Sample.customer).
Proof.
  intros this w [_ Hclaim].
  assert (Hfalse : fst (Client.isAuthenticated (H := ModelJSON.codec) this w) = Normal false)
    by (vm_compute; reflexivity).
  rewrite Hclaim in Hfalse; [discriminate |].
  split; [| split].
  - vm_compute. by eexists.
  - vm_compute. by eexists.
  - vm_compute. reflexivity.
Qed.

(** A customer cookie that holds the JSON text [null] is present and
    parses, yet there is no customer and no session. *)
Example isAuthenticated_null_snapshot :
  let w := Sample.browser [("accesswash_token_demo", Sample.stored "tok-demo");
                           ("accesswash_customer_demo", Sample.stored "null")] [] in
  ModelJSON.parse "null" = Some JNull /\
  fst (Client.getCurrentCustomer (H := ModelJSON.codec) Sample.demo_client w) = Normal JNull /\
  fst (Client.isAuthenticated (H := ModelJSON.codec) Sample.demo_client w) = Normal false.
Proof. vm_compute. repeat split. Qed.

(** ** Error normalization *)

Lemma fails_settle this o :
  fails this o ->
  exists e, Client.settle this o = Throw e /\
            Client.backend_message e = reply_message this o.
Proof.
  destruct o as [[elapsed status body |] |]; simpl; intros Hf; try by eexists.
  destruct (timeout this <? elapsed) eqn:Ht; [by eexists |].
  destruct Hf as [Hf | ->]; [lia |]. by eexists.
Qed.

(** A value without a string is an object or an array, hence truthy. *)
Lemma unconvertible_truthy v : ToString v = None -> truthy v = true.
Proof. destruct v as [| | [] | | | |]; simpl; by try discriminate. Qed.

Lemma rejection_converts message fallback text :
  ToString message = Some text ->
  rejection message fallback = Error (if truthy message then text else fallback).
Proof.
  intros Ht. unfold rejection, js_or. destruct (truthy message); [by rewrite Ht | done].
Qed.

Lemma rejection_unconvertible message fallback :
  ToString message = None -> rejection message fallback = TypeError cannot_convert.
Proof.
  intros Ht. unfold rejection, js_or. by rewrite (unconvertible_truthy _ Ht), Ht.
Qed.

(** An error that carries no response is replaced by the default. *)
Lemma caught_plain e fallback : error_response e = None -> caught e fallback = Error fallback.
Proof. intros He. unfold caught, rejection, Client.backend_message. by rewrite He. Qed.

Lemma caught_not_axios e fallback m r : caught e fallback <> AxiosError m r.
Proof. unfold caught, rejection. by destruct (ToString _). Qed.

Lemma succeeds_settle this o :
  ~ fails this o -> exists r, Client.settle this o = Normal r.
Proof.
  destruct o as [[elapsed status body |] |]; simpl; intros Hf; try by destruct Hf.
  destruct (timeout this <? elapsed) eqn:Ht; [destruct Hf; left; lia |].
  destruct (Client.validateStatus status); [by eexists | destruct Hf; by right].
Qed.

(** What the code after a response raises is the engine's [TypeError], which
    carries no response. *)
Lemma continuation_raises `{!JsonCodec} this c r w e w' :
  continuation this c r w = (Throw e, w') -> error_response e = None.
Proof.
  destruct w as [[[h jar] |] env net tr], c; unfold_client; unfold to_string;
    intros Hk; by split_cases.
Qed.

(** C9, as amended.  No public network operation ([login], [register],
    [forgotPassword], [getDashboard], [getProfile], [updateProfile],
    [getServiceRequests], [getServiceRequest], [createServiceRequest],
    [addComment]) ever throws axios' error.  When the request succeeds the
    operation returns or throws the [Error] with its default string.  When
    the request fails (no answer, a connection failure, an answer later than
    the timeout, or a status outside 2xx) and the [message] of the response
    body can be converted to a string, the operation throws the [Error]
    whose message is that string when the [message] is truthy and the
    operation's default string otherwise; a [message] that has no string
    makes it throw the engine's [TypeError] instead.  In particular a reply
    that takes longer than the timeout, which is 10000 ms for every client
    the factory makes, yields the default string. *)
Theorem errors_normalized `{!JsonCodec} (this : ApiClient) (c : call) (w : world) :
  (forall m r, fst (invoke this c w) <> Throw (AxiosError m r)) /\
  (~ fails this (head (network w)) ->
   (exists v, fst (invoke this c w) = Normal v) \/
   fst (invoke this c w) = Throw (Error (fallback c))) /\
  (fails this (head (network w)) ->
   forall text,
     ToString (reply_message this (head (network w))) = Some text ->
     fst (invoke this c w) =
       Throw (Error (if truthy (reply_message this (head (network w)))
                     then text
                     else fallback c))) /\
  (fails this (head (network w)) ->
   ToString (reply_message this (head (network w))) = None ->
   fst (invoke this c w) = Throw (TypeError cannot_convert)) /\
  (forall elapsed status body rest,
      network w = Reply elapsed status body :: rest ->
      timeout this < elapsed ->
      fst (invoke this c w) = Throw (Error (fallback c))) /\
  (forall tenant w0, timeout (Client.new_client tenant w0) = 10000).
Proof.
  assert (Hfail : fails this (head (network w)) ->
                  fst (invoke this c w) =
                    Throw (rejection (reply_message this (head (network w))) (fallback c))).
  { intros Hf. apply fails_settle in Hf as (e & He & Hm).
    rewrite invoke_eq, He. simpl. unfold caught. by rewrite Hm. }
  split; [| split; [| split; [| split; [| split; [| done]]]]].
  - intros m r. rewrite invoke_eq. simpl.
    destruct (Client.settle this (head (network w))) as [r' | e]; simpl.
    + destruct (continuation this c r' _) as [[v | e] w2]; simpl; [done |].
      intros [= E]. by apply caught_not_axios in E.
    + intros [= E]. by apply caught_not_axios in E.
  - intros Hok. apply succeeds_settle in Hok as [r Hr].
    rewrite invoke_eq, Hr. simpl.
    destruct (continuation this c r _) as [[v | e] w2] eqn:Hk; simpl.
    + left. by eexists.
    + right. apply continuation_raises in Hk. by rewrite caught_plain.
  - intros Hf text Ht. rewrite Hfail by done. by rewrite (rejection_converts _ _ text).
  - intros Hf Ht. rewrite Hfail by done. by rewrite rejection_unconvertible.
  - intros elapsed status body rest Hnet Hlate.
    rewrite Hfail; rewrite Hnet; simpl.
    + assert (Hlt : (timeout this <? elapsed) = true) by lia. by rewrite Hlt.
    + by left.
Qed.

(** The theorem at a login whose reply takes 10001 ms. *)
Lemma errors_normalized_witness :
  fst (invoke (H := ModelJSON.codec) Sample.demo_client (Login Sample.credentials)
         (Sample.browser [] [Reply 10001 200 Sample.login_flat]))
  = Throw (Error "Login failed").
Proof.
  refine (proj1 (proj2 (proj2 (proj2 (proj2
            (errors_normalized (H := ModelJSON.codec) Sample.demo_client
               (Login Sample.credentials)
               (Sample.browser [] [Reply 10001 200 Sample.login_flat]))))))
            10001 200 Sample.login_flat [] eq_refl _).
  simpl. lia.
Defined.

(** C9 as stated fails: the backend rejects a request with a [message] that
    is an object with a property [toString]; building the error raises, and
    what the caller gets is the engine's [TypeError], neither the backend's
    message nor the default string of the operation. *)
Lemma errors_normalized_unconvertible :
  let w := Sample.browser []
             [Reply 35 422 (JObj [("success", JBool false);
                                  ("message", JObj [("toString", JStr "no such account")])])] in
  fails Sample.demo_client (head (network w)) /\
  ~ (exists message,
        fst (invoke (H := ModelJSON.codec) Sample.demo_client GetProfile w)
        = Throw (Error message)).
Proof.
  intros w. split; [by right |].
  assert (Hrun : fst (invoke (H := ModelJSON.codec) Sample.demo_client GetProfile w)
                 = Throw (TypeError cannot_convert)) by (vm_compute; reflexivity).
  rewrite Hrun. by intros [message [=]].
Qed.

(** A 403 with a message: the backend's text is what the caller sees. *)
Example getProfile_forbidden :
  fst (Client.getProfile Sample.demo_client
         (Sample.browser [] [Reply 35 403 (JObj [("success", JBool false);
                                                 ("message", JStr "Account suspended")])]))
  = Throw (Error "Account suspended").
Proof. vm_compute. reflexivity. Qed.

(** A 200 that carries [null]: the [TypeError] of reading [success] does not
    escape either. *)
Example updateProfile_null_body :
  fst (Client.updateProfile (H := ModelJSON.codec) Sample.demo_client (JObj [])
         (Sample.browser [] [Reply 35 200 JNull]))
  = Throw (Error "Failed to update profile").
Proof. vm_compute. reflexivity. Qed.

(** ** The 401 interceptor *)

Lemma quiet_silent new : Forall quiet new -> removals new = [] /\ navigations new = [].
Proof.
  induction 1 as [| e new He _ [IHr IHn]]; [done |].
  unfold removals, navigations in *. simpl. rewrite IHr, IHn.
  by destruct e.
Qed.

Lemma removals_app l1 l2 : removals (l1 ++ l2) = (removals l1 ++ removals l2)%list.
Proof. apply flat_map_app. Qed.

Lemma navigations_app l1 l2 : navigations (l1 ++ l2) = (navigations l1 ++ navigations l2)%list.
Proof. apply flat_map_app. Qed.

Section Interceptor.
Context `{!JsonCodec}.
Variable this : ApiClient.

(** Once a response is in, a call may write cookies but removes none and
    navigates nowhere. *)
Lemma quiet_continuation c r : respects (tenant this) quiet (continuation this c r).
Proof.
  destruct c; unfold continuation, Client.persist_session, Client.setAuthToken; confine.
Qed.

Lemma answered_extends rejected config w :
  extends w (answered this rejected config w)
    (if has_window w
     then (if rejected
           then [Navigate ("/" +:+ tenant this +:+ "/portal/auth/login");
                 CookieRemove (Client.customer_key (tenant this));
                 CookieRemove (Client.token_key (tenant this))]
           else [])
          ++ [HttpRequest config; CookieRead (Client.token_key (tenant this))]
     else [HttpRequest config]).
Proof. done. Qed.

Lemma answered_signed_out config w :
  signed_out (tenant this) (answered this true config w).
Proof.
  unfold signed_out, answered, cookies. simpl.
  destruct (window w) as [win |]; simpl; [| done]. split.
  - rewrite lookup_delete_ne by (intros E; symmetry in E; by apply token_customer_key_ne in E).
    apply lookup_delete_eq.
  - apply lookup_delete_eq.
Qed.

Lemma invoke_interceptor c w :
  window w <> None ->
  exists new,
    extends w (snd (invoke this c w)) new /\
    if unauthorized this (head (network w))
    then removals new = [Client.customer_key (tenant this); Client.token_key (tenant this)] /\
         navigations new = ["/" +:+ tenant this +:+ "/portal/auth/login"] /\
         signed_out (tenant this) (snd (invoke this c w))
    else removals new = [] /\ navigations new = [].
Proof.
  intros Hw. rewrite invoke_eq. simpl.
  pose proof (unauthorized_settle this (head (network w))) as Hu.
  set (config := sent this c w).
  pose proof (answered_extends (unauthorized this (head (network w))) config w) as Hext.
  assert (Hbrowser : has_window w = true)
    by (unfold has_window; by destruct (window w)).
  rewrite Hbrowser in Hext.
  destruct (Client.settle this (head (network w))) as [r | e].
  - rewrite Hu in *. simpl in Hext.
    destruct (quiet_continuation c r (answered this false config w))
      as [_ (newk & Hk & Hquiet)].
    apply quiet_silent in Hquiet as [Hr Hn].
    eexists (newk ++ _)%list. split.
    + destruct (continuation this c r _) as [[v | e] w2]; simpl in *;
        unfold extends in *; by rewrite Hk, Hext, app_assoc.
    + by rewrite removals_app, navigations_app, Hr, Hn.
  - simpl. eexists. split; [exact Hext |].
    destruct (unauthorized this (head (network w))); [| done].
    split; [done | split; [done |]]. apply answered_signed_out.
Qed.

Lemma logout_interceptor w :
  window w <> None ->
  exists new,
    extends w (snd (Client.logout this w)) new /\
    removals new =
      ([Client.customer_key (tenant this); Client.token_key (tenant this)]
       ++ (if unauthorized this (head (network w))
           then [Client.customer_key (tenant this); Client.token_key (tenant this)]
           else []))%list /\
    navigations new =
      (if unauthorized this (head (network w))
       then ["/" +:+ tenant this +:+ "/portal/auth/login"]
       else []).
Proof.
  intros Hw. rewrite logout_eq. simpl.
  destruct w as [[[h jar] |] env net tr]; [| done].
  unfold_client. unfold answered. simpl.
  destruct (unauthorized this (head net)); eexists; (split; [unfold extends; simpl |]).
  - by instantiate (1 := [_; _; _; _; _; _; _]).
  - done.
  - by instantiate (1 := [_; _; _; _]).
  - done.
Qed.

End Interceptor.

(** C4, as amended.  In a browser, for each of the ten network operations of
    the client, a 401 response that arrives in time makes the response
    interceptor remove both cookies of the tenant exactly once and navigate
    exactly once, to [/{tenant}/portal/auth/login], after which neither
    cookie exists; any other outcome of the request removes no cookie and
    navigates nowhere.  [logout], which always removes both cookies itself,
    gets the interceptor's removal and navigation on top of its own on a 401
    and only its own removal otherwise.  Outside a browser a 401 removes
    nothing and navigates nowhere. *)
Theorem unauthorized_clears_session `{!JsonCodec} (this : ApiClient) (w : world) :
  (window w <> None ->
   (forall c, exists new,
       extends w (snd (invoke this c w)) new /\
       if unauthorized this (head (network w))
       then removals new = [Client.customer_key (tenant this); Client.token_key (tenant this)] /\
            navigations new = ["/" +:+ tenant this +:+ "/portal/auth/login"] /\
            signed_out (tenant this) (snd (invoke this c w))
       else removals new = [] /\ navigations new = []) /\
   (exists new,
       extends w (snd (Client.logout this w)) new /\
       removals new =
         ([Client.customer_key (tenant this); Client.token_key (tenant this)]
          ++ (if unauthorized this (head (network w))
              then [Client.customer_key (tenant this); Client.token_key (tenant this)]
              else []))%list /\
       navigations new =
         (if unauthorized this (head (network w))
          then ["/" +:+ tenant this +:+ "/portal/auth/login"]
          else []))) /\
  (window w = None ->
   forall m, exists new,
       extends w (effect this m w) new /\ removals new = [] /\ navigations new = []).
Proof.
  split.
  - intros Hw. split.
    + intros c. by apply invoke_interceptor.
    + by apply logout_interceptor.
  - intros Hw m.
    destruct (server_methods this w m Hw) as [_ (new & Hext & Hreq)].
    exists new. split; [done |]. apply quiet_silent.
    eapply Forall_impl; [exact Hreq |]. by intros e [r ->].
Qed.

(** The theorem at a dashboard request that comes back with a 401. *)
Lemma unauthorized_clears_session_witness :
  let w := Sample.browser Sample.two_sessions
             [Reply 40 401 (JObj [("message", JStr "Token expired")])] in
  let w' := snd (invoke (H := ModelJSON.codec) Sample.demo_client GetDashboard w) in
  exists new,
    extends w w' new /\
    removals new = ["accesswash_customer_demo"; "accesswash_token_demo"] /\
    navigations new = ["/demo/portal/auth/login"] /\
    signed_out "demo" w'.
Proof.
  intros w w'.
  destruct (unauthorized_clears_session (H := ModelJSON.codec) Sample.demo_client w)
    as [Hbrowser _].
  destruct Hbrowser as [Hcalls _]; [discriminate |].
  exact (Hcalls GetDashboard).
Defined.

(** C4 as stated fails: in a server-side render a 401 response to an
    authenticated call removes no cookie and navigates nowhere. *)
Lemma unauthorized_without_window :
  let w := Sample.server [Reply 40 401 (JObj [("message", JStr "Token expired")])] in
  let w' := snd (invoke (H := ModelJSON.codec) Sample.demo_client GetDashboard w) in
  ~ (exists new,
        extends w w' new /\
        removals new = ["accesswash_customer_demo"; "accesswash_token_demo"] /\
        navigations new = ["/demo/portal/auth/login"]).
Proof.
  intros w w' (new & Hext & _ & Hnav).
  unfold extends in Hext. rewrite app_nil_r in Hext. subst new.
  vm_compute in Hnav. discriminate Hnav.
Qed.

(** ** The cached customer snapshot *)

Section Snapshot.
Context `{!JsonCodec}.

(** The cookie jar after [updateProfile], in closed form. *)
Lemma updateProfile_cookies this data w :
  cookies (snd (Client.updateProfile this data w)) =
    match Client.settle this (head (network w)) with
    | Normal r =>
        if truthy (get_prop_opt (resp_data r) "success") && has_window w
        then <[Client.customer_key (tenant this) :=
                 {| cookie_value :=
                      stored_text (JSON_stringify (get_prop_opt (resp_data r) "data"));
                    cookie_attrs := Client.session_attributes (NODE_ENV w) |}]> (cookies w)
        else cookies w
    | Throw e =>
        if Client.is_unauthorized e
        then delete (Client.customer_key (tenant this))
               (delete (Client.token_key (tenant this)) (cookies w))
        else cookies w
    end.
Proof.
  change (Client.updateProfile this data w) with (invoke this (UpdateProfile data) w).
  rewrite invoke_eq. simpl.
  pose proof (unauthorized_settle this (head (network w))) as Hu.
  destruct (Client.settle this (head (network w))) as [r | e]; rewrite Hu.
  - destruct w as [[[h jar] |] env net tr]; unfold_client; unfold get_prop_opt, cookies;
      simpl; destruct (resp_data r) as [| | b | n | s | items | fields]; simpl; try done;
      destruct (truthy (obj_get fields "success")); simpl;
      by rewrite ?ToString_js_of_text.
  - destruct w as [[[h jar] |] env net tr]; unfold cookies; simpl;
      by destruct (unauthorized this (head net)).
Qed.

Lemma updateProfile_result this data w :
  fst (Client.updateProfile this data w) =
    match Client.settle this (head (network w)) with
    | Normal r =>
        match get_prop (resp_data r) "success" with
        | Some _ => Normal (resp_data r)
        | None => Throw (Error "Failed to update profile")
        end
    | Throw e => Throw (caught e "Failed to update profile")
    end.
Proof.
  change (Client.updateProfile this data w) with (invoke this (UpdateProfile data) w).
  rewrite invoke_eq. simpl.
  destruct (Client.settle this (head (network w))) as [r | e]; [| done].
  destruct w as [[[h jar] |] env net tr]; unfold_client; simpl;
    destruct (resp_data r) as [| | b | n | s | items | fields]; simpl; try done;
    destruct (truthy (obj_get fields "success")); simpl;
    by rewrite ?ToString_js_of_text.
Qed.

End Snapshot.

(** C8, as amended.  For every tenant and every cached snapshot: when
    [updateProfile] returns a response that reports success, in a browser the
    customer cookie is replaced by the serialized returned data and nothing
    else in the jar changes; when [updateProfile] fails (it throws, or the
    response does not report success) the jar, and with it the cached
    snapshot, is left unchanged, unless the failure is a 401 response: then
    the call fails and both cookies of the tenant are removed. *)
Theorem updateProfile_snapshot `{!JsonCodec} (this : ApiClient) (data : jsval) (w : world) :
  (forall body,
      fst (Client.updateProfile this data w) = Normal body ->
      truthy (get_prop_opt body "success") = true ->
      window w <> None ->
      cookies (snd (Client.updateProfile this data w)) =
        <[Client.customer_key (tenant this) :=
            {| cookie_value :=
                 stored_text (JSON_stringify (get_prop_opt body "data"));
               cookie_attrs := Client.session_attributes (NODE_ENV w) |}]> (cookies w)) /\
  (reports_success (fst (Client.updateProfile this data w)) = false ->
   unauthorized this (head (network w)) = false ->
   cookies (snd (Client.updateProfile this data w)) = cookies w) /\
  (unauthorized this (head (network w)) = true ->
   reports_success (fst (Client.updateProfile this data w)) = false /\
   cookies (snd (Client.updateProfile this data w)) =
     delete (Client.customer_key (tenant this))
       (delete (Client.token_key (tenant this)) (cookies w))).
Proof.
  rewrite updateProfile_cookies, updateProfile_result.
  pose proof (unauthorized_settle this (head (network w))) as Hu.
  destruct (Client.settle this (head (network w))) as [r | e].
  - unfold get_prop_opt in *.
    destruct (get_prop (resp_data r) "success") as [v |] eqn:Hs; simpl.
    + split; [| split].
      * intros body [= <-] Hv Hw. rewrite Hs in Hv. rewrite Hv. simpl.
        unfold has_window. by destruct (window w).
      * unfold get_prop_opt. rewrite Hs. by intros ->.
      * by rewrite Hu.
    + split; [| split]; [done | done | by rewrite Hu].
  - split; [| split]; simpl; [done | |].
    + intros _ Hno. by rewrite Hu, Hno.
    + intros Hyes. by rewrite Hu, Hyes.
Qed.

(** The theorem at a successful profile update in a signed-in browser. *)
Lemma updateProfile_snapshot_witness :
  let w := Sample.browser Sample.two_sessions
             [Reply 60 200 (JObj [("success", JBool true); ("data", Sample.customer)])] in
  cookies (snd (Client.updateProfile (H := ModelJSON.codec) Sample.demo_client
                  (JObj [("language", JStr "en")]) w))
  !! "accesswash_customer_demo"
  = Some (Sample.stored Sample.customer_text).
Proof.
  intros w.
  destruct (updateProfile_snapshot (H := ModelJSON.codec) Sample.demo_client
              (JObj [("language", JStr "en")]) w) as [Hsuccess _].
  rewrite (Hsuccess (JObj [("success", JBool true); ("data", Sample.customer)])).
  - vm_compute. reflexivity.
  - vm_compute. reflexivity.
  - reflexivity.
  - discriminate.
Defined.

(** C8 as stated fails: an [updateProfile] that fails with a 401 does not
    leave the cached snapshot untouched, it removes it. *)
Lemma updateProfile_unauthorized :
  let w := Sample.browser Sample.two_sessions
             [Reply 60 401 (JObj [("message", JStr "Token expired")])] in
  let run := Client.updateProfile (H := ModelJSON.codec) Sample.demo_client
               (JObj [("language", JStr "en")]) w in
  fst run = Throw (Error "Token expired") /\
  cookies w !! "accesswash_customer_demo" = Some (Sample.stored Sample.customer_text) /\
  cookies (snd run) !! "accesswash_customer_demo" = None /\
  cookies (snd run) !! "accesswash_customer_demo" <> cookies w !! "accesswash_customer_demo".
Proof. vm_compute. repeat split. discriminate. Qed.

(** ** The auth store *)

Ltac unfold_store :=
  unfold Store.login, Store.register, Store.forgotPassword, Store.loadCustomerFromStorage,
    Store.clearError, Store.set, Store.await, Client.createApiClient,
    member, bind, ret, throw, try_catch, try_finally, get_world in *.

Section StoreActions.
Context `{!JsonCodec}.
Variables (tenant : string) (s : AuthState) (w : world).

Lemma store_login_throws credentials e w' :
  Client.login (Client.new_client tenant w) credentials w = (Throw e, w') ->
  Store.login credentials tenant (s, w) =
    (Throw e, (unauthenticated (Some (error_message e)), w')).
Proof. intros Hc. unfold_store. simpl. by rewrite Hc. Qed.

Lemma store_register_throws data e w' :
  Client.register (Client.new_client tenant w) data w = (Throw e, w') ->
  Store.register data tenant (s, w) =
    (Throw e, (unauthenticated (Some (error_message e)), w')).
Proof. intros Hc. unfold_store. simpl. by rewrite Hc. Qed.

Lemma store_forgotPassword_throws email e w' :
  Client.forgotPassword (Client.new_client tenant w) email w = (Throw e, w') ->
  Store.forgotPassword email tenant (s, w) =
    (Throw e, ({| customer := customer s; loading := false;
                  error := Some (error_message e);
                  isAuthenticated := isAuthenticated s |}, w')).
Proof. intros Hc. unfold_store. simpl. by rewrite Hc. Qed.

(** However [login] ends, the error it leaves is its own. *)
Lemma store_login_outcome credentials :
  match Store.login credentials tenant (s, w) with
  | (Normal _, (s', _)) => error s' = None /\ loading s' = false /\ isAuthenticated s' = true
  | (Throw e, (s', _)) => s' = unauthenticated (Some (error_message e))
  end.
Proof.
  unfold_store. simpl.
  destruct (Client.login _ _ _) as [[body | e] w']; simpl; [| done].
  destruct (get_prop body "success") as [success |]; simpl; [| done].
  destruct (truthy success); simpl.
  - destruct (get_prop body "data") as [data |]; simpl; [| done].
    by destruct (get_prop data "customer").
  - destruct (get_prop body "message") as [message |]; simpl; [| done].
    rewrite new_Error_or. by destruct (ToString _).
Qed.

Lemma store_register_outcome data :
  match Store.register data tenant (s, w) with
  | (Normal _, (s', _)) => error s' = None /\ loading s' = false /\ isAuthenticated s' = true
  | (Throw e, (s', _)) => s' = unauthenticated (Some (error_message e))
  end.
Proof.
  unfold_store. simpl.
  destruct (Client.register _ _ _) as [[body | e] w']; simpl; [| done].
  destruct (get_prop body "success") as [success |]; simpl; [| done].
  destruct (truthy success); simpl.
  - destruct (get_prop body "data") as [d |]; simpl; [| done].
    by destruct (get_prop d "customer").
  - destruct (get_prop body "message") as [message |]; simpl; [| done].
    rewrite new_Error_or. by destruct (ToString _).
Qed.

Lemma store_forgotPassword_outcome email :
  match Store.forgotPassword email tenant (s, w) with
  | (Normal _, (s', _)) =>
      s' = {| customer := customer s; loading := false; error := None;
              isAuthenticated := isAuthenticated s |}
  | (Throw e, (s', _)) =>
      s' = {| customer := customer s; loading := false; error := Some (error_message e);
              isAuthenticated := isAuthenticated s |}
  end.
Proof.
  unfold_store. simpl.
  by destruct (Client.forgotPassword _ _ _) as [[body | e] w'].
Qed.

Lemma store_load_keeps_error :
  error (fst (snd (Store.loadCustomerFromStorage tenant (s, w)))) = error s.
Proof.
  unfold_store. simpl.
  destruct (Client.getCurrentCustomer _ _) as [[c | e] w1]; simpl; [| done].
  by destruct (Client.isAuthenticated _ _) as [[b | e] w2].
Qed.

End StoreActions.

(** C6, as amended.  When the API client reports failure to [login] or
    [register], the store raises the same error and ends in
    [unauthenticated(error)]: not loading, not authenticated, customer null,
    error set to the failure's message; the same state is reached whenever
    one of these two actions raises.  When the API client reports failure to
    [forgotPassword], the store raises the same error, stops loading and sets
    the error to the failure's message, while [customer] and
    [isAuthenticated] keep the values they had.  The error is retained by
    [loadCustomerFromStorage], reset by [clearError], and replaced by the
    outcome of the next action: none after an action that returns, none
    after [logout]. *)
Theorem store_failure_transitions `{!JsonCodec} (tenant : string) (s : AuthState) (w : world) :
  (forall credentials e w',
      Client.login (Client.new_client tenant w) credentials w = (Throw e, w') ->
      Store.login credentials tenant (s, w) =
        (Throw e, (unauthenticated (Some (error_message e)), w'))) /\
  (forall data e w',
      Client.register (Client.new_client tenant w) data w = (Throw e, w') ->
      Store.register data tenant (s, w) =
        (Throw e, (unauthenticated (Some (error_message e)), w'))) /\
  (forall email e w',
      Client.forgotPassword (Client.new_client tenant w) email w = (Throw e, w') ->
      Store.forgotPassword email tenant (s, w) =
        (Throw e, ({| customer := customer s; loading := false;
                      error := Some (error_message e);
                      isAuthenticated := isAuthenticated s |}, w'))) /\
  (forall credentials e,
      fst (Store.login credentials tenant (s, w)) = Throw e ->
      fst (snd (Store.login credentials tenant (s, w))) =
        unauthenticated (Some (error_message e))) /\
  (forall data e,
      fst (Store.register data tenant (s, w)) = Throw e ->
      fst (snd (Store.register data tenant (s, w))) =
        unauthenticated (Some (error_message e))) /\
  error (fst (snd (Store.loadCustomerFromStorage tenant (s, w)))) = error s /\
  Store.clearError (s, w) =
    (Normal tt, ({| customer := customer s; loading := loading s; error := None;
                    isAuthenticated := isAuthenticated s |}, w)) /\
  (forall credentials,
      fst (Store.login credentials tenant (s, w)) = Normal tt ->
      error (fst (snd (Store.login credentials tenant (s, w)))) = None) /\
  (forall data,
      fst (Store.register data tenant (s, w)) = Normal tt ->
      error (fst (snd (Store.register data tenant (s, w)))) = None) /\
  (forall email,
      fst (Store.forgotPassword email tenant (s, w)) = Normal tt ->
      error (fst (snd (Store.forgotPassword email tenant (s, w)))) = None) /\
  error (fst (snd (Store.logout tenant (s, w)))) = None.
Proof.
  split; [intros; by apply store_login_throws |].
  split; [intros; by apply store_register_throws |].
  split; [intros; by apply store_forgotPassword_throws |].
  split.
  { intros credentials e He. pose proof (store_login_outcome tenant s w credentials) as Ho.
    destruct (Store.login credentials tenant (s, w)) as [[[] | e'] [s' w']];
      simpl in *; by simplify_eq. }
  split.
  { intros data e He. pose proof (store_register_outcome tenant s w data) as Ho.
    destruct (Store.register data tenant (s, w)) as [[[] | e'] [s' w']];
      simpl in *; by simplify_eq. }
  split; [apply store_load_keeps_error |].
  split; [done |].
  split.
  { intros credentials He. pose proof (store_login_outcome tenant s w credentials) as Ho.
    destruct (Store.login credentials tenant (s, w)) as [[[] | e'] [s' w']];
      simpl in *; [by destruct Ho | done]. }
  split.
  { intros data He. pose proof (store_register_outcome tenant s w data) as Ho.
    destruct (Store.register data tenant (s, w)) as [[[] | e'] [s' w']];
      simpl in *; [by destruct Ho | done]. }
  split.
  { intros email He. pose proof (store_forgotPassword_outcome tenant s w email) as Ho.
    destruct (Store.forgotPassword email tenant (s, w)) as [[[] | e'] [s' w']];
      simpl in *; [by subst | done]. }
  by rewrite store_logout_eq.
Qed.

(** The theorem at a login the backend rejects. *)
Lemma store_failure_transitions_witness :
  let w := Sample.browser [] [Reply 90 400 (JObj [("success", JBool false);
                                                  ("message", JStr "Invalid credentials")])] in
  Store.login (H := ModelJSON.codec) Sample.credentials "demo" (Store.initial, w) =
    (Throw (Error "Invalid credentials"),
     (unauthenticated (Some "Invalid credentials"),
      snd (Client.login (H := ModelJSON.codec) (Client.new_client "demo" w)
             Sample.credentials w))).
Proof.
  intros w.
  refine (proj1 (store_failure_transitions (H := ModelJSON.codec) "demo" Store.initial w)
            Sample.credentials (Error "Invalid credentials") _ _).
  vm_compute. reflexivity.
Defined.

(** C6 as stated fails for [forgotPassword]: a failed reset request of a
    signed-in customer sets the error but leaves the customer in place and
    the store authenticated. *)
Lemma forgotPassword_keeps_session :
  let s := {| customer := Sample.customer; loading := false; error := None;
              isAuthenticated := true |} in
  let w := Sample.browser Sample.two_sessions
             [Reply 80 500 (JObj [("message", JStr "Mail service unavailable")])] in
  let run := Store.forgotPassword "amina@example.org" "demo" (s, w) in
  fst run = Throw (Error "Mail service unavailable") /\
  fst (snd run) = {| customer := Sample.customer; loading := false;
                     error := Some "Mail service unavailable"; isAuthenticated := true |} /\
  fst (snd run) <> unauthenticated (Some "Mail service unavailable").
Proof. vm_compute. repeat split. discriminate. Qed.

(** ** Login and the persisted snapshot *)

Lemma envelope_has_no_tokens body :
  documented_envelope body ->
  exists fields, body = JObj fields /\ obj_get fields "tokens" = JUndefined.
Proof.
  intros (fields & -> & Hkeys). exists fields. split; [done |].
  unfold obj_get.
  assert (Hfind : obj_find fields "tokens" = None).
  { induction Hkeys as [| [k v] rest Hk _ IH]; [done |].
    simpl. rewrite IH. simpl in Hk.
    destruct Hk as [<- | [<- | [<- | [<- | []]]]]; done. }
  by rewrite Hfind.
Qed.

Section Login.
Context `{!JsonCodec}.

(** Without a truthy top-level [tokens] the block that persists the session
    does nothing. *)
Lemma persist_session_without_tokens this fields w :
  obj_get fields "tokens" = JUndefined ->
  Client.persist_session this (JObj fields) w = (Normal tt, w).
Proof.
  intros Hno. unfold Client.persist_session, member, bind, ret. simpl. rewrite Hno.
  destruct (truthy (obj_get fields "success")) eqn:E; simpl; by rewrite ?E.
Qed.

Lemma settle_in_time this elapsed status body :
  elapsed <= timeout this ->
  Client.validateStatus status = true ->
  Client.settle this (Some (Reply elapsed status body)) =
    Normal {| resp_status := status; resp_data := body |}.
Proof.
  intros Ht Hs. simpl. rewrite Hs.
  assert (Hlt : (timeout this <? elapsed) = false) by lia. by rewrite Hlt.
Qed.

Lemma cookies_answered this config w : cookies (answered this false config w) = cookies w.
Proof. unfold cookies, answered. simpl. by destruct (window w) as [[h jar] |]. Qed.

Lemma getCurrentCustomer_cookies this w1 w2 :
  cookies w1 = cookies w2 ->
  fst (Client.getCurrentCustomer this w1) = fst (Client.getCurrentCustomer this w2).
Proof. intros Hc. by rewrite !getCurrentCustomer_value, Hc. Qed.

End Login.

(** C3.  What the code does where the claim asks for a round trip: when the
    backend accepts the credentials and replies, in time and with a 2xx
    status, with a body in the documented envelope
    [{ success: true, data: { customer, tokens } }], [login] hands the body
    back but writes no cookie, because it looks for [tokens] and [customer]
    at the top level of the body; [getCurrentCustomer()] right afterwards
    returns what it returned before the login, not the customer of the
    reply. *)
Theorem login_envelope_not_persisted `{!JsonCodec} (this : ApiClient)
    (credentials : LoginCredentials) (w : world)
    (elapsed status : Z) (body : jsval) (rest : list outcome) :
  network w = Reply elapsed status body :: rest ->
  elapsed <= timeout this ->
  Client.validateStatus status = true ->
  documented_envelope body ->
  fst (Client.login this credentials w) = Normal body /\
  cookies (snd (Client.login this credentials w)) = cookies w /\
  fst (Client.getCurrentCustomer this (snd (Client.login this credentials w))) =
    fst (Client.getCurrentCustomer this w).
Proof.
  intros Hnet Ht Hs Henv.
  apply envelope_has_no_tokens in Henv as (fields & -> & Hno).
  assert (Hrun : Client.login this credentials w =
                 (Normal (JObj fields),
                  answered this false (sent this (Login credentials) w) w)).
  { change (Client.login this credentials w) with (invoke this (Login credentials) w).
    rewrite invoke_eq. simpl.
    pose proof (unauthorized_settle this (head (network w))) as Hu.
    assert (Hhead : head (network w) = Some (Reply elapsed status (JObj fields)))
      by (by rewrite Hnet).
    rewrite Hhead in *. rewrite settle_in_time in * by done. rewrite Hu.
    unfold bind, ret. simpl. by rewrite persist_session_without_tokens. }
  rewrite Hrun. simpl. split; [done |].
  split; [apply cookies_answered |].
  apply getCurrentCustomer_cookies, cookies_answered.
Qed.

(** The theorem at a first login in a fresh browser: the reply carries the
    customer, the jar stays empty, and the snapshot read back is null. *)
Lemma login_envelope_not_persisted_witness :
  let w := Sample.browser [] [Reply 120 200 Sample.login_envelope] in
  let run := Client.login (H := ModelJSON.codec) Sample.demo_client Sample.credentials w in
  fst run = Normal Sample.login_envelope /\
  cookies (snd run) = cookies w /\
  fst (Client.getCurrentCustomer (H := ModelJSON.codec) Sample.demo_client (snd run)) =
    fst (Client.getCurrentCustomer (H := ModelJSON.codec) Sample.demo_client w).
Proof.
  intros w run.
  apply (login_envelope_not_persisted (H := ModelJSON.codec) Sample.demo_client
           Sample.credentials w 120 200 Sample.login_envelope []).
  - reflexivity.
  - simpl. lia.
  - reflexivity.
  - eexists. split; [reflexivity |].
    repeat constructor; simpl; tauto.
Defined.

(** The same login evaluated: the customer comes back in the reply, the
    snapshot read back is null. *)
Example login_envelope_run :
  let w := Sample.browser [] [Reply 120 200 Sample.login_envelope] in
  let run := Client.login (H := ModelJSON.codec) Sample.demo_client Sample.credentials w in
  fst run = Normal Sample.login_envelope /\
  get_prop_opt (get_prop_opt Sample.login_envelope "data") "customer" = Sample.customer /\
  fst (Client.getCurrentCustomer (H := ModelJSON.codec) Sample.demo_client (snd run)) =
    Normal JNull.
Proof. vm_compute. repeat split. Qed.

(** With [customer] and [tokens] at the top level the client does make the
    round trip... *)
Example login_flat_round_trip :
  let w := Sample.browser [] [Reply 120 200 Sample.login_flat] in
  let run := Client.login (H := ModelJSON.codec) Sample.demo_client Sample.credentials w in
  fst run = Normal Sample.login_flat /\
  fst (Client.getCurrentCustomer (H := ModelJSON.codec) Sample.demo_client (snd run)) =
    Normal Sample.customer /\
  fst (Client.isAuthenticated (H := ModelJSON.codec) Sample.demo_client (snd run)) =
    Normal true.
Proof. vm_compute. repeat split. Qed.

(** ... but the store, which reads [response.data.customer], then fails on
    that very reply, while it accepts the documented envelope. *)
Example store_login_flat :
  let w := Sample.browser [] [Reply 120 200 Sample.login_flat] in
  let run := Store.login (H := ModelJSON.codec) Sample.credentials "demo" (Store.initial, w) in
  fst run = Throw (TypeError "Cannot read properties of undefined (reading 'customer')") /\
  isAuthenticated (fst (snd run)) = false.
Proof. vm_compute. repeat split. Qed.

Example store_login_envelope :
  let w := Sample.browser [] [Reply 120 200 Sample.login_envelope] in
  let run := Store.login (H := ModelJSON.codec) Sample.credentials "demo" (Store.initial, w) in
  fst run = Normal tt /\
  customer (fst (snd run)) = Sample.customer /\
  isAuthenticated (fst (snd run)) = true.
Proof. vm_compute. repeat split. Qed.

(** ** Tenant resolution *)

Lemma includes_slash c s :
  includes (String c s) "/" = Ascii.eqb c "/" || includes s "/".
Proof.
  change (includes (String c s) "/")
    with ((Ascii.eqb "/" c && true) || includes s "/").
  by rewrite andb_true_r, Ascii.eqb_sym.
Qed.

Lemma split_cons sep c s :
  split sep (String c s) =
    if Ascii.eqb c sep then "" :: split sep s
    else match split sep s with
         | [] => [String c ""]
         | piece :: pieces => String c piece :: pieces
         end.
Proof. done. Qed.

Lemma split_leading s : split "/" (String "/" s) = "" :: split "/" s.
Proof. done. Qed.

Lemma split_segment seg rest :
  includes seg "/" = false ->
  split "/" (seg +:+ String "/" rest) = seg :: split "/" rest.
Proof.
  induction seg as [| c seg IH].
  - intros _. change ("" +:+ String "/" rest) with (String "/" rest).
    by rewrite split_cons.
  - rewrite includes_slash. intros Hno. apply orb_false_elim in Hno as [Hc Hrest].
    change (String c seg +:+ String "/" rest) with (String c (seg +:+ String "/" rest)).
    by rewrite split_cons, Hc, IH.
Qed.

Lemma split_last seg : includes seg "/" = false -> split "/" seg = [seg].
Proof.
  induction seg as [| c seg IH]; [done |].
  rewrite includes_slash. intros Hno. apply orb_false_elim in Hno as [Hc Hrest].
  by rewrite split_cons, Hc, IH.
Qed.

Lemma useTenant_fallback params pathname :
  tenant_param params = None ->
  useTenant params pathname =
    match at_index (split "/" pathname) 1 with
    | Some segment => if String.eqb segment "" then "demo" else segment
    | None => "demo"
    end.
Proof. intros Hp. unfold useTenant. by rewrite Hp. Qed.

(** The entry the resolver reads is the first one called [tenant]. *)
Lemma find_tenant before v after :
  without_tenant before ->
  List.find (fun kv => String.eqb (fst kv) "tenant") (before ++ ("tenant", v) :: after)%list =
    Some ("tenant", v).
Proof.
  induction 1 as [| [k v'] before Hk _ IH]; [done |].
  simpl in *. apply String.eqb_neq in Hk. by rewrite Hk.
Qed.

Lemma find_no_tenant entries :
  without_tenant entries ->
  List.find (fun kv : string * route_param => String.eqb (fst kv) "tenant") entries = None.
Proof.
  induction 1 as [| [k v] entries Hk _ IH]; [done |].
  simpl in *. apply String.eqb_neq in Hk. by rewrite Hk.
Qed.

Lemma no_tenant_param_none params : no_tenant_param params -> tenant_param params = None.
Proof.
  intros [| entries Hno | before after Hno | before l after Hno]; unfold tenant_param.
  - done.
  - by rewrite find_no_tenant.
  - by rewrite find_tenant.
  - by rewrite find_tenant.
Qed.

(** Route parameters either hold a non-empty string called [tenant], or give
    the resolver no tenant. *)
Lemma params_cases params :
  no_tenant_param params \/
  exists before t after,
    params = Some (before ++ ("tenant", ParamString t) :: after)%list /\
    without_tenant before /\ t <> "".
Proof.
  destruct params as [entries |]; [| left; constructor].
  induction entries as [| [k v] entries IH]; [left; by repeat constructor |].
  destruct (String.eqb k "tenant") eqn:Hk.
  - apply String.eqb_eq in Hk as ->. destruct v as [t | l].
    + destruct (String.eqb t "") eqn:Ht.
      * apply String.eqb_eq in Ht as ->. left. apply (empty_entry [] entries). constructor.
      * apply String.eqb_neq in Ht. right. exists [], t, entries.
        split; [done |]. split; [constructor | done].
    + left. apply (array_entry [] l entries). constructor.
  - apply String.eqb_neq in Hk.
    destruct IH as [Hno | (before & t & after & [= ->] & Hbefore & Ht)].
    + left. inversion Hno as [| ? Hall | before after Hall | before l after Hall]; subst.
      * apply no_entry. by constructor.
      * apply (empty_entry ((k, v) :: before) after). by constructor.
      * apply (array_entry ((k, v) :: before) l after). by constructor.
    + right. exists ((k, v) :: before), t, after.
      split; [done |]. split; [by constructor | done].
Qed.

(** C5.  Tenant resolution.  The edge filter yields [utility1] for host
    [utility1.accesswash.org] (whatever the path), [acme] for host
    [localhost:3000] with path [/acme/portal/dashboard], and [demo] for path
    [/], and stamps the tenant on the response as [x-tenant].  The tenant
    resolver prefers the route parameter: when the route parameters hold a
    non-empty string under the name [tenant], whatever other parameters come
    with it, it returns that string, whatever the path.  When they give no
    tenant (no parameters at all, none called [tenant], or one that is empty
    or the array of a catch-all route) it falls back to the path: it returns
    the first path segment, the text between the first and the second slash,
    and [demo] when that segment is empty or missing.  Every value of the
    route parameters is one of these two cases. *)
Theorem tenant_resolution :
  (forall path,
      middleware_tenant {| header_host := Some "utility1.accesswash.org";
                           nextUrl_pathname := path |} = "utility1") /\
  middleware_tenant {| header_host := Some "localhost:3000";
                       nextUrl_pathname := "/acme/portal/dashboard" |} = "acme" /\
  middleware_tenant {| header_host := Some "localhost:3000";
                       nextUrl_pathname := "/" |} = "demo" /\
  (forall request,
      response_headers (middleware request) = [("x-tenant", middleware_tenant request)]) /\
  (forall before t after pathname,
      without_tenant before ->
      t <> "" ->
      useTenant (Some (before ++ ("tenant", ParamString t) :: after)%list) pathname = t) /\
  (forall params prefix segment rest,
      no_tenant_param params ->
      includes prefix "/" = false ->
      includes segment "/" = false ->
      segment <> "" ->
      useTenant params (prefix +:+ String "/" segment) = segment /\
      useTenant params (prefix +:+ String "/" (segment +:+ String "/" rest)) = segment) /\
  (forall params prefix rest,
      no_tenant_param params ->
      includes prefix "/" = false ->
      useTenant params prefix = "demo" /\
      useTenant params (prefix +:+ "/") = "demo" /\
      useTenant params (prefix +:+ "//" +:+ rest) = "demo") /\
  (forall params,
      no_tenant_param params \/
      exists before t after,
        params = Some (before ++ ("tenant", ParamString t) :: after)%list /\
        without_tenant before /\ t <> "") /\
  useTenant None "/acme/portal/dashboard" = "acme" /\
  useTenant None "/" = "demo".
Proof.
  split; [done |]. split; [done |]. split; [done |]. split; [done |].
  split.
  { intros before t after pathname Hbefore Ht. unfold useTenant, tenant_param.
    rewrite find_tenant by done. apply String.eqb_neq in Ht. by rewrite Ht. }
  split.
  { intros params prefix segment rest Hp Hprefix Hno Hne.
    apply no_tenant_param_none in Hp. apply String.eqb_neq in Hne.
    rewrite !useTenant_fallback by done.
    rewrite !split_segment, split_last by done.
    unfold at_index. simpl. by rewrite Hne. }
  split.
  { intros params prefix rest Hp Hprefix. apply no_tenant_param_none in Hp.
    rewrite !useTenant_fallback by done.
    change (prefix +:+ "/") with (prefix +:+ String "/" "").
    change (prefix +:+ "//" +:+ rest) with (prefix +:+ String "/" (String "/" rest)).
    by rewrite !split_segment, split_last, split_leading by done. }
  split; [apply params_cases |].
  done.
Qed.

(** The theorem at the route [/acme/portal/dashboard]: with the route
    parameter after another one, and with no parameter called [tenant]. *)
Lemma tenant_resolution_witness :
  useTenant (Some [("locale", ParamString "en"); ("tenant", ParamString "acme")])
    "/other/portal" = "acme" /\
  useTenant (Some [("locale", ParamString "en")]) "/acme/portal/dashboard" = "acme".
Proof.
  destruct tenant_resolution as (_ & _ & _ & _ & Hparam & Hsegment & _).
  split.
  - apply (Hparam [("locale", ParamString "en")] "acme" []).
    + by repeat constructor.
    + discriminate.
  - apply (Hsegment (Some [("locale", ParamString "en")]) "" "acme" "portal/dashboard").
    + apply no_entry. by repeat constructor.
    + reflexivity.
    + reflexivity.
    + discriminate.
Defined.

(** ** The operations at work *)

(** The jar after that logout: [demo] is signed out, [acme] is not. *)
Example logout_leaves_other_tenant :
  let w := Sample.browser Sample.two_sessions [Reply 40 401 JNull] in
  let w' := snd (Client.logout Sample.demo_client w) in
  cookies w' !! "accesswash_token_demo" = None /\
  cookies w' !! "accesswash_customer_demo" = None /\
  cookies w' !! "accesswash_token_acme" = Some (Sample.stored "tok-acme") /\
  navigations (trace w') = ["/demo/portal/auth/login"].
Proof. vm_compute. repeat split. Qed.

(** The bearer token travels with the request. *)
Example dashboard_request :
  let w := Sample.browser Sample.two_sessions [Reply 40 200 (JObj [("success", JBool true)])] in
  trace (snd (Client.getDashboard Sample.demo_client w)) =
    [HttpRequest {| req_method := "get";
                    req_url := "http://demo.accesswash.org:8000/api/portal/dashboard/";
                    req_data := JUndefined;
                    req_headers := [("Content-Type", "application/json");
                                    ("Authorization", "Bearer tok-demo")] |};
     CookieRead "accesswash_token_demo"].
Proof. vm_compute. reflexivity. Qed.

Example base_url_production :
  Client.getBaseURL "acme"
    {| window := Some {| location_hostname := "acme.accesswash.org"; document_cookie := ∅ |};
       NODE_ENV := "production"; network := []; trace := [] |}
  = "https://acme.accesswash.org/api".
Proof. vm_compute. reflexivity. Qed.

(** The reference codec on the sample customer. *)
Example customer_round_trip :
  ModelJSON.stringify Sample.customer = Some Sample.customer_text /\
  ModelJSON.parse Sample.customer_text = Some Sample.customer.
Proof. vm_compute. split; reflexivity. Qed.

Example parse_rejects_undefined : ModelJSON.parse "undefined" = None.
Proof. vm_compute. reflexivity. Qed.

Example split_path :
  split "/" "/acme/portal/dashboard" = [""; "acme"; "portal"; "dashboard"].
Proof. reflexivity. Qed.

Example split_root : split "/" "/" = [""; ""].
Proof. reflexivity. Qed.

Example tostring_array :
  ToString (JArr [JNum 1; JNull; JStr "a"; JNum (-20)]) = Some "1,,a,-20".
Proof. reflexivity. Qed.

(** An object converts to a string unless a property [toString] is in the
    way; an array that holds such an object does not convert either. *)
Example tostring_object :
  ToString (JObj [("code", JNum 7)]) = Some "[object Object]" /\
  ToString (JObj [("toString", JStr "x")]) = None /\
  ToString (JArr [JStr "a"; JObj [("toString", JNull)]]) = None.
Proof. repeat split. Qed.

(** Numbers are printed as the engine prints them: in full up to 21 digits,
    in exponent form from there on, and with the digits of the nearest
    double beyond 2^53. *)
Example tostring_number :
  ToString (JNum 9007199254740993) = Some "9007199254740992" /\
  ToString (JNum (2 ^ 64)) = Some "18446744073709552000" /\
  ToString (JNum (10 ^ 21)) = Some "1e+21" /\
  ToString (JNum (- 2 ^ 70)) = Some "-1.1805916207174113e+21" /\
  ToString (JNum (10 ^ 400)) = Some "Infinity".
Proof. vm_compute. repeat split. Qed.

(** * Further properties of the code *)

(** ** The base URL *)

Lemma append_cons c s t : String c s +:+ t = String c (s +:+ t).
Proof. done. Qed.

Lemma length_append s t : String.length (s +:+ t) = (String.length s + String.length t)%nat.
Proof. induction s as [| c s IH]; [done |]. rewrite append_cons. simpl. by rewrite IH. Qed.

Lemma append_cancel_r s1 s2 t : s1 +:+ t = s2 +:+ t -> s1 = s2.
Proof.
  revert s2. induction s1 as [| c s1 IH]; intros [| c2 s2] E; try done.
  - apply (f_equal String.length) in E. rewrite !length_append in E. simpl in E. lia.
  - apply (f_equal String.length) in E. rewrite !length_append in E. simpl in E. lia.
  - rewrite !append_cons in E. injection E as -> E. f_equal. by apply IH.
Qed.

Lemma getBaseURL_forms tenant w :
  Client.getBaseURL tenant w = development_url tenant \/
  Client.getBaseURL tenant w = production_url tenant.
Proof.
  unfold Client.getBaseURL. destruct (window w) as [win |].
  - destruct (_ || _); [by left | by right].
  - destruct (String.eqb _ _); [by left | by right].
Qed.

Lemma development_url_inj t1 t2 : development_url t1 = development_url t2 -> t1 = t2.
Proof.
  unfold development_url. intros E.
  apply (append_cancel_r t1 t2 ".accesswash.org:8000/api").
  simpl in E. by simplify_eq.
Qed.

Lemma production_url_inj t1 t2 : production_url t1 = production_url t2 -> t1 = t2.
Proof.
  unfold production_url. intros E.
  apply (append_cancel_r t1 t2 ".accesswash.org/api").
  simpl in E. by simplify_eq.
Qed.

Lemma development_production_ne t1 t2 : development_url t1 <> production_url t2.
Proof. unfold development_url, production_url. simpl. intros E. discriminate E. Qed.

(** X1.  The base URL of a client is [http://{tenant}.accesswash.org:8000/api]
    or [https://{tenant}.accesswash.org/api], the client made by the factory
    carries it with the tenant and a timeout of 10000 ms, and clients of
    distinct tenants never share a base URL, whatever environments they are
    made in. *)
Theorem base_url_separates_tenants (t1 t2 : string) (w1 w2 : world) :
  t1 <> t2 ->
  Client.getBaseURL t1 w1 <> Client.getBaseURL t2 w2 /\
  baseURL (Client.new_client t1 w1) <> baseURL (Client.new_client t2 w2) /\
  Client.createApiClient t1 w1 =
    (Normal {| tenant := t1; baseURL := Client.getBaseURL t1 w1; timeout := 10000 |}, w1) /\
  (Client.getBaseURL t1 w1 = development_url t1 \/
   Client.getBaseURL t1 w1 = production_url t1).
Proof.
  intros Hne.
  assert (Hdiff : Client.getBaseURL t1 w1 <> Client.getBaseURL t2 w2).
  { destruct (getBaseURL_forms t1 w1) as [-> | ->], (getBaseURL_forms t2 w2) as [-> | ->];
      intros E.
    - by apply development_url_inj in E.
    - by apply development_production_ne in E.
    - symmetry in E. by apply development_production_ne in E.
    - by apply production_url_inj in E. }
  split; [done |]. split; [done |]. split; [done |]. apply getBaseURL_forms.
Qed.

(** The theorem at [acme] on a production host and [demo] on a development
    host. *)
Lemma base_url_separates_tenants_witness :
  Client.getBaseURL "acme"
    {| window := Some {| location_hostname := "acme.accesswash.org"; document_cookie := ∅ |};
       NODE_ENV := "production"; network := []; trace := [] |}
  <> Client.getBaseURL "demo" (Sample.browser [] []).
Proof.
  apply (base_url_separates_tenants "acme" "demo"). discriminate.
Defined.

(** ** One request per operation *)

#[local] Hint Extern 1 (offline _) => exact I : confine.

Lemma offline_requests new : Forall offline new -> requests new = [].
Proof.
  induction 1 as [| e new He _ IH]; [done |].
  unfold requests in *. simpl. rewrite IH. by destruct e.
Qed.

Lemma requests_app l1 l2 : requests (l1 ++ l2) = (requests l1 ++ requests l2)%list.
Proof. apply flat_map_app. Qed.

Section Requests.
Context `{!JsonCodec}.
Variable this : ApiClient.

Lemma offline_continuation c r : respects (tenant this) offline (continuation this c r).
Proof.
  destruct c; unfold continuation, Client.persist_session, Client.setAuthToken; confine.
Qed.

Lemma offline_clearAuthData : respects (tenant this) offline (Client.clearAuthData this).
Proof. unfold Client.clearAuthData. confine. Qed.

Lemma offline_getAuthToken : respects (tenant this) offline (Client.getAuthToken this).
Proof. unfold Client.getAuthToken. confine. Qed.

Lemma offline_setAuthToken token :
  respects (tenant this) offline (Client.setAuthToken this token).
Proof. unfold Client.setAuthToken. confine. Qed.

Lemma offline_getCurrentCustomer :
  respects (tenant this) offline (Client.getCurrentCustomer this).
Proof. unfold Client.getCurrentCustomer. confine. Qed.

Lemma offline_isAuthenticated : respects (tenant this) offline (Client.isAuthenticated this).
Proof.
  unfold Client.isAuthenticated, Client.getAuthToken, Client.getCurrentCustomer. confine.
Qed.

Lemma requests_answered rejected config w :
  exists new, extends w (answered this rejected config w) new /\ requests new = [config].
Proof.
  eexists. split; [apply answered_extends |].
  destruct (has_window w), rejected; done.
Qed.

Lemma invoke_requests c w :
  exists new, extends w (snd (invoke this c w)) new /\ requests new = [sent this c w].
Proof.
  rewrite invoke_eq. simpl.
  destruct (requests_answered (unauthorized this (head (network w))) (sent this c w) w)
    as (new1 & Hext1 & Hreq1).
  destruct (Client.settle this (head (network w))) as [r | e]; [| by exists new1].
  destruct (offline_continuation c r
              (answered this (unauthorized this (head (network w))) (sent this c w) w))
    as [_ (newk & Hk & Hoff)].
  apply offline_requests in Hoff.
  exists (newk ++ new1)%list. split.
  - destruct (continuation this c r _) as [[v | e] w2]; simpl in *;
      unfold extends in *; by rewrite Hk, Hext1, app_assoc.
  - by rewrite requests_app, Hoff, Hreq1.
Qed.

Lemma logout_requests w :
  exists new,
    extends w (snd (Client.logout this w)) new /\
    requests new = [outgoing this "post" "/portal/auth/logout/" JUndefined w].
Proof.
  rewrite logout_eq. simpl.
  destruct (requests_answered (unauthorized this (head (network w)))
              (outgoing this "post" "/portal/auth/logout/" JUndefined w) w)
    as (new1 & Hext1 & Hreq1).
  destruct (offline_clearAuthData
              (answered this (unauthorized this (head (network w)))
                 (outgoing this "post" "/portal/auth/logout/" JUndefined w) w))
    as [_ (newk & Hk & Hoff)].
  apply offline_requests in Hoff.
  exists (newk ++ new1)%list. split.
  - unfold extends in *. by rewrite Hk, Hext1, app_assoc.
  - by rewrite requests_app, Hoff, Hreq1.
Qed.

Lemma sent_shape c w :
  req_method (sent this c w) = fst (fst (request_of c)) /\
  req_url (sent this c w) = baseURL this +:+ snd (fst (request_of c)) /\
  req_data (sent this c w) = snd (request_of c) /\
  req_headers (sent this c w) =
    match cookies w !! Client.token_key (tenant this) with
    | Some token =>
        if String.eqb (cookie_value token) ""
        then [("Content-Type", "application/json")]
        else [("Content-Type", "application/json");
              ("Authorization", "Bearer " +:+ cookie_value token)]
    | None => [("Content-Type", "application/json")]
    end.
Proof.
  unfold sent. destruct (request_of c) as [[method path] data]. unfold outgoing. simpl.
  repeat split.
  destruct (cookies w !! Client.token_key (tenant this)) as [token |]; simpl; [| done].
  by destruct (String.eqb (cookie_value token) "").
Qed.

End Requests.

(** X2.  Every network operation of the client, [logout] included, sends
    exactly one request, whatever the network answers; the methods that only
    touch the session ([getAuthToken], [setAuthToken], [clearAuthData],
    [getCurrentCustomer], [isAuthenticated]) send none.  The request goes to
    the client's base URL followed by the path of the operation, with the
    JSON content type, and it carries [Authorization: Bearer {token}]
    exactly when the token cookie of the tenant holds a non-empty value. *)
Theorem one_request_per_operation `{!JsonCodec} (this : ApiClient) (w : world) :
  (forall c, exists new,
      extends w (snd (invoke this c w)) new /\ requests new = [sent this c w]) /\
  (exists new,
      extends w (snd (Client.logout this w)) new /\
      requests new = [outgoing this "post" "/portal/auth/logout/" JUndefined w]) /\
  (forall m,
      match m with Network _ | Logout => False | _ => True end ->
      exists new, extends w (effect this m w) new /\ requests new = []) /\
  (forall c,
      req_method (sent this c w) = fst (fst (request_of c)) /\
      req_url (sent this c w) = baseURL this +:+ snd (fst (request_of c)) /\
      req_data (sent this c w) = snd (request_of c) /\
      req_headers (sent this c w) =
        match cookies w !! Client.token_key (tenant this) with
        | Some token =>
            if String.eqb (cookie_value token) ""
            then [("Content-Type", "application/json")]
            else [("Content-Type", "application/json");
                  ("Authorization", "Bearer " +:+ cookie_value token)]
        | None => [("Content-Type", "application/json")]
        end).
Proof.
  split; [intros c; apply invoke_requests |].
  split; [apply logout_requests |].
  split; [| intros c; apply sent_shape].
  intros m Hm.
  assert (Hoff : exists new, extends w (effect this m w) new /\ Forall offline new).
  { destruct m; simpl in *; try done.
    - apply (offline_getAuthToken this w).
    - apply (offline_setAuthToken this token w).
    - apply (offline_clearAuthData this w).
    - apply (offline_getCurrentCustomer this w).
    - apply (offline_isAuthenticated this w). }
  destruct Hoff as (new & Hext & Hoff). exists new. split; [done |].
  by apply offline_requests.
Qed.

(** The theorem at [isAuthenticated] in a signed-in browser: two cookie
    reads, no request. *)
Lemma one_request_per_operation_witness :
  let w := Sample.browser Sample.two_sessions [] in
  exists new,
    extends w (effect (H := ModelJSON.codec) Sample.demo_client IsAuthenticated w) new /\
    requests new = [].
Proof.
  intros w.
  apply (proj1 (proj2 (proj2 (one_request_per_operation (H := ModelJSON.codec)
                                Sample.demo_client w))) IsAuthenticated).
  exact I.
Defined.

(** ** The token cookie *)

Section Token.
Variable this : ApiClient.

Lemma setAuthToken_cookies token text w :
  window w <> None ->
  ToString token = Some text ->
  fst (Client.setAuthToken this token w) = Normal tt /\
  cookies (snd (Client.setAuthToken this token w)) =
    <[Client.token_key (tenant this) :=
        {| cookie_value := text;
           cookie_attrs := Client.session_attributes (NODE_ENV w) |}]> (cookies w).
Proof.
  intros Hw Ht. destruct w as [[[h jar] |] env net tr]; [| done].
  unfold_client. simpl. by rewrite Ht.
Qed.

Lemma setAuthToken_raises token w :
  window w <> None ->
  ToString token = None ->
  Client.setAuthToken this token w = (Throw (TypeError cannot_convert), w).
Proof.
  intros Hw Ht. destruct w as [[[h jar] |] env net tr]; [| done].
  unfold_client. simpl. by rewrite Ht.
Qed.

Lemma getAuthToken_value w :
  fst (Client.getAuthToken this w) =
    Normal (cookie_value <$> cookies w !! Client.token_key (tenant this)).
Proof. destruct w as [[[h jar] |] env net tr]; by unfold_client. Qed.

End Token.

(** X3.  In a browser, a token that converts to a string is read back by
    [getAuthToken] as that string after [setAuthToken] has stored it: the
    write returns, replaces the token cookie of the tenant, with a 7-day
    expiry, strict same-site and [secure] exactly in production, and leaves
    every other cookie alone, the cached customer included.  The next
    request carries the token when it is not empty, and [clearAuthData]
    removes it again.  A token that has no string (an object with a property
    [toString], which the untyped [access_token] of a reply can be) makes
    [setAuthToken] raise the engine's [TypeError] and leave the world as it
    is. *)
Theorem token_round_trip (this : ApiClient) (token : jsval) (w : world) :
  window w <> None ->
  let w' := snd (Client.setAuthToken this token w) in
  (forall text,
      ToString token = Some text ->
      fst (Client.setAuthToken this token w) = Normal tt /\
      fst (Client.getAuthToken this w') = Normal (Some text) /\
      cookies w' !! Client.token_key (tenant this) =
        Some {| cookie_value := text;
                cookie_attrs := {| attr_expires := 7;
                                   attr_secure := String.eqb (NODE_ENV w) "production";
                                   attr_sameSite := "strict" |} |} /\
      (forall k, k <> Client.token_key (tenant this) -> cookies w' !! k = cookies w !! k) /\
      (text <> "" ->
       forall c, req_headers (sent this c w') =
                   [("Content-Type", "application/json");
                    ("Authorization", "Bearer " +:+ text)]) /\
      fst (Client.getAuthToken this (snd (Client.clearAuthData this w'))) = Normal None) /\
  (ToString token = None ->
   Client.setAuthToken this token w = (Throw (TypeError cannot_convert), w)).
Proof.
  intros Hw w'. split; [| by apply setAuthToken_raises].
  intros text Ht.
  destruct (setAuthToken_cookies this token text w Hw Ht) as [Hret Hcookies].
  assert (Hjar : cookies w' !! Client.token_key (tenant this) =
                 Some {| cookie_value := text;
                         cookie_attrs := Client.session_attributes (NODE_ENV w) |}).
  { unfold w'. rewrite Hcookies. apply lookup_insert_eq. }
  split; [done |].
  split; [by rewrite getAuthToken_value, Hjar |].
  split; [done |].
  split.
  { intros k Hk. unfold w'. rewrite Hcookies. by apply lookup_insert_ne. }
  split.
  { intros Hne c. destruct (sent_shape this c w') as (_ & _ & _ & ->).
    rewrite Hjar. simpl. apply String.eqb_neq in Hne. by rewrite Hne. }
  rewrite getAuthToken_value.
  destruct (clearAuthData_signs_out this w') as [-> _]. done.
Qed.

(** The theorem at a token stored in a fresh browser. *)
Lemma token_round_trip_witness :
  fst (Client.getAuthToken Sample.demo_client
         (snd (Client.setAuthToken Sample.demo_client (JStr "tok-1") (Sample.browser [] []))))
  = Normal (Some "tok-1").
Proof.
  refine (proj1 (proj2 (proj1 (token_round_trip Sample.demo_client (JStr "tok-1")
                                 (Sample.browser [] []) _) "tok-1" eq_refl))).
  discriminate.
Defined.

(** ** Cookie attributes *)

Section Stamping.
Variable env : string.

Lemma stamping_ret {A} (a : A) : stamping env (ret a).
Proof. intros w Hw. split; [done |]. exists []. by split. Qed.

Lemma stamping_throw {A} e : stamping env (@throw world A e).
Proof. intros w Hw. split; [done |]. exists []. by split. Qed.

Lemma stamping_member v k : stamping env (@member world v k).
Proof.
  intros w Hw. unfold member.
  destruct (get_prop v k); (split; [done |]); exists []; by split.
Qed.

Lemma stamping_window_defined : stamping env window_defined.
Proof. intros w Hw. split; [done |]. exists []. by split. Qed.

Lemma stamping_new_Error v : stamping env (@new_Error world v).
Proof.
  intros w Hw. unfold new_Error, to_string, bind.
  destruct v; try destruct (ToString _); (split; [done |]); exists []; by split.
Qed.

Lemma stamping_bind {A B} (m : M world A) (k : A -> M world B) :
  stamping env m -> (forall a, stamping env (k a)) -> stamping env (bind m k).
Proof.
  intros Hm Hk w Hw. unfold bind. destruct (Hm w Hw) as [He (n1 & E1 & S1)].
  destruct (m w) as [[a | e] w']; simpl in *; [| by eauto].
  destruct (Hk a w' He) as [He' (n2 & E2 & S2)]. split; [done |].
  exists (n2 ++ n1)%list. split; [| by apply Forall_app].
  unfold extends in *. by rewrite E2, E1, app_assoc.
Qed.

(** Reading [NODE_ENV] yields the environment the run started in. *)
Lemma stamping_bind_env {B} (k : string -> M world B) :
  stamping env (k env) -> stamping env (bind process_env_NODE_ENV k).
Proof. intros Hk w Hw. unfold bind, process_env_NODE_ENV. rewrite Hw. by apply Hk. Qed.

Lemma stamping_try_catch {A} (m : M world A) (h : js_error -> M world A) :
  stamping env m -> (forall e, stamping env (h e)) -> stamping env (try_catch m h).
Proof.
  intros Hm Hh w Hw. unfold try_catch. destruct (Hm w Hw) as [He (n1 & E1 & S1)].
  destruct (m w) as [[a | e] w']; simpl in *; [by eauto |].
  destruct (Hh e w' He) as [He' (n2 & E2 & S2)]. split; [done |].
  exists (n2 ++ n1)%list. split; [| by apply Forall_app].
  unfold extends in *. by rewrite E2, E1, app_assoc.
Qed.

Lemma stamping_try_finally {A} (m : M world A) (f : M world unit) :
  stamping env m -> stamping env f -> stamping env (try_finally m f).
Proof.
  intros Hm Hf w Hw. unfold try_finally. destruct (Hm w Hw) as [He (n1 & E1 & S1)].
  destruct (m w) as [c w']; simpl in *.
  destruct (Hf w' He) as [He' (n2 & E2 & S2)].
  assert (Hboth : NODE_ENV (snd (f w')) = env /\
                  exists new, extends w (snd (f w')) new /\ Forall (stamped env) new).
  { split; [done |]. exists (n2 ++ n1)%list. split; [| by apply Forall_app].
    unfold extends in *. by rewrite E2, E1, app_assoc. }
  by destruct (f w') as [[[] | e] w''].
Qed.

Lemma stamping_event {A} (m : M world A) e :
  stamped env e ->
  (forall w, NODE_ENV (snd (m w)) = NODE_ENV w /\
             (trace (snd (m w)) = e :: trace w \/ trace (snd (m w)) = trace w)) ->
  stamping env m.
Proof.
  intros He Hm w Hw. destruct (Hm w) as [Hn [Ht | Ht]].
  - split; [by rewrite Hn |]. exists [e]. split; [done | by repeat constructor].
  - split; [by rewrite Hn |]. exists []. by split.
Qed.

Lemma stamping_Cookies_get k : stamping env (Cookies_get k).
Proof.
  apply (stamping_event _ (CookieRead k)); [done |].
  intros w. unfold Cookies_get. destruct (window w); simpl; auto.
Qed.

Lemma stamping_Cookies_set k v :
  stamping env (Cookies_set k v (Client.session_attributes env)).
Proof.
  intros w Hw. unfold Cookies_set.
  destruct (window w); simpl; [| split; [done |]; exists []; by split].
  destruct (ToString v) as [text |]; simpl.
  - split; [done |]. eexists [_]. split; [done |]. by repeat constructor.
  - split; [done |]. exists []. by split.
Qed.

Lemma stamping_Cookies_remove k : stamping env (Cookies_remove k).
Proof.
  apply (stamping_event _ (CookieRemove k)); [done |].
  intros w. unfold Cookies_remove. destruct (window w); simpl; auto.
Qed.

Lemma stamping_navigate url : stamping env (navigate url).
Proof. apply (stamping_event _ (Navigate url)); [done |]. intros w. simpl. auto. Qed.

Lemma stamping_dispatch this config : stamping env (Client.dispatch this config).
Proof.
  apply (stamping_event _ (HttpRequest config)); [done |]. intros w. simpl. auto.
Qed.

End Stamping.

#[local] Hint Resolve stamping_ret stamping_throw stamping_member stamping_new_Error
  stamping_window_defined stamping_Cookies_get stamping_Cookies_set stamping_Cookies_remove stamping_navigate
  stamping_dispatch : confine.

Ltac stamp :=
  repeat first
    [ progress auto with confine
    | match goal with
      | |- stamping _ (bind process_env_NODE_ENV _) => apply stamping_bind_env
      | |- stamping _ (bind _ _) => apply stamping_bind; [| intros ?]
      | |- stamping _ (try_catch _ _) => apply stamping_try_catch; [| intros ?]
      | |- stamping _ (try_finally _ _) => apply stamping_try_finally
      | |- stamping _ (if ?b then _ else _) => destruct b
      | |- stamping _ (match ?x with _ => _ end) => destruct x
      end ].

Section Stamped.
Context `{!JsonCodec}.
Variables (this : ApiClient) (env : string).

Lemma stamping_method m :
  stamping env (fun w => (Normal tt, effect this m w)).
Proof.
  assert (Hwrap : forall A (p : M world A),
             stamping env p -> stamping env (fun w => (Normal tt, snd (p w))))
    by (intros A p Hp w Hw; apply Hp, Hw).
  destruct m as [c | | | token | | |]; simpl; apply Hwrap.
  - destruct c; simpl;
      unfold Client.login, Client.register, Client.forgotPassword, Client.getDashboard,
        Client.getProfile, Client.updateProfile, Client.getServiceRequests,
        Client.getServiceRequest, Client.createServiceRequest, Client.addComment,
        Client.client_get, Client.client_post, Client.client_put, Client.client_request,
        Client.request_interceptor, Client.response_interceptor, Client.persist_session,
        Client.setAuthToken, Client.getAuthToken, Client.clearAuthData, Client.normalized;
      stamp.
  - unfold Client.logout, Client.client_post, Client.client_request,
      Client.request_interceptor, Client.response_interceptor, Client.getAuthToken,
      Client.clearAuthData; stamp.
  - unfold Client.getAuthToken; stamp.
  - unfold Client.setAuthToken; stamp.
  - unfold Client.clearAuthData; stamp.
  - unfold Client.getCurrentCustomer; stamp.
  - unfold Client.isAuthenticated, Client.getAuthToken, Client.getCurrentCustomer; stamp.
Qed.

End Stamped.

(** X4.  Whatever method of the client runs, in whatever world, every cookie
    it writes expires after 7 days, is strict same-site, and is [secure]
    exactly when [NODE_ENV] is [production]; [NODE_ENV] itself is never
    changed. *)
Theorem cookies_written_with_session_attributes `{!JsonCodec}
    (this : ApiClient) (m : method) (w : world) :
  NODE_ENV (effect this m w) = NODE_ENV w /\
  exists new,
    extends w (effect this m w) new /\
    Forall (fun e => forall name c,
                e = CookieWrite name c ->
                attr_expires (cookie_attrs c) = 7 /\
                attr_sameSite (cookie_attrs c) = "strict" /\
                attr_secure (cookie_attrs c) = String.eqb (NODE_ENV w) "production") new.
Proof.
  destruct (stamping_method this (NODE_ENV w) m w eq_refl) as [Henv (new & Hext & Hst)].
  split; [done |]. exists new. split; [done |].
  eapply Forall_impl; [exact Hst |].
  intros e He name c ->. simpl in He. by rewrite He.
Qed.

(** ** What login and register persist *)

Section Persist.
Context `{!JsonCodec}.
Variable this : ApiClient.

Lemma persist_session_cookies body w :
  window w <> None ->
  cookies (snd (Client.persist_session this body w)) =
    persisted this body (NODE_ENV w) (cookies w).
Proof.
  intros Hw. destruct w as [[[h jar] |] env net tr]; [| done].
  unfold persisted, get_prop_opt, cookies. unfold_client. simpl.
  destruct body as [| | b | n | s | items | fields]; simpl; try done.
  destruct (truthy (obj_get fields "success")) eqn:Hs; simpl; rewrite ?Hs; simpl; [| done].
  destruct (obj_get fields "tokens") as [| | b | n | s | items | tokens] eqn:Ht;
    simpl; try done.
  - destruct b; simpl; by rewrite ?ToString_js_of_text.
  - destruct (n =? 0); simpl; by rewrite ?ToString_js_of_text.
  - destruct (String.eqb s ""); simpl; by rewrite ?ToString_js_of_text.
  - by rewrite ToString_js_of_text.
  - destruct (ToString (obj_get tokens "access_token")); simpl;
      by rewrite ?ToString_js_of_text.
Qed.

Lemma snd_guarded {A} (x : completion A * world) (f : js_error -> js_error) :
  snd (match x with
       | (Normal a, w2) => (Normal a, w2)
       | (Throw e, w2) => (Throw (f e), w2)
       end) = snd x.
Proof. by destruct x as [[a | e] w2]. Qed.

Lemma continuation_session_eq c r w :
  match c with Login _ | Register _ => True | _ => False end ->
  snd (continuation this c r w) = snd (Client.persist_session this (resp_data r) w).
Proof.
  intros Hc. destruct c; try done; unfold continuation, bind, ret;
    by destruct (Client.persist_session this (resp_data r) w) as [[[] | e] w2].
Qed.

(** The jar after [login] or [register], in closed form. *)
Lemma session_call_cookies c w :
  match c with Login _ | Register _ => True | _ => False end ->
  cookies (snd (invoke this c w)) =
    match Client.settle this (head (network w)) with
    | Normal r =>
        if has_window w
        then persisted this (resp_data r) (NODE_ENV w) (cookies w)
        else cookies w
    | Throw e =>
        if Client.is_unauthorized e
        then delete (Client.customer_key (tenant this))
               (delete (Client.token_key (tenant this)) (cookies w))
        else cookies w
    end.
Proof.
  intros Hc. rewrite invoke_eq. simpl.
  pose proof (unauthorized_settle this (head (network w))) as Hu.
  destruct (Client.settle this (head (network w))) as [r | e]; rewrite Hu.
  - rewrite snd_guarded, continuation_session_eq by done.
    destruct (window w) as [win |] eqn:Hw.
    + assert (Hbrowser : has_window w = true) by (unfold has_window; by rewrite Hw).
      rewrite Hbrowser, persist_session_cookies.
      * by rewrite cookies_answered.
      * unfold answered. simpl. by rewrite Hw.
    + assert (Hserver : has_window w = false) by (unfold has_window; by rewrite Hw).
      rewrite Hserver. rewrite <- (continuation_session_eq c) by done.
      rewrite continuation_server; [apply cookies_answered |].
      unfold answered. simpl. by rewrite Hw.
  - simpl. unfold cookies, answered. simpl.
    destruct (window w) as [[h jar] |]; simpl; by destruct (unauthorized this _).
Qed.

(** What the block that persists the session hands back: it raises where
    the body has no properties, and where the access token it is to store
    has no string. *)
Lemma persist_session_result body w :
  fst (Client.persist_session this body w) =
    match get_prop body "success" with
    | Some success =>
        if truthy success && truthy (get_prop_opt body "tokens") && has_window w
        then match ToString (get_prop_opt (get_prop_opt body "tokens") "access_token") with
             | Some _ => Normal tt
             | None => Throw (TypeError cannot_convert)
             end
        else Normal tt
    | None => Throw (TypeError (cannot_read body "success"))
    end.
Proof.
  destruct w as [[[h jar] |] env net tr]; unfold_client; unfold get_prop_opt, has_window; simpl;
    destruct body as [| | b | n | s | items | fields]; simpl; try done;
    destruct (truthy (obj_get fields "success")) eqn:Hs; simpl; rewrite ?Hs; simpl;
    try done;
    destruct (obj_get fields "tokens") as [| | b | n | s | items | tokens]; simpl;
    try done;
    rewrite ?andb_false_r;
    first [ destruct b | destruct (n =? 0) | destruct (String.eqb s "")
          | destruct (ToString (obj_get tokens "access_token")) | idtac ];
    simpl; by rewrite ?ToString_js_of_text.
Qed.

End Persist.

Lemma session_call_unconvertible `{!JsonCodec} this c w r :
  match c with Login _ | Register _ => True | _ => False end ->
  Client.settle this (head (network w)) = Normal r ->
  window w <> None ->
  truthy (get_prop_opt (resp_data r) "success") = true ->
  truthy (get_prop_opt (resp_data r) "tokens") = true ->
  ToString (get_prop_opt (get_prop_opt (resp_data r) "tokens") "access_token") = None ->
  fst (invoke this c w) = Throw (Error (fallback c)).
Proof.
  intros Hc Hr Hw Hs Ht Hno. rewrite invoke_eq, Hr. simpl.
  set (w1 := answered _ _ _ _).
  assert (Hw1 : has_window w1 = true)
    by (unfold w1, has_window, answered; simpl; by destruct (window w)).
  pose proof (persist_session_result this (resp_data r) w1) as Hp.
  unfold get_prop_opt in Hs. rewrite Ht, Hw1, Hno in Hp.
  destruct (get_prop (resp_data r) "success") as [success |]; [| done].
  rewrite Hs in Hp. simpl in Hp.
  assert (Hk : fst (continuation this c r w1) = Throw (TypeError cannot_convert)).
  { destruct c; try done; unfold continuation, bind;
      by destruct (Client.persist_session this (resp_data r) w1) as [[[] | e] w2];
      simpl in *; simplify_eq. }
  destruct (continuation this c r w1) as [[v | e] w2]; simpl in *; by simplify_eq.
Qed.

(** X5.  [login] and [register] leave the same cookie jar for the same
    reply.  When the reply arrives in time with a 2xx status, in a browser
    the token cookie becomes the [access_token] and the customer cookie the
    serialized [customer] of the body exactly when the body has a truthy
    [success] and a truthy [tokens] at its top level and the access token
    converts to a string, and otherwise the jar is as it was: a login that
    the backend turns down does not disturb a session already stored.  An
    access token that has no string stops the block before it writes
    anything, and the call raises its default error.  When the request fails
    the jar is unchanged, except that a 401 removes both cookies of the
    tenant. *)
Theorem login_register_cookies `{!JsonCodec} (this : ApiClient)
    (credentials : LoginCredentials) (data : RegisterData) (w : world) :
  cookies (snd (Client.login this credentials w)) =
    match Client.settle this (head (network w)) with
    | Normal r =>
        if has_window w
        then persisted this (resp_data r) (NODE_ENV w) (cookies w)
        else cookies w
    | Throw e =>
        if Client.is_unauthorized e
        then delete (Client.customer_key (tenant this))
               (delete (Client.token_key (tenant this)) (cookies w))
        else cookies w
    end /\
  cookies (snd (Client.register this data w)) = cookies (snd (Client.login this credentials w)) /\
  (forall r,
      Client.settle this (head (network w)) = Normal r ->
      window w <> None ->
      truthy (get_prop_opt (resp_data r) "success") = true ->
      truthy (get_prop_opt (resp_data r) "tokens") = true ->
      ToString (get_prop_opt (get_prop_opt (resp_data r) "tokens") "access_token") = None ->
      fst (Client.login this credentials w) = Throw (Error "Login failed") /\
      fst (Client.register this data w) = Throw (Error "Registration failed") /\
      cookies (snd (Client.login this credentials w)) = cookies w).
Proof.
  change (Client.login this credentials w) with (invoke this (Login credentials) w).
  change (Client.register this data w) with (invoke this (Register data) w).
  split; [by rewrite !session_call_cookies |].
  split; [by rewrite !session_call_cookies |].
  intros r Hr Hw Hs Ht Hno.
  split; [by apply (session_call_unconvertible this (Login credentials) w r) |].
  split; [by apply (session_call_unconvertible this (Register data) w r) |].
  rewrite session_call_cookies, Hr by done.
  unfold has_window, persisted. destruct (window w); [| done].
  by rewrite Hs, Ht, Hno.
Qed.

(** The theorem at a login whose reply carries an access token that is an
    object with a property [toString]: nothing is stored. *)
Lemma login_register_cookies_witness :
  let body := JObj [("success", JBool true);
                    ("customer", Sample.customer);
                    ("tokens", JObj [("access_token", JObj [("toString", JNull)])])] in
  let w := Sample.browser Sample.two_sessions [Reply 120 200 body] in
  fst (Client.login (H := ModelJSON.codec) Sample.demo_client Sample.credentials w)
  = Throw (Error "Login failed").
Proof.
  intros body w.
  refine (proj1 (proj2 (proj2 (login_register_cookies (H := ModelJSON.codec)
                                 Sample.demo_client Sample.credentials
                                 {| reg_email := ""; reg_phone_number := None;
                                    reg_password := ""; reg_password_confirm := "";
                                    reg_first_name := ""; reg_last_name := "";
                                    reg_property_address := ""; reg_language := None |} w))
                   {| resp_status := 200; resp_data := body |} eq_refl _ eq_refl eq_refl eq_refl)).
  discriminate.
Defined.

(** X6.  The round trip of a login whose reply carries [tokens] and
    [customer] at the top level of the body: in a browser, when the reply
    arrives in time with a 2xx status and a truthy [success], the access
    token is a non-empty string, and the engine parses the customer's JSON
    text back to the customer, then right after [login] the stored token is
    the access token, [getCurrentCustomer()] returns the customer,
    [isAuthenticated()] is true for a truthy customer, and the next request
    carries the token as bearer. *)
Theorem login_round_trip `{!JsonCodec} (this : ApiClient) (credentials : LoginCredentials)
    (w : world) (elapsed status : Z) (body tokens customer : jsval) (token text : string)
    (rest : list outcome) :
  window w <> None ->
  network w = Reply elapsed status body :: rest ->
  elapsed <= timeout this ->
  Client.validateStatus status = true ->
  truthy (get_prop_opt body "success") = true ->
  get_prop_opt body "tokens" = tokens ->
  truthy tokens = true ->
  get_prop_opt tokens "access_token" = JStr token ->
  token <> "" ->
  get_prop_opt body "customer" = customer ->
  JSON_stringify customer = Some text ->
  text <> "" ->
  JSON_parse text = Some customer ->
  let w' := snd (Client.login this credentials w) in
  fst (Client.login this credentials w) = Normal body /\
  fst (Client.getAuthToken this w') = Normal (Some token) /\
  fst (Client.getCurrentCustomer this w') = Normal customer /\
  fst (Client.isAuthenticated this w') = Normal (truthy customer) /\
  (forall c, req_headers (sent this c w') =
               [("Content-Type", "application/json");
                ("Authorization", "Bearer " +:+ token)]).
Proof.
  intros Hw Hnet Ht Hs Hsuccess Htokens Htruthy Haccess Htoken Hcustomer Hstr Htext Hparse w'.
  assert (Hhead : head (network w) = Some (Reply elapsed status body)) by (by rewrite Hnet).
  assert (Hsettle : Client.settle this (head (network w)) =
                    Normal {| resp_status := status; resp_data := body |})
    by (rewrite Hhead; by apply settle_in_time).
  assert (Hbrowser : has_window w = true) by (unfold has_window; by destruct (window w)).
  assert (Hjar : cookies w' =
                 <[Client.customer_key (tenant this) :=
                     {| cookie_value := text;
                        cookie_attrs := Client.session_attributes (NODE_ENV w) |}]>
                   (<[Client.token_key (tenant this) :=
                        {| cookie_value := token;
                           cookie_attrs := Client.session_attributes (NODE_ENV w) |}]>
                      (cookies w))).
  { unfold w'.
    change (Client.login this credentials w) with (invoke this (Login credentials) w).
    rewrite session_call_cookies by done.
    rewrite Hsettle, Hbrowser. simpl. unfold persisted.
    by rewrite Hsuccess, Htokens, Htruthy, Haccess, Hcustomer, Hstr. }
  assert (Htk : cookies w' !! Client.token_key (tenant this) =
                Some {| cookie_value := token;
                        cookie_attrs := Client.session_attributes (NODE_ENV w) |}).
  { rewrite Hjar, lookup_insert_ne
      by (intros E; symmetry in E; by apply token_customer_key_ne in E).
    apply lookup_insert_eq. }
  assert (Hck : cookies w' !! Client.customer_key (tenant this) =
                Some {| cookie_value := text;
                        cookie_attrs := Client.session_attributes (NODE_ENV w) |})
    by (rewrite Hjar; apply lookup_insert_eq).
  apply String.eqb_neq in Htoken, Htext.
  assert (Hcust : fst (Client.getCurrentCustomer this w') = Normal customer)
    by (rewrite getCurrentCustomer_value, Hck; simpl; by rewrite Htext, Hparse).
  split.
  { change (Client.login this credentials w) with (invoke this (Login credentials) w).
    rewrite invoke_eq, Hsettle. simpl. unfold bind, ret.
    pose proof (persist_session_result this body
                  (answered this (unauthorized this (head (network w)))
                     (sent this (Login credentials) w) w)) as Hres.
    rewrite Htokens, Haccess in Hres. simpl in Hres.
    unfold get_prop_opt in Hsuccess.
    destruct (get_prop body "success") as [success |]; [| done].
    destruct (truthy success && truthy tokens && _) in Hres;
      destruct (Client.persist_session this body _) as [[[] | e] w2]; simpl in *;
      by simplify_eq. }
  split; [by rewrite getAuthToken_value, Htk |].
  split; [done |].
  split; [rewrite isAuthenticated_value, Htk, Hcust; simpl; by rewrite Htoken |].
  intros c. destruct (sent_shape this c w') as (_ & _ & _ & ->).
  rewrite Htk. simpl. by rewrite Htoken.
Qed.

(** The theorem at the sample login with [customer] and [tokens] at the top
    level of the body. *)
Lemma login_round_trip_witness :
  let w := Sample.browser [] [Reply 120 200 Sample.login_flat] in
  let w' := snd (Client.login (H := ModelJSON.codec) Sample.demo_client Sample.credentials w) in
  fst (Client.getAuthToken Sample.demo_client w') = Normal (Some "eyJhbGciOi.demo.token") /\
  fst (Client.getCurrentCustomer (H := ModelJSON.codec) Sample.demo_client w') =
    Normal Sample.customer /\
  fst (Client.isAuthenticated (H := ModelJSON.codec) Sample.demo_client w') = Normal true.
Proof.
  intros w w'.
  destruct (login_round_trip (H := ModelJSON.codec) Sample.demo_client Sample.credentials w
              120 200 Sample.login_flat Sample.tokens Sample.customer
              "eyJhbGciOi.demo.token" Sample.customer_text [])
    as (_ & Htoken & Hcustomer & Hauth & _).
  - discriminate.
  - reflexivity.
  - simpl. lia.
  - reflexivity.
  - reflexivity.
  - reflexivity.
  - reflexivity.
  - reflexivity.
  - discriminate.
  - reflexivity.
  - vm_compute. reflexivity.
  - vm_compute. discriminate.
  - vm_compute. reflexivity.
  - split; [exact Htoken |]. split; [exact Hcustomer | exact Hauth].
Defined.

(** ** Calls that do not persist *)

Section ReadOnly.
Context `{!JsonCodec}.
Variable this : ApiClient.

Lemma continuation_keeps_world c r w :
  persists c = false -> snd (continuation this c r w) = w.
Proof.
  intros Hc. destruct c; try done; unfold continuation, member, bind, ret;
    by destruct (get_prop (resp_data r) "results").
Qed.

Lemma plain_call_world c w :
  persists c = false ->
  snd (invoke this c w) =
    answered this (unauthorized this (head (network w))) (sent this c w) w.
Proof.
  intros Hc. rewrite invoke_eq. simpl.
  destruct (Client.settle this (head (network w))) as [r | e]; [| done].
  by rewrite snd_guarded, continuation_keeps_world.
Qed.

End ReadOnly.

(** X7.  The calls that do not persist a session ([forgotPassword],
    [getDashboard], [getProfile], [getServiceRequests], [getServiceRequest],
    [createServiceRequest], [addComment]) never write a cookie: whatever the
    network answers, the cookie jar after the call is the jar before it,
    except after a 401 response, which removes both cookies of the tenant;
    the call consumes exactly one outcome of the network. *)
Theorem plain_calls_keep_cookies `{!JsonCodec} (this : ApiClient) (c : call) (w : world) :
  persists c = false ->
  cookies (snd (invoke this c w)) =
    (if unauthorized this (head (network w))
     then delete (Client.customer_key (tenant this))
            (delete (Client.token_key (tenant this)) (cookies w))
     else cookies w) /\
  network (snd (invoke this c w)) = tail (network w) /\
  NODE_ENV (snd (invoke this c w)) = NODE_ENV w.
Proof.
  intros Hc. rewrite plain_call_world by done.
  split; [| done]. unfold cookies, answered. simpl.
  destruct (window w) as [[h jar] |]; simpl; by destruct (unauthorized this _).
Qed.

(** The theorem at a dashboard request that the backend answers with a 500. *)
Lemma plain_calls_keep_cookies_witness :
  let w := Sample.browser Sample.two_sessions [Reply 30 500 JNull] in
  cookies (snd (invoke (H := ModelJSON.codec) Sample.demo_client GetDashboard w)) = cookies w.
Proof.
  intros w.
  exact (proj1 (plain_calls_keep_cookies (H := ModelJSON.codec) Sample.demo_client
                  GetDashboard w eq_refl)).
Defined.

(** ** The list of service requests *)

(** X8.  [getServiceRequests] unwraps a paginated reply: when the reply
    arrives in time with a 2xx status, it returns the [results] of the body
    when the body has truthy ones (an empty array included), and the body
    itself otherwise, so that a bare array comes back as it is; a [null]
    body makes it raise its default error. *)
Theorem getServiceRequests_unwraps `{!JsonCodec} (this : ApiClient) (w : world)
    (elapsed status : Z) (body : jsval) (rest : list outcome) :
  network w = Reply elapsed status body :: rest ->
  elapsed <= timeout this ->
  Client.validateStatus status = true ->
  fst (Client.getServiceRequests this w) =
    match body with
    | JUndefined | JNull => Throw (Error "Failed to load service requests")
    | JObj fields =>
        Normal (if truthy (obj_get fields "results") then obj_get fields "results" else body)
    | _ => Normal body
    end /\
  (forall items, body = JArr items ->
                 fst (Client.getServiceRequests this w) = Normal (JArr items)) /\
  (forall fields items,
      body = JObj fields -> obj_get fields "results" = JArr items ->
      fst (Client.getServiceRequests this w) = Normal (JArr items)).
Proof.
  intros Hnet Ht Hs.
  assert (Hhead : head (network w) = Some (Reply elapsed status body)) by (by rewrite Hnet).
  assert (Hrun : fst (Client.getServiceRequests this w) =
                 match body with
                 | JUndefined | JNull => Throw (Error "Failed to load service requests")
                 | JObj fields =>
                     Normal (if truthy (obj_get fields "results")
                             then obj_get fields "results" else body)
                 | _ => Normal body
                 end).
  { change (Client.getServiceRequests this w) with (invoke this GetServiceRequests w).
    rewrite invoke_eq, Hhead, settle_in_time by done. simpl.
    unfold member, bind, ret, throw, js_or.
    destruct body as [| | b | n | s | items | fields]; try done. }
  split; [done |]. split.
  - intros items ->. done.
  - intros fields items -> Hres. by rewrite Hrun, Hres.
Qed.

(** The theorem at a paginated reply without results. *)
Lemma getServiceRequests_unwraps_witness :
  fst (Client.getServiceRequests Sample.demo_client
         (Sample.browser []
            [Reply 25 200 (JObj [("count", JNum 0); ("results", JArr [])])]))
  = Normal (JArr []).
Proof.
  refine (proj2 (proj2 (getServiceRequests_unwraps (H := ModelJSON.codec) Sample.demo_client
                          (Sample.browser []
                             [Reply 25 200 (JObj [("count", JNum 0); ("results", JArr [])])])
                          25 200 (JObj [("count", JNum 0); ("results", JArr [])]) []
                          eq_refl _ eq_refl))
            [("count", JNum 0); ("results", JArr [])] [] eq_refl eq_refl).
  simpl. lia.
Defined.

(** ** After logout *)

Lemma signed_out_session `{!JsonCodec} this w :
  signed_out (tenant this) w ->
  fst (Client.getAuthToken this w) = Normal None /\
  fst (Client.getCurrentCustomer this w) = Normal JNull /\
  fst (Client.isAuthenticated this w) = Normal false /\
  (forall c, req_headers (sent this c w) = [("Content-Type", "application/json")]).
Proof.
  intros [Htk Hck].
  assert (Hcust : fst (Client.getCurrentCustomer this w) = Normal JNull)
    by (by rewrite getCurrentCustomer_value, Hck).
  split; [by rewrite getAuthToken_value, Htk |].
  split; [done |].
  split; [by rewrite isAuthenticated_value, Htk |].
  intros c. destruct (sent_shape this c w) as (_ & _ & _ & ->). by rewrite Htk.
Qed.

(** X9.  After [logout], whatever the server answered and whatever the jar
    held, the client has no session left: [getAuthToken] returns nothing,
    [getCurrentCustomer] returns null, [isAuthenticated] is false, and the
    next request of the client carries no [Authorization] header. *)
Theorem logout_ends_session `{!JsonCodec} (this : ApiClient) (w : world) :
  let w' := snd (Client.logout this w) in
  fst (Client.logout this w) = Normal tt /\
  fst (Client.getAuthToken this w') = Normal None /\
  fst (Client.getCurrentCustomer this w') = Normal JNull /\
  fst (Client.isAuthenticated this w') = Normal false /\
  (forall c, req_headers (sent this c w') = [("Content-Type", "application/json")]).
Proof.
  intros w'. split; [by rewrite logout_eq |].
  apply signed_out_session, logout_signs_out.
Qed.

(** ** The updated profile *)

(** X10.  The round trip of a profile update: in a browser, when the reply
    arrives in time with a 2xx status and a truthy [success], and the engine
    parses the JSON text of the returned data back to that data, then
    [getCurrentCustomer()] right after [updateProfile] returns the returned
    data, while the token cookie, and with it the bearer of later requests,
    is what it was. *)
Theorem updateProfile_round_trip `{!JsonCodec} (this : ApiClient) (data : jsval)
    (w : world) (elapsed status : Z) (body returned : jsval) (text : string)
    (rest : list outcome) :
  window w <> None ->
  network w = Reply elapsed status body :: rest ->
  elapsed <= timeout this ->
  Client.validateStatus status = true ->
  truthy (get_prop_opt body "success") = true ->
  get_prop_opt body "data" = returned ->
  JSON_stringify returned = Some text ->
  text <> "" ->
  JSON_parse text = Some returned ->
  let w' := snd (Client.updateProfile this data w) in
  fst (Client.updateProfile this data w) = Normal body /\
  fst (Client.getCurrentCustomer this w') = Normal returned /\
  fst (Client.getAuthToken this w') = fst (Client.getAuthToken this w) /\
  (forall c, req_headers (sent this c w') = req_headers (sent this c w)).
Proof.
  intros Hw Hnet Ht Hs Hsuccess Hdata Hstr Htext Hparse w'.
  assert (Hhead : head (network w) = Some (Reply elapsed status body)) by (by rewrite Hnet).
  assert (Hsettle : Client.settle this (head (network w)) =
                    Normal {| resp_status := status; resp_data := body |})
    by (rewrite Hhead; by apply settle_in_time).
  assert (Hbrowser : has_window w = true) by (unfold has_window; by destruct (window w)).
  assert (Hjar : cookies w' =
                 <[Client.customer_key (tenant this) :=
                     {| cookie_value := text;
                        cookie_attrs := Client.session_attributes (NODE_ENV w) |}]>
                   (cookies w)).
  { unfold w'. rewrite updateProfile_cookies, Hsettle. simpl.
    by rewrite Hsuccess, Hbrowser, Hdata, Hstr. }
  assert (Htk : cookies w' !! Client.token_key (tenant this) =
                cookies w !! Client.token_key (tenant this)).
  { rewrite Hjar. apply lookup_insert_ne.
    intros E. symmetry in E. by apply token_customer_key_ne in E. }
  apply String.eqb_neq in Htext.
  split.
  { rewrite updateProfile_result, Hsettle. simpl.
    unfold get_prop_opt in Hsuccess. by destruct (get_prop body "success"). }
  split.
  { rewrite getCurrentCustomer_value, Hjar, lookup_insert_eq. simpl.
    by rewrite Htext, Hparse. }
  split; [by rewrite !getAuthToken_value, Htk |].
  intros c. destruct (sent_shape this c w') as (_ & _ & _ & ->).
  destruct (sent_shape this c w) as (_ & _ & _ & ->). by rewrite Htk.
Qed.

(** The theorem at a profile update of the signed-in sample customer. *)
Lemma updateProfile_round_trip_witness :
  let w := Sample.browser Sample.two_sessions
             [Reply 60 200 (JObj [("success", JBool true); ("data", Sample.customer)])] in
  fst (Client.getCurrentCustomer (H := ModelJSON.codec) Sample.demo_client
         (snd (Client.updateProfile (H := ModelJSON.codec) Sample.demo_client
                 (JObj [("language", JStr "en")]) w)))
  = Normal Sample.customer.
Proof.
  intros w.
  refine (proj1 (proj2 (updateProfile_round_trip (H := ModelJSON.codec) Sample.demo_client
                          (JObj [("language", JStr "en")]) w 60 200
                          (JObj [("success", JBool true); ("data", Sample.customer)])
                          Sample.customer Sample.customer_text []
                          _ eq_refl _ eq_refl eq_refl eq_refl _ _ _))).
  - discriminate.
  - simpl. lia.
  - vm_compute. reflexivity.
  - vm_compute. discriminate.
  - vm_compute. reflexivity.
Defined.

(** ** The store and the storage *)

Section Reads.
Context `{!JsonCodec}.
Variable this : ApiClient.

(** Reading the session changes nothing but the trace. *)
Lemma getCurrentCustomer_reads w :
  let w' := snd (Client.getCurrentCustomer this w) in
  window w' = window w /\ NODE_ENV w' = NODE_ENV w /\ network w' = network w.
Proof.
  destruct w as [[[h jar] |] env net tr]; unfold_client; simpl; [| done].
  destruct (jar !! Client.customer_key (tenant this)) as [c |]; simpl; [| done].
  destruct (String.eqb (cookie_value c) ""); simpl; [done |].
  by destruct (JSON_parse (cookie_value c)).
Qed.

Lemma isAuthenticated_reads w :
  let w' := snd (Client.isAuthenticated this w) in
  window w' = window w /\ NODE_ENV w' = NODE_ENV w /\ network w' = network w.
Proof.
  destruct w as [[[h jar] |] env net tr]; unfold_client; simpl; [| done].
  destruct (jar !! Client.token_key (tenant this)) as [tok |]; simpl; [| done].
  destruct (String.eqb (cookie_value tok) ""); simpl; [done |].
  destruct (jar !! Client.customer_key (tenant this)) as [c |]; simpl; [| done].
  destruct (String.eqb (cookie_value c) ""); simpl; [done |].
  by destruct (JSON_parse (cookie_value c)).
Qed.

End Reads.

Section Load.
Context `{!JsonCodec}.
Variables (tenant : string) (s : AuthState) (w : world).

Lemma store_load_eq :
  let api := Client.new_client tenant w in
  let w1 := snd (Client.getCurrentCustomer api w) in
  Store.loadCustomerFromStorage tenant (s, w) =
    (Normal tt,
     ({| customer := match fst (Client.getCurrentCustomer api w) with
                     | Normal c => c
                     | Throw _ => JNull
                     end;
         loading := false;
         error := error s;
         isAuthenticated := match fst (Client.isAuthenticated api w1) with
                            | Normal b => b
                            | Throw _ => false
                            end |},
      snd (Client.isAuthenticated api w1))).
Proof.
  intros api w1. unfold_store. simpl. fold api.
  pose proof (getCurrentCustomer_value api w) as Hc.
  destruct (Client.getCurrentCustomer api w) as [[c | e] w1'] eqn:E1; simpl in *; [| done].
  subst w1. simpl.
  pose proof (isAuthenticated_value api w1') as Hb.
  by destruct (Client.isAuthenticated api w1') as [[b | e] w2]; simpl in *.
Qed.

End Load.

(** X11.  [loadCustomerFromStorage] initializes the store from the cookies of
    the tenant without talking to the network: it never raises, sends no
    request and consumes no network outcome, leaves the window (the cookie
    jar with it) and [NODE_ENV] as they are, keeps the error, and ends not
    loading with the customer [getCurrentCustomer()] returns and the
    [isAuthenticated] flag of the client.  So the store is authenticated
    after it only if it holds a truthy customer and the token cookie is not
    empty, and never outside a browser. *)
Theorem load_mirrors_storage `{!JsonCodec} (t : string) (s : AuthState) (w : world) :
  let api := Client.new_client t w in
  let run := Store.loadCustomerFromStorage t (s, w) in
  let s' := fst (snd run) in
  let w' := snd (snd run) in
  fst run = Normal tt /\
  Normal (customer s') = fst (Client.getCurrentCustomer api w) /\
  Normal (isAuthenticated s') = fst (Client.isAuthenticated api w) /\
  loading s' = false /\
  error s' = error s /\
  (window w' = window w /\ NODE_ENV w' = NODE_ENV w /\ network w' = network w) /\
  (exists new, extends w w' new /\ requests new = []) /\
  (isAuthenticated s' = true ->
   truthy (customer s') = true /\
   exists token, cookies w !! Client.token_key t = Some token /\
                 cookie_value token <> "") /\
  (window w = None -> isAuthenticated s' = false /\ customer s' = JNull).
Proof.
  intros api run s' w'. unfold s', w', run. rewrite store_load_eq. simpl. fold api.
  set (w1 := snd (Client.getCurrentCustomer api w)).
  destruct (getCurrentCustomer_reads api w) as (Hw1 & He1 & Hn1). fold w1 in Hw1, He1, Hn1.
  destruct (isAuthenticated_reads api w1) as (Hw2 & He2 & Hn2).
  assert (Hjar : cookies w1 = cookies w) by (unfold cookies; by rewrite Hw1).
  assert (Hauth : fst (Client.isAuthenticated api w1) = fst (Client.isAuthenticated api w)).
  { rewrite !isAuthenticated_value, !getCurrentCustomer_value. by rewrite Hjar. }
  rewrite Hauth.
  pose proof (isAuthenticated_value api w) as Hb.
  pose proof (getCurrentCustomer_value api w) as Hc.
  split; [done |].
  split; [by rewrite Hc |].
  split; [by rewrite Hb |].
  split; [done |]. split; [done |].
  split; [by rewrite Hw2, He2, Hn2 |].
  split.
  { destruct (offline_getCurrentCustomer api w) as [_ (n1 & E1 & O1)]. fold w1 in E1.
    destruct (offline_isAuthenticated api w1) as [_ (n2 & E2 & O2)].
    exists (n2 ++ n1)%list. split.
    - unfold extends in *. by rewrite E2, E1, app_assoc.
    - rewrite requests_app. by rewrite (offline_requests n1), (offline_requests n2). }
  split.
  { rewrite Hb, Hc. simpl. intros Hboth. apply andb_prop in Hboth as [Htok Hcust].
    split; [done |]. change (tenant api) with t in Htok.
    destruct (cookies w !! Client.token_key t) as [token |]; [| done].
    exists token. split; [done |]. simpl in Htok. intros E. rewrite E in Htok.
    discriminate Htok. }
  intros Hserver. rewrite Hb, Hc. unfold cookies. rewrite Hserver. done.
Qed.

(** The theorem at a server-side render. *)
Lemma load_mirrors_storage_witness :
  isAuthenticated
    (fst (snd (Store.loadCustomerFromStorage (H := ModelJSON.codec) "demo"
                 (Store.initial, Sample.server [])))) = false.
Proof.
  refine (proj1 (proj2 (proj2 (proj2 (proj2 (proj2 (proj2 (proj2 (proj2
            (load_mirrors_storage (H := ModelJSON.codec) "demo" Store.initial
               (Sample.server []))))))))) _)).
  reflexivity.
Defined.

(** ** What the store's actions leave behind *)

Section StoreInvariants.
Context `{!JsonCodec}.
Variables (t : string) (s : AuthState) (w : world).

Lemma store_login_success credentials :
  fst (Store.login credentials t (s, w)) = Normal tt ->
  exists body w',
    Client.login (Client.new_client t w) credentials w = (Normal body, w') /\
    truthy (get_prop_opt body "success") = true /\
    Store.login credentials t (s, w) =
      (Normal tt,
       ({| customer := get_prop_opt (get_prop_opt body "data") "customer";
           loading := false; error := None; isAuthenticated := true |}, w')).
Proof.
  unfold_store. unfold get_prop_opt. simpl.
  destruct (Client.login _ _ _) as [[body | e] w']; simpl; [| done].
  intros Hrun. exists body, w'. split; [done |].
  destruct (get_prop body "success") as [success |]; simpl in *; [| done].
  destruct (truthy success); simpl in *.
  - destruct (get_prop body "data") as [data |]; simpl in *; [| done].
    by destruct (get_prop data "customer").
  - destruct (get_prop body "message") as [message |]; simpl; [| done].
    rewrite new_Error_or in Hrun. by destruct (ToString _).
Qed.

Lemma store_register_success data :
  fst (Store.register data t (s, w)) = Normal tt ->
  exists body w',
    Client.register (Client.new_client t w) data w = (Normal body, w') /\
    truthy (get_prop_opt body "success") = true /\
    Store.register data t (s, w) =
      (Normal tt,
       ({| customer := get_prop_opt (get_prop_opt body "data") "customer";
           loading := false; error := None; isAuthenticated := true |}, w')).
Proof.
  unfold_store. unfold get_prop_opt. simpl.
  destruct (Client.register _ _ _) as [[body | e] w']; simpl; [| done].
  intros Hrun. exists body, w'. split; [done |].
  destruct (get_prop body "success") as [success |]; simpl in *; [| done].
  destruct (truthy success); simpl in *.
  - destruct (get_prop body "data") as [d |]; simpl in *; [| done].
    by destruct (get_prop d "customer").
  - destruct (get_prop body "message") as [message |]; simpl; [| done].
    rewrite new_Error_or in Hrun. by destruct (ToString _).
Qed.

Lemma store_login_iff credentials :
  (fst (Store.login credentials t (s, w)) = Normal tt <->
   isAuthenticated (fst (snd (Store.login credentials t (s, w)))) = true) /\
  (fst (Store.login credentials t (s, w)) = Normal tt <->
   error (fst (snd (Store.login credentials t (s, w)))) = None).
Proof.
  pose proof (store_login_outcome t s w credentials) as Ho.
  destruct (Store.login credentials t (s, w)) as [[[] | e] [s' w']]; simpl in *.
  - destruct Ho as (He & Hl & Ha). by repeat split.
  - subst s'. by repeat split.
Qed.

Lemma store_register_iff data :
  (fst (Store.register data t (s, w)) = Normal tt <->
   isAuthenticated (fst (snd (Store.register data t (s, w)))) = true) /\
  (fst (Store.register data t (s, w)) = Normal tt <->
   error (fst (snd (Store.register data t (s, w)))) = None).
Proof.
  pose proof (store_register_outcome t s w data) as Ho.
  destruct (Store.register data t (s, w)) as [[[] | e] [s' w']]; simpl in *.
  - destruct Ho as (He & Hl & Ha). by repeat split.
  - subst s'. by repeat split.
Qed.

End StoreInvariants.

(** X12.  No action leaves the store loading: whatever the state it starts
    in and whatever the network does, after [login], [register], [logout],
    [forgotPassword] and [loadCustomerFromStorage] the [loading] flag is
    false, whether the action returned or raised. *)
Theorem actions_stop_loading `{!JsonCodec} (t : string) (s : AuthState) (w : world)
    (credentials : LoginCredentials) (data : RegisterData) (email : string) :
  loading (fst (snd (Store.login credentials t (s, w)))) = false /\
  loading (fst (snd (Store.register data t (s, w)))) = false /\
  loading (fst (snd (Store.logout t (s, w)))) = false /\
  loading (fst (snd (Store.forgotPassword email t (s, w)))) = false /\
  loading (fst (snd (Store.loadCustomerFromStorage t (s, w)))) = false.
Proof.
  split.
  { pose proof (store_login_outcome t s w credentials) as Ho.
    destruct (Store.login credentials t (s, w)) as [[[] | e] [s' w']]; simpl in *;
      [by destruct Ho as (_ & ? & _) | by subst]. }
  split.
  { pose proof (store_register_outcome t s w data) as Ho.
    destruct (Store.register data t (s, w)) as [[[] | e] [s' w']]; simpl in *;
      [by destruct Ho as (_ & ? & _) | by subst]. }
  split; [by rewrite store_logout_eq |].
  split.
  { pose proof (store_forgotPassword_outcome t s w email) as Ho.
    destruct (Store.forgotPassword email t (s, w)) as [[[] | e] [s' w']]; simpl in *;
      by subst. }
  by rewrite store_load_eq.
Qed.

(** X13.  [login] and [register] of the store end authenticated exactly when
    they return: the store is authenticated with no error if the action
    returned, and unauthenticated with an error if it raised.  When the
    action returns, the API client had returned a body with a truthy
    [success], and the customer the store holds is the [customer] under the
    [data] of that body. *)
Theorem authenticated_iff_returned `{!JsonCodec} (t : string) (s : AuthState) (w : world)
    (credentials : LoginCredentials) (data : RegisterData) :
  (fst (Store.login credentials t (s, w)) = Normal tt <->
   isAuthenticated (fst (snd (Store.login credentials t (s, w)))) = true) /\
  (fst (Store.login credentials t (s, w)) = Normal tt <->
   error (fst (snd (Store.login credentials t (s, w)))) = None) /\
  (fst (Store.login credentials t (s, w)) = Normal tt ->
   exists body w',
     Client.login (Client.new_client t w) credentials w = (Normal body, w') /\
     truthy (get_prop_opt body "success") = true /\
     customer (fst (snd (Store.login credentials t (s, w)))) =
       get_prop_opt (get_prop_opt body "data") "customer") /\
  (fst (Store.register data t (s, w)) = Normal tt <->
   isAuthenticated (fst (snd (Store.register data t (s, w)))) = true) /\
  (fst (Store.register data t (s, w)) = Normal tt <->
   error (fst (snd (Store.register data t (s, w)))) = None) /\
  (fst (Store.register data t (s, w)) = Normal tt ->
   exists body w',
     Client.register (Client.new_client t w) data w = (Normal body, w') /\
     truthy (get_prop_opt body "success") = true /\
     customer (fst (snd (Store.register data t (s, w)))) =
       get_prop_opt (get_prop_opt body "data") "customer").
Proof.
  destruct (store_login_iff t s w credentials) as [Hl1 Hl2].
  destruct (store_register_iff t s w data) as [Hr1 Hr2].
  split; [done |]. split; [done |].
  split.
  { intros Hrun. destruct (store_login_success t s w credentials Hrun)
      as (body & w' & Hc & Hs & ->). by exists body, w'. }
  split; [done |]. split; [done |].
  intros Hrun. destruct (store_register_success t s w data Hrun)
    as (body & w' & Hc & Hs & ->). by exists body, w'.
Qed.

(** The theorem at a store login that gets the documented envelope. *)
Lemma authenticated_iff_returned_witness :
  let w := Sample.browser [] [Reply 120 200 Sample.login_envelope] in
  isAuthenticated
    (fst (snd (Store.login (H := ModelJSON.codec) Sample.credentials "demo"
                 (Store.initial, w)))) = true.
Proof.
  intros w.
  apply (proj1 (authenticated_iff_returned (H := ModelJSON.codec) "demo" Store.initial w
                  Sample.credentials
                  {| reg_email := ""; reg_phone_number := None; reg_password := "";
                     reg_password_confirm := ""; reg_first_name := "";
                     reg_last_name := ""; reg_property_address := "";
                     reg_language := None |})).
  vm_compute. reflexivity.
Defined.

(** X14.  Logout is durable: after the store's [logout], whatever the network
    did, initializing the store again from the storage of the same tenant
    returns without raising and leaves it in [unauthenticated(none)]. *)
Theorem logout_then_load `{!JsonCodec} (t : string) (s : AuthState) (w : world) :
  let after_logout := snd (Store.logout t (s, w)) in
  fst (Store.loadCustomerFromStorage t after_logout) = Normal tt /\
  fst (snd (Store.loadCustomerFromStorage t after_logout)) = unauthenticated None.
Proof.
  intros after_logout. unfold after_logout. rewrite store_logout_eq. simpl.
  set (w1 := snd (Client.logout (Client.new_client t w) w)).
  assert (Hout : signed_out t w1) by apply (logout_signs_out (Client.new_client t w)).
  rewrite store_load_eq. simpl. split; [done |].
  set (api := Client.new_client t w1).
  destruct (signed_out_session api w1 Hout) as (_ & Hc & _).
  destruct (getCurrentCustomer_reads api w1) as (Hw & _).
  assert (Hout' : signed_out t (snd (Client.getCurrentCustomer api w1))).
  { unfold signed_out, cookies in *. by rewrite Hw. }
  destruct (signed_out_session api _ Hout') as (_ & _ & Ha & _).
  by rewrite Hc, Ha.
Qed.

(** ** Splitting hosts and paths *)

Section Split.
Variable sep : ascii.

Lemma lacks_cons c s : lacks sep (String c s) = negb (Ascii.eqb c sep) && lacks sep s.
Proof. done. Qed.

(** No piece of a split string holds the separator. *)
Lemma split_pieces_lack s : Forall (fun piece => lacks sep piece = true) (split sep s).
Proof.
  induction s as [| c s IH]; [by repeat constructor |].
  rewrite split_cons. destruct (Ascii.eqb c sep) eqn:Hc.
  - by constructor.
  - destruct (split sep s) as [| piece pieces].
    + constructor; [| constructor]. by rewrite lacks_cons, Hc.
    + inversion IH as [| ? ? Hp Hps]; subst. constructor; [| done].
      by rewrite lacks_cons, Hc, Hp.
Qed.

(** Up to the first separator: the first piece, and the rest still to split. *)
Lemma split_first s :
  lacks sep s = false ->
  exists first rest,
    s = first +:+ String sep rest /\
    lacks sep first = true /\
    split sep s = first :: split sep rest.
Proof.
  induction s as [| c s IH]; [done |].
  rewrite lacks_cons, split_cons. destruct (Ascii.eqb c sep) eqn:Hc; simpl.
  - intros _. apply Ascii.eqb_eq in Hc as ->. by exists "", s.
  - intros Hs. destruct (IH Hs) as (first & rest & -> & Hf & ->).
    exists (String c first), rest. repeat split.
    by rewrite lacks_cons, Hc, Hf.
Qed.

Lemma split_whole s : lacks sep s = true -> split sep s = [s].
Proof.
  induction s as [| c s IH]; [done |].
  rewrite lacks_cons, split_cons. destruct (Ascii.eqb c sep); simpl; [done |].
  intros Hs. by rewrite IH.
Qed.

(** A piece ends at the first separator. *)
Lemma split_cut first rest :
  lacks sep first = true ->
  split sep (first +:+ String sep rest) = first :: split sep rest.
Proof.
  induction first as [| c first IH].
  - intros _. change ("" +:+ String sep rest) with (String sep rest).
    by rewrite split_cons, Ascii.eqb_refl.
  - rewrite lacks_cons. intros Hs. apply andb_prop in Hs as [Hc Hs].
    apply negb_true_iff in Hc.
    change (String c first +:+ String sep rest) with (String c (first +:+ String sep rest)).
    by rewrite split_cons, Hc, IH.
Qed.

(** The second piece of a string, from its shape. *)
Lemma split_second prefix segment :
  lacks sep prefix = true ->
  lacks sep segment = true ->
  at_index (split sep (prefix +:+ String sep segment)) 1 = Some segment /\
  forall rest,
    at_index (split sep (prefix +:+ String sep (segment +:+ String sep rest))) 1 =
      Some segment.
Proof.
  intros Hp Hs. split.
  - by rewrite split_cut, split_whole.
  - intros rest. by rewrite !split_cut.
Qed.

Lemma starts_with_lacks p s :
  starts_with p s = true -> lacks sep p = false -> lacks sep s = false.
Proof.
  revert s. induction p as [| a p IH]; intros [| b s]; simpl; try done.
  intros Hp Hl. apply andb_prop in Hp as [Hab Hp]. apply Ascii.eqb_eq in Hab as ->.
  destruct (Ascii.eqb b sep); simpl in *; [done |]. by apply IH.
Qed.

Lemma includes_lacks s needle :
  includes s needle = true -> lacks sep needle = false -> lacks sep s = false.
Proof.
  intros Hi Hn. induction s as [| c s IH].
  - simpl in Hi. rewrite orb_false_r in Hi. by apply (starts_with_lacks needle).
  - change (includes (String c s) needle)
      with (starts_with needle (String c s) || includes s needle) in Hi.
    apply orb_prop in Hi as [Hp | Hi]; [by apply (starts_with_lacks needle) |].
    rewrite lacks_cons, (IH Hi). apply andb_false_r.
Qed.

End Split.

(** ** The edge filter on every host *)

Lemma first_piece sep s : exists piece pieces, split sep s = piece :: pieces.
Proof.
  destruct s as [| c s]; [by eexists _, _ |].
  rewrite split_cons. destruct (Ascii.eqb c sep); [by eexists _, _ |].
  destruct (split sep s); by eexists _, _.
Qed.

(** X15.  On a host of the platform the tenant is the subdomain label: for
    every host that contains [accesswash.org] the edge filter yields the text
    before the first dot of the host, a tenant without a dot, whatever the
    path is (and even when the host also names [localhost]); the response
    carries it as its [x-tenant] header. *)
Theorem middleware_subdomain (host pathname : string) :
  includes host "accesswash.org" = true ->
  let request := {| header_host := Some host; nextUrl_pathname := pathname |} in
  (exists rest, host = middleware_tenant request +:+ String "." rest) /\
  lacks "." (middleware_tenant request) = true /\
  response_headers (middleware request) = [("x-tenant", middleware_tenant request)].
Proof.
  intros Hhost request.
  assert (Hdot : lacks "." host = false) by by apply (includes_lacks "." host "accesswash.org").
  destruct (split_first "." host Hdot) as (label & rest & Heq & Hlabel & Hsplit).
  assert (Htenant : middleware_tenant request = label).
  { unfold middleware_tenant, request. simpl. by rewrite Hhost, Hsplit. }
  rewrite Htenant. split; [by exists rest |]. split; [done |].
  unfold middleware. by rewrite Htenant.
Qed.

(** The theorem at a host that names both the platform and [localhost]. *)
Lemma middleware_subdomain_witness :
  middleware
    {| header_host := Some "localhost.accesswash.org:3000";
       nextUrl_pathname := "/acme/portal" |}
  = {| response_headers := [("x-tenant", "localhost")] |}.
Proof.
  pose proof (middleware_subdomain "localhost.accesswash.org:3000" "/acme/portal" eq_refl)
    as (_ & _ & Hheaders).
  destruct (middleware _) as [headers]. simpl in Hheaders. by rewrite Hheaders.
Defined.

(** X16.  Off the platform's hosts the tenant comes from the path or is the
    default.  For a host without [accesswash.org]: on a host of local
    development ([localhost], [127.0.0.1]) the tenant is the first path
    segment, the text between the first and the second slash of the path
    (or up to its end), when that is neither empty nor [api], and [demo]
    otherwise, also for a path without a slash; so the tenant there is never
    empty, never [api] and never holds a slash.  Any other host, a missing
    host header included, yields [demo] whatever the path. *)
Theorem middleware_off_platform (host : option string) (pathname : string) :
  includes (default "" host) "accesswash.org" = false ->
  let request := {| header_host := host; nextUrl_pathname := pathname |} in
  (local_host (default "" host) = true ->
   middleware_tenant request <> "" /\
   middleware_tenant request <> "api" /\
   lacks "/" (middleware_tenant request) = true /\
   (forall prefix segment,
       lacks "/" prefix = true ->
       lacks "/" segment = true ->
       pathname = prefix +:+ String "/" segment \/
       (exists rest, pathname = prefix +:+ String "/" (segment +:+ String "/" rest)) ->
       middleware_tenant request =
         if String.eqb segment "" || String.eqb segment "api" then "demo" else segment) /\
   (lacks "/" pathname = true -> middleware_tenant request = "demo")) /\
  (local_host (default "" host) = false -> middleware_tenant request = "demo") /\
  (host = None -> middleware_tenant request = "demo").
Proof.
  intros Hplatform request. unfold middleware_tenant, request.
  cbn [header_host nextUrl_pathname]. rewrite Hplatform. cbv iota.
  fold (local_host (default "" host)).
  set (found := at_index (split "/" pathname) 1).
  split; [| split].
  - intros ->. cbv iota.
    assert (Hcases : (exists segment,
                         found = Some segment /\ segment <> "" /\ segment <> "api" /\
                         match found with
                         | Some segment =>
                             if negb (String.eqb segment "") && negb (String.eqb segment "api")
                             then segment else "demo"
                         | None => "demo"
                         end = segment) \/
                     match found with
                     | Some segment =>
                         if negb (String.eqb segment "") && negb (String.eqb segment "api")
                         then segment else "demo"
                     | None => "demo"
                     end = "demo").
    { destruct found as [segment |]; [| by right].
      destruct (String.eqb segment "") eqn:E1; [by right |].
      destruct (String.eqb segment "api") eqn:E2; [by right |].
      left. exists segment. apply String.eqb_neq in E1, E2. by repeat split. }
    split; [| split; [| split; [| split]]].
    + destruct Hcases as [(segment & _ & Hne & _ & ->) | ->]; done.
    + destruct Hcases as [(segment & _ & _ & Hapi & ->) | ->]; done.
    + destruct Hcases as [(segment & Hfound & _ & _ & ->) | ->]; [| done].
      pose proof (split_pieces_lack "/" pathname) as Hall.
      unfold found, at_index in Hfound.
      apply nth_error_In, list_elem_of_In in Hfound.
      by apply (proj1 (Forall_forall _ _) Hall).
    + intros prefix segment Hprefix Hsegment Hpath.
      destruct (split_second "/" prefix segment Hprefix Hsegment) as [Hlast Hinner].
      assert (Hfound : found = Some segment).
      { unfold found. destruct Hpath as [-> | [rest ->]]; [done | apply Hinner]. }
      rewrite Hfound.
      by destruct (String.eqb segment ""), (String.eqb segment "api").
    + intros Hno. unfold found. by rewrite split_whole.
  - by intros ->.
  - intros ->. done.
Qed.

(** The theorem at a request for a local API route: the segment [api] is
    not taken for a tenant. *)
Lemma middleware_off_platform_witness :
  middleware_tenant {| header_host := Some "127.0.0.1:3000";
                       nextUrl_pathname := "/api/health" |} = "demo".
Proof.
  refine (proj1 (proj2 (proj2 (proj2 (proj1
            (middleware_off_platform (Some "127.0.0.1:3000") "/api/health" eq_refl) _))))
            "" "api" eq_refl eq_refl (or_intror (ex_intro _ "health" eq_refl))).
  reflexivity.
Defined.

(** ** The resolved tenant *)

Lemma tenant_param_nonempty params t : tenant_param params = Some t -> t <> "".
Proof.
  unfold tenant_param. destruct params as [entries |]; [| done].
  destruct (List.find _ entries) as [[k [s | l]] |]; try done.
  destruct (String.eqb s "") eqn:E; [done |].
  intros [= <-]. by apply String.eqb_neq.
Qed.

Lemma useTenant_nonempty params pathname :
  exists c rest, useTenant params pathname = String c rest.
Proof.
  unfold useTenant. destruct (tenant_param params) as [t |] eqn:Hp.
  - apply tenant_param_nonempty in Hp. destruct t as [| c rest]; [done | by eexists _, _].
  - destruct (at_index (split "/" pathname) 1) as [segment |]; [| by eexists _, _].
    destruct segment as [| c rest]; by eexists _, _.
Qed.

(** X17.  The tenant resolver never fails to name a tenant: for every route
    parameters and every path the tenant is not empty.  Without a usable
    route parameter the tenant is a piece of the path without a slash or the
    default, and on a host of local development it is the tenant of the edge
    filter unless the first path segment is [api], which the filter alone
    replaces by [demo]. *)
Theorem useTenant_total (params : option (list (string * route_param))) (pathname : string) :
  useTenant params pathname <> "" /\
  (tenant_param params = None ->
   lacks "/" (useTenant params pathname) = true /\
   forall host,
     includes host "accesswash.org" = false ->
     local_host host = true ->
     middleware_tenant {| header_host := Some host; nextUrl_pathname := pathname |} =
       if String.eqb (useTenant params pathname) "api" then "demo"
       else useTenant params pathname).
Proof.
  split.
  - unfold useTenant. destruct (tenant_param params) as [t |] eqn:Hp.
    + by apply (tenant_param_nonempty params).
    + destruct (at_index (split "/" pathname) 1) as [segment |]; [| done].
      destruct (String.eqb segment "") eqn:E; [done |]. by apply String.eqb_neq.
  - intros Hp. rewrite useTenant_fallback by done.
    set (found := at_index (split "/" pathname) 1). split.
    + pose proof (split_pieces_lack "/" pathname) as Hall.
      destruct found as [segment |] eqn:Hfound; [| done].
      destruct (String.eqb segment ""); [done |].
      unfold found, at_index in Hfound.
      apply nth_error_In, list_elem_of_In in Hfound.
      by apply (proj1 (Forall_forall _ _) Hall).
    + intros host Hplatform Hlocal. unfold middleware_tenant.
      cbn [header_host nextUrl_pathname from_option id]. rewrite Hplatform. cbv iota.
      fold (local_host host). rewrite Hlocal. cbv iota. fold found.
      destruct found as [segment |]; [| done].
      destruct (String.eqb segment "") eqn:E1; [done |]. simpl.
      by destruct (String.eqb segment "api").
Qed.

(** The theorem at the dashboard route of [acme] on a development host. *)
Lemma useTenant_total_witness :
  middleware_tenant {| header_host := Some "localhost:3000";
                       nextUrl_pathname := "/acme/portal/dashboard" |}
  = useTenant None "/acme/portal/dashboard".
Proof.
  exact (proj2 (proj2 (useTenant_total None "/acme/portal/dashboard") eq_refl)
           "localhost:3000" eq_refl eq_refl).
Defined.

(** ** The hook on mount *)

(** X18.  The effect [useCustomerAuth] runs on mount always loads the
    session: the resolved tenant is never empty, so for every route the
    effect is [loadCustomerFromStorage] of that tenant; it returns without
    raising, sends no request, and leaves the store not loading. *)
Theorem hook_mount_loads `{!JsonCodec} (params : option (list (string * route_param)))
    (pathname : string) (s : AuthState) (w : world) :
  Hook.mount params pathname (s, w) =
    Store.loadCustomerFromStorage (useTenant params pathname) (s, w) /\
  fst (Hook.mount params pathname (s, w)) = Normal tt /\
  loading (fst (snd (Hook.mount params pathname (s, w)))) = false /\
  network (snd (snd (Hook.mount params pathname (s, w)))) = network w /\
  exists new,
    extends w (snd (snd (Hook.mount params pathname (s, w)))) new /\ requests new = [].
Proof.
  assert (Heq : Hook.mount params pathname (s, w) =
                Store.loadCustomerFromStorage (useTenant params pathname) (s, w)).
  { unfold Hook.mount. simpl.
    destruct (useTenant_nonempty params pathname) as [c [rest ->]]. done. }
  rewrite Heq. split; [done |].
  rewrite store_load_eq. simpl. split; [done |]. split; [done |].
  set (api := Client.new_client (useTenant params pathname) w).
  set (w1 := snd (Client.getCurrentCustomer api w)).
  destruct (getCurrentCustomer_reads api w) as (_ & _ & Hn1). fold w1 in Hn1.
  destruct (isAuthenticated_reads api w1) as (_ & _ & Hn2).
  split; [by rewrite Hn2 |].
  destruct (offline_getCurrentCustomer api w) as [_ (n1 & E1 & O1)]. fold w1 in E1.
  destruct (offline_isAuthenticated api w1) as [_ (n2 & E2 & O2)].
  exists (n2 ++ n1)%list. split.
  - unfold extends in *. by rewrite E2, E1, app_assoc.
  - rewrite requests_app. by rewrite (offline_requests n1), (offline_requests n2).
Qed.

(** ** The store's actions and other tenants *)

Section StoreWorld.
Context `{!JsonCodec}.
Variables (t : string) (s : AuthState) (w : world).

(** The world a store action leaves is the world its client call leaves. *)
Lemma store_login_world credentials :
  snd (snd (Store.login credentials t (s, w))) =
    snd (Client.login (Client.new_client t w) credentials w).
Proof.
  unfold_store. simpl.
  destruct (Client.login _ _ _) as [[body | e] w']; simpl; [| done].
  destruct (get_prop body "success") as [success |]; simpl; [| done].
  destruct (truthy success); simpl.
  - destruct (get_prop body "data") as [data |]; simpl; [| done].
    by destruct (get_prop data "customer").
  - destruct (get_prop body "message") as [message |]; simpl; [| done].
    rewrite new_Error_or. by destruct (ToString _).
Qed.

Lemma store_register_world data :
  snd (snd (Store.register data t (s, w))) =
    snd (Client.register (Client.new_client t w) data w).
Proof.
  unfold_store. simpl.
  destruct (Client.register _ _ _) as [[body | e] w']; simpl; [| done].
  destruct (get_prop body "success") as [success |]; simpl; [| done].
  destruct (truthy success); simpl.
  - destruct (get_prop body "data") as [d |]; simpl; [| done].
    by destruct (get_prop d "customer").
  - destruct (get_prop body "message") as [message |]; simpl; [| done].
    rewrite new_Error_or. by destruct (ToString _).
Qed.

Lemma store_forgotPassword_world email :
  snd (snd (Store.forgotPassword email t (s, w))) =
    snd (Client.forgotPassword (Client.new_client t w) email w).
Proof.
  unfold_store. simpl. by destruct (Client.forgotPassword _ _ _) as [[body | e] w'].
Qed.

Lemma store_actions_confined :
  let inside w' := confined t (touches_own t) w w' in
  (forall credentials, inside (snd (snd (Store.login credentials t (s, w))))) /\
  (forall data, inside (snd (snd (Store.register data t (s, w))))) /\
  (forall email, inside (snd (snd (Store.forgotPassword email t (s, w))))) /\
  inside (snd (snd (Store.logout t (s, w)))) /\
  inside (snd (snd (Store.loadCustomerFromStorage t (s, w)))).
Proof.
  intros inside. unfold inside. set (api := Client.new_client t w).
  split; [| split; [| split; [| split]]].
  - intros credentials. rewrite store_login_world.
    apply (inside_invoke api (Login credentials)).
  - intros data. rewrite store_register_world.
    apply (inside_invoke api (Register data)).
  - intros email. rewrite store_forgotPassword_world.
    apply (inside_invoke api (ForgotPassword email)).
  - rewrite store_logout_eq. apply (inside_logout api).
  - rewrite store_load_eq. simpl.
    eapply confined_trans.
    + apply (inside_getCurrentCustomer api).
    + apply (inside_isAuthenticated api).
Qed.

End StoreWorld.

(** X19.  Tenant isolation holds end to end: whatever action of the store
    runs for a tenant ([login], [register], [forgotPassword], [logout],
    [loadCustomerFromStorage]), and so whatever action the hook hands out on
    a route of that tenant, both cookies of every other tenant are after it
    what they were before.  *)
Theorem store_actions_spare_other_tenants `{!JsonCodec} (t other : string)
    (s : AuthState) (w : world) :
  other <> t ->
  let spared w' :=
    cookies w' !! Client.token_key other = cookies w !! Client.token_key other /\
    cookies w' !! Client.customer_key other = cookies w !! Client.customer_key other in
  (forall credentials, spared (snd (snd (Store.login credentials t (s, w))))) /\
  (forall data, spared (snd (snd (Store.register data t (s, w))))) /\
  (forall email, spared (snd (snd (Store.forgotPassword email t (s, w))))) /\
  spared (snd (snd (Store.logout t (s, w)))) /\
  spared (snd (snd (Store.loadCustomerFromStorage t (s, w)))) /\
  (forall params pathname,
      useTenant params pathname = t ->
      (forall credentials, spared (snd (snd (Hook.login params pathname credentials (s, w))))) /\
      (forall data, spared (snd (snd (Hook.register params pathname data (s, w))))) /\
      (forall email, spared (snd (snd (Hook.forgotPassword params pathname email (s, w))))) /\
      spared (snd (snd (Hook.logout params pathname (s, w)))) /\
      spared (snd (snd (Hook.mount params pathname (s, w))))).
Proof.
  intros Hne spared.
  assert (Hspare : forall w', confined t (touches_own t) w w' -> spared w').
  { intros w' [Hframe _]. split; apply Hframe.
    - apply (own_disjoint other t); [done | apply own_token].
    - apply (own_disjoint other t); [done | apply own_customer]. }
  destruct (store_actions_confined t s w) as (Hlogin & Hregister & Hforgot & Hlogout & Hload).
  split; [intros; apply Hspare, Hlogin |].
  split; [intros; apply Hspare, Hregister |].
  split; [intros; apply Hspare, Hforgot |].
  split; [apply Hspare, Hlogout |].
  split; [apply Hspare, Hload |].
  intros params pathname Ht.
  unfold Hook.login, Hook.register, Hook.forgotPassword, Hook.logout, Hook.mount.
  rewrite Ht.
  split; [intros; apply Hspare, Hlogin |].
  split; [intros; apply Hspare, Hregister |].
  split; [intros; apply Hspare, Hforgot |].
  split; [apply Hspare, Hlogout |].
  destruct (truthy (JStr t)); [apply Hspare, Hload | by split].
Qed.

(** The theorem at a store logout of [demo] next to a session of [acme]. *)
Lemma store_actions_spare_other_tenants_witness :
  let w := Sample.browser Sample.two_sessions [NetworkError] in
  cookies (snd (snd (Store.logout "demo" (Store.initial, w)))) !! Client.token_key "acme"
  = cookies w !! Client.token_key "acme".
Proof.
  intros w.
  refine (proj1 (proj1 (proj2 (proj2 (proj2
            (store_actions_spare_other_tenants (H := ModelJSON.codec) "demo" "acme"
               Store.initial w _)))))).
  discriminate.
Defined.

(** ** The message of a failed login *)

Section FailureMessage.
Context `{!JsonCodec}.

Lemma rejected_call c this w elapsed status fields rest :
  network w = Reply elapsed status (JObj fields) :: rest ->
  elapsed <= timeout this ->
  truthy (obj_get fields "success") = false ->
  match c with Login _ | Register _ => True | _ => False end ->
  fst (invoke this c w) =
    if Client.validateStatus status
    then Normal (JObj fields)
    else Throw (rejection (obj_get fields "message") (fallback c)).
Proof.
  intros Hnet Ht Hs Hc.
  assert (Hhead : head (network w) = Some (Reply elapsed status (JObj fields)))
    by (by rewrite Hnet).
  rewrite invoke_eq, Hhead. simpl.
  assert (Hlt : (timeout this <? elapsed) = false) by lia. rewrite Hlt.
  destruct (Client.validateStatus status); [| done].
  destruct c; try done; unfold continuation, Client.persist_session, member, bind, ret;
    simpl; by rewrite Hs, ?Hs.
Qed.

(** Whichever way the backend turns the call down, the store raises what
    building the error from the [message] of the body gives. *)
Lemma store_rejected t s w elapsed status fields rest :
  network w = Reply elapsed status (JObj fields) :: rest ->
  elapsed <= 10000 ->
  truthy (obj_get fields "success") = false ->
  (forall credentials,
      fst (Store.login credentials t (s, w)) =
        Throw (rejection (obj_get fields "message") "Login failed") /\
      fst (snd (Store.login credentials t (s, w))) =
        unauthenticated
          (Some (error_message (rejection (obj_get fields "message") "Login failed")))) /\
  (forall data,
      fst (Store.register data t (s, w)) =
        Throw (rejection (obj_get fields "message") "Registration failed") /\
      fst (snd (Store.register data t (s, w))) =
        unauthenticated
          (Some (error_message (rejection (obj_get fields "message") "Registration failed")))).
Proof.
  intros Hnet Ht Hs. split.
  - intros credentials.
    pose proof (rejected_call (Login credentials) (Client.new_client t w) w
                  elapsed status fields rest Hnet Ht Hs I) as Hcall.
    change (invoke (Client.new_client t w) (Login credentials) w)
      with (Client.login (Client.new_client t w) credentials w) in Hcall.
    unfold_store. unfold rejection in *. simpl in *.
    destruct (Client.login _ _ _) as [[body | e] w']; simpl in *;
      destruct (Client.validateStatus status); simplify_eq; simpl.
    + rewrite Hs. simpl. rewrite new_Error_or. by destruct (ToString _).
    + by destruct (ToString _).
  - intros data.
    pose proof (rejected_call (Register data) (Client.new_client t w) w
                  elapsed status fields rest Hnet Ht Hs I) as Hcall.
    change (invoke (Client.new_client t w) (Register data) w)
      with (Client.register (Client.new_client t w) data w) in Hcall.
    unfold_store. unfold rejection in *. simpl in *.
    destruct (Client.register _ _ _) as [[body | e] w']; simpl in *;
      destruct (Client.validateStatus status); simplify_eq; simpl.
    + rewrite Hs. simpl. rewrite new_Error_or. by destruct (ToString _).
    + by destruct (ToString _).
Qed.

End FailureMessage.

(** X20.  A login or a registration the backend turns down shows the same
    error however the backend says so.  When the reply arrives in time and
    its body is an object with a falsy [success], then whether the status is
    2xx or not the store's action raises and the store ends in
    [unauthenticated(error)].  When the [message] of the body converts to a
    string, what is raised is the [Error] with that string if the [message]
    is truthy and with [Login failed] (for [register]:
    [Registration failed]) otherwise, and the store's error is that text.
    When the [message] has no string, what is raised is the engine's
    [TypeError], and the store's error is its text. *)
Theorem rejection_message `{!JsonCodec} (t : string) (s : AuthState) (w : world)
    (elapsed status : Z) (fields : list (string * jsval)) (rest : list outcome) :
  network w = Reply elapsed status (JObj fields) :: rest ->
  elapsed <= 10000 ->
  truthy (obj_get fields "success") = false ->
  (forall text,
      ToString (obj_get fields "message") = Some text ->
      let shown fallback := if truthy (obj_get fields "message") then text else fallback in
      (forall credentials,
          fst (Store.login credentials t (s, w)) = Throw (Error (shown "Login failed")) /\
          fst (snd (Store.login credentials t (s, w))) =
            unauthenticated (Some (shown "Login failed"))) /\
      (forall data,
          fst (Store.register data t (s, w)) = Throw (Error (shown "Registration failed")) /\
          fst (snd (Store.register data t (s, w))) =
            unauthenticated (Some (shown "Registration failed")))) /\
  (ToString (obj_get fields "message") = None ->
   (forall credentials,
       fst (Store.login credentials t (s, w)) = Throw (TypeError cannot_convert) /\
       fst (snd (Store.login credentials t (s, w))) =
         unauthenticated (Some cannot_convert)) /\
   (forall data,
       fst (Store.register data t (s, w)) = Throw (TypeError cannot_convert) /\
       fst (snd (Store.register data t (s, w))) =
         unauthenticated (Some cannot_convert))).
Proof.
  intros Hnet Ht Hs.
  destruct (store_rejected t s w elapsed status fields rest Hnet Ht Hs) as [Hlogin Hregister].
  split.
  - intros text Htext shown. split.
    + intros credentials. destruct (Hlogin credentials) as [-> ->].
      by rewrite (rejection_converts _ _ text).
    + intros data. destruct (Hregister data) as [-> ->].
      by rewrite (rejection_converts _ _ text).
  - intros Hno. split.
    + intros credentials. destruct (Hlogin credentials) as [-> ->].
      by rewrite rejection_unconvertible.
    + intros data. destruct (Hregister data) as [-> ->].
      by rewrite rejection_unconvertible.
Qed.

(** The theorem at a 200 reply that says [success: false]. *)
Lemma rejection_message_witness :
  let w := Sample.browser []
             [Reply 70 200 (JObj [("success", JBool false);
                                  ("message", JStr "Account not approved yet")])] in
  fst (Store.login (H := ModelJSON.codec) Sample.credentials "demo" (Store.initial, w))
  = Throw (Error "Account not approved yet").
Proof.
  intros w.
  refine (proj1 (proj1 (proj1 (rejection_message (H := ModelJSON.codec) "demo" Store.initial w
                                 70 200 [("success", JBool false);
                                         ("message", JStr "Account not approved yet")] []
                                 eq_refl _ eq_refl)
                          "Account not approved yet" eq_refl) Sample.credentials)).
  lia.
Defined.
